(** * ASTURI Report: the folder tree and its storage tiers

    A shallow embedding of [script.js]: the recursive topic tree
    ([findTopicById], [getAllTopicsFlat], [countAllItems], the two delete
    handlers, rename, toggle, create), the three-tier storage layer
    ([saveToStorage], [getFromStorage], [saveData]) and the archive
    export/import ([exportAllData], [performImport]).

    Conventions.
    - JavaScript strings are byte strings; [new Blob([s]).size] is the
      length of [s].
    - An async function is modelled by its result once the promise has
      settled; what the backend does during a call (succeeds, throws,
      fires a request error) is an explicit argument.
    - [new Date().toISOString()] is an explicit argument [now].
    - Text read from a form field is passed already trimmed. *)

From Stdlib Require Import Ascii String ZArith NArith DecimalString.
From Stdlib Require DecimalPos DecimalZ.
From stdpp Require Import base option list strings gmap.

Local Open Scope string_scope.
Local Open Scope list_scope.

(** ** Node identifiers

    The default forest uses integer ids and an imported archive can carry
    any JSON value as an id; integers and strings are modelled.  ([generateId]
    returns [Date.now() + Math.random()], a number with a fractional part,
    which like an integer prints with a leading digit.)  [===] never
    identifies a number with a string. *)

Inductive JsId :=
| IdNum (n : Z)
| IdStr (s : string).

Definition id_eqb (a b : JsId) : bool :=
  match a, b with
  | IdNum x, IdNum y => Z.eqb x y
  | IdStr x, IdStr y => String.eqb x y
  | _, _ => false
  end.

(** Truthiness of an id ([renameTargetId && ...], [name && currentTopicId]). *)
Definition id_truthy (a : JsId) : bool :=
  match a with
  | IdNum n => negb (Z.eqb n 0)
  | IdStr s => negb (String.eqb s "")
  end.

(** [`${id}`] and the property key [obj[id]]: a number in decimal, as
    JavaScript prints integers of magnitude below 10^21.  From 10^21 on
    JavaScript prints the exponent form, which is not modelled: the
    statements below use the text of an id only as a key, the same on
    every side. *)
Definition id_toString (a : JsId) : string :=
  match a with
  | IdNum n => NilZero.string_of_int (Z.to_int n)
  | IdStr s => s
  end.

Definition str_truthy (s : string) : bool := negb (String.eqb s "").

(** ** Nodes *)

Record Attrs := mkAttrs {
  id : JsId;
  name : string;
  icon : option string;
  description : option string;
  folderType : option string;
  expanded : bool;
  createdDate : option string;
  uploadDate : option string;
  lastModified : option string
}.

(** [subtopics] is [None] when the property is missing. *)
Local Unset Elimination Schemes.
Inductive Node :=
| mkNode (attrs : Attrs) (subtopics : option (list Node)).
Local Set Elimination Schemes.

Definition attrs (n : Node) : Attrs := match n with mkNode a _ => a end.
Definition subtopics (n : Node) : option (list Node) :=
  match n with mkNode _ s => s end.

Definition node_id (n : Node) : JsId := id (attrs n).

Definition is_pdf_folder (n : Node) : bool :=
  match folderType (attrs n) with
  | Some t => String.eqb t "pdf-folder"
  | None => false
  end.

(** ** Tree traversals *)

(** [getAllTopicsFlat(topicsList)]: each topic, then the flat list of its
    subtopics, then the rest. *)
Fixpoint flat_node (topic : Node) : list Node :=
  match topic with
  | mkNode _ subs =>
      topic ::
      match subs with
      | Some l =>
          (fix flat_list (l : list Node) : list Node :=
             match l with
             | [] => []
             | c :: r => flat_node c ++ flat_list r
             end) l
      | None => []
      end
  end.

Fixpoint getAllTopicsFlat (topicsList : list Node) : list Node :=
  match topicsList with
  | [] => []
  | topic :: rest => flat_node topic ++ getAllTopicsFlat rest
  end.

(** [findTopicById(id, topicsList)]. *)
Fixpoint find_node (i : JsId) (topic : Node) : option Node :=
  match topic with
  | mkNode a subs =>
      if id_eqb (id a) i then Some topic
      else
        match subs with
        | Some l =>
            (fix find_list (l : list Node) : option Node :=
               match l with
               | [] => None
               | c :: r =>
                   match find_node i c with
                   | Some found => Some found
                   | None => find_list r
                   end
               end) l
        | None => None
        end
  end.

Definition findTopicById (i : JsId) : list Node -> option Node :=
  fix find_list (topicsList : list Node) : option Node :=
    match topicsList with
    | [] => None
    | topic :: rest =>
        match find_node i topic with
        | Some found => Some found
        | None => find_list rest
        end
    end.

(** [countAllItems(item)] only reads [item.subtopics]; [count_subtopics]
    is the function on that property, so that the synthetic root
    [{ subtopics: topics }] of [getStorageInfo] can be counted too. *)
Fixpoint countAllItems (item : Node) : nat :=
  match item with
  | mkNode _ subs =>
      1 +
      match subs with
      | Some l =>
          (fix count_list (l : list Node) : nat :=
             match l with
             | [] => 0
             | c :: r => countAllItems c + count_list r
             end) l
      | None => 0
      end
  end.

Fixpoint count_list (l : list Node) : nat :=
  match l with
  | [] => 0
  | c :: r => countAllItems c + count_list r
  end.

Definition count_subtopics (subs : option (list Node)) : nat :=
  1 + match subs with Some l => count_list l | None => 0 end.

(** [topicCount] of [getStorageInfo]. *)
Definition topicCount (topics : list Node) : nat :=
  count_subtopics (Some topics) - 1.

(** ** Mutation through a reference

    [findTopicById] hands out a reference into the tree and the handlers
    assign to its properties.  [modifyById i f] is the forest after the
    object that [findTopicById(i)] returns has been changed by [f];
    [None] when there is no such object. *)

Fixpoint modify_node (i : JsId) (f : Node -> Node) (topic : Node) : option Node :=
  match topic with
  | mkNode a subs =>
      if id_eqb (id a) i then Some (f topic)
      else
        match subs with
        | Some l =>
            option_map (fun l' => mkNode a (Some l'))
              ((fix modify_list (l : list Node) : option (list Node) :=
                  match l with
                  | [] => None
                  | c :: r =>
                      match modify_node i f c with
                      | Some c' => Some (c' :: r)
                      | None => option_map (cons c) (modify_list r)
                      end
                  end) l)
        | None => None
        end
  end.

Definition modifyById (i : JsId) (f : Node -> Node)
  : list Node -> option (list Node) :=
  fix modify_list (topicsList : list Node) : option (list Node) :=
    match topicsList with
    | [] => None
    | c :: r =>
        match modify_node i f c with
        | Some c' => Some (c' :: r)
        | None => option_map (cons c) (modify_list r)
        end
    end.

Definition update_found (i : JsId) (f : Node -> Node) (topicsList : list Node)
  : list Node :=
  default topicsList (modifyById i f topicsList).

(** ** Removal

    [removeFromArray(arr)] of [deleteTopic] and [removeSubtopicRecursive(items)]
    of [deleteSubtopic] run the same loop: splice the element whose id
    matches, else descend into its [subtopics].  The result is the array
    after the call when it returns [true], [None] when it returns [false]. *)

Fixpoint remove_in_node (i : JsId) (topic : Node) : option Node :=
  match topic with
  | mkNode a subs =>
      match subs with
      | Some l =>
          option_map (fun l' => mkNode a (Some l'))
            ((fix remove_list (l : list Node) : option (list Node) :=
                match l with
                | [] => None
                | c :: r =>
                    if id_eqb (node_id c) i then Some r
                    else
                      match remove_in_node i c with
                      | Some c' => Some (c' :: r)
                      | None => option_map (cons c) (remove_list r)
                      end
                end) l)
      | None => None
      end
  end.

Definition removeFromArray (i : JsId) : list Node -> option (list Node) :=
  fix remove_list (arr : list Node) : option (list Node) :=
    match arr with
    | [] => None
    | c :: r =>
        if id_eqb (node_id c) i then Some r
        else
          match remove_in_node i c with
          | Some c' => Some (c' :: r)
          | None => option_map (cons c) (remove_list r)
          end
    end.

(** The fallback loop of [deleteSubtopic]: try the [subtopics] of each
    top-level topic in turn and stop at the first that removes something. *)
Fixpoint remove_in_topics (i : JsId) (topicsList : list Node) : list Node :=
  match topicsList with
  | [] => []
  | topic :: rest =>
      match remove_in_node i topic with
      | Some topic' => topic' :: rest
      | None => topic :: remove_in_topics i rest
      end
  end.

(** ** Values, plain objects and keys *)

(** What a storage slot can hand back: [null], a string, or the topics
    array itself (the in-memory tier stores the array under the snapshot
    key). *)
Inductive JsValue :=
| JNull
| JStr (s : string)
| JTopics (l : list Node).

Definition js_truthy (v : JsValue) : bool :=
  match v with
  | JNull => false
  | JStr s => str_truthy s
  | JTopics _ => true
  end.

(** [String(v)], as [localStorage.setItem] and the [Blob] constructor
    apply it. *)
Definition js_toString (v : JsValue) : string :=
  match v with
  | JNull => "null"
  | JStr s => s
  | JTopics l => String.concat "," (map (fun _ => "[object Object]") l)
  end.

(** [value ? new Blob([value]).size : 0] *)
Definition blob_size (value : JsValue) : nat :=
  if js_truthy value then String.length (js_toString value) else 0.

(** A plain object as its own properties in insertion order. *)
Definition JsObject := list (string * JsValue).

(** [obj[key] = value] on an object literal: an existing property keeps
    its place; assigning to [__proto__] does not create a property. *)
Fixpoint obj_assign (key : string) (value : JsValue) (o : JsObject) : JsObject :=
  match o with
  | [] => [(key, value)]
  | (k, v) :: rest =>
      if String.eqb k key then (k, value) :: rest
      else (k, v) :: obj_assign key value rest
  end.

Definition obj_set (key : string) (value : JsValue) (o : JsObject) : JsObject :=
  if String.eqb key "__proto__" then o else obj_assign key value o.

(** Array-index keys: the canonical decimal numerals of 0 .. 2^32 - 2. *)
Definition digit_of (c : ascii) : option N :=
  let n := N_of_ascii c in
  if (48 <=? n)%N && (n <=? 57)%N then Some (n - 48)%N else None.

Fixpoint parse_digits (acc : N) (s : string) : option N :=
  match s with
  | EmptyString => Some acc
  | String c rest =>
      match digit_of c with
      | Some d => parse_digits (acc * 10 + d)%N rest
      | None => None
      end
  end.

Definition array_index (key : string) : option N :=
  match key with
  | EmptyString => None
  | String c rest =>
      if Ascii.eqb c "0" && negb (String.eqb rest "") then None
      else
        match parse_digits 0 key with
        | Some n => if (n <=? 4294967294)%N then Some n else None
        | None => None
        end
  end.

Fixpoint insert_index (e : N * (string * JsValue))
  (l : list (N * (string * JsValue))) : list (N * (string * JsValue)) :=
  match l with
  | [] => [e]
  | x :: rest =>
      if (fst e <=? fst x)%N then e :: x :: rest
      else x :: insert_index e rest
  end.

Fixpoint split_keys (o : JsObject)
  : list (N * (string * JsValue)) * list (string * JsValue) :=
  match o with
  | [] => ([], [])
  | (k, v) :: rest =>
      let '(ix, named) := split_keys rest in
      match array_index k with
      | Some n => (insert_index (n, (k, v)) ix, named)
      | None => (ix, (k, v) :: named)
      end
  end.

(** [Object.entries(o)]: array-index keys in ascending order, then the
    other keys in insertion order. *)
Definition Object_entries (o : JsObject) : list (string * JsValue) :=
  let '(ix, named) := split_keys o in map snd ix ++ named.

Definition STORAGE_KEY : string := "asturi_report_topics".

Definition pdf_key (i : JsId) : string := "pdf_" +:+ id_toString i.
Definition excel_key (i : JsId) : string := "excel_" +:+ id_toString i.

(** [key.startsWith('pdf_') || key.startsWith('excel_') ? key : `pdf_${key}`] *)
Definition import_key (key : string) : string :=
  if String.prefix "pdf_" key || String.prefix "excel_" key then key
  else "pdf_" +:+ key.

(** ** The storage tiers *)

Inductive StorageType := IndexedDB | LocalStorage | MemoryOnly.

(** What the selected backend does during one call.  [Throws]: the call
    into it raises ([db.transaction], [localStorage.setItem],
    [localStorage.getItem]).  [RequestFails]: the transaction opens and the
    IndexedDB request fires [onerror]; [localStorage] has no requests, so
    there the call goes through. *)
Inductive Backend :=
| Succeeds
| Throws
| RequestFails (message : string).

Record BlobRecord := mkBlob {
  b_data : JsValue;
  b_timestamp : string;
  b_size : nat
}.

Record TopicsRecord := mkSnapshot {
  t_data : list Node;
  t_timestamp : string;
  t_version : string
}.

Inductive MemItem :=
| MemBlob (r : BlobRecord)
| MemTopics (r : TopicsRecord).

(** [db] is [true] once [initializeDB] has resolved.  The object stores
    'pdfs' and 'topics' are keyed by the [id] of the record. *)
Record Storage := mkStorage {
  db : bool;
  storageType : StorageType;
  idb_pdfs : gmap string BlobRecord;
  idb_topics : gmap string TopicsRecord;
  localStorage : gmap string string;
  inMemoryStorage : gmap string MemItem
}.

Definition set_idb_pdfs (m : gmap string BlobRecord) (st : Storage) : Storage :=
  mkStorage (db st) (storageType st) m (idb_topics st) (localStorage st)
    (inMemoryStorage st).
Definition set_idb_topics (m : gmap string TopicsRecord) (st : Storage) : Storage :=
  mkStorage (db st) (storageType st) (idb_pdfs st) m (localStorage st)
    (inMemoryStorage st).
Definition set_localStorage (m : gmap string string) (st : Storage) : Storage :=
  mkStorage (db st) (storageType st) (idb_pdfs st) (idb_topics st) m
    (inMemoryStorage st).
Definition set_inMemoryStorage (m : gmap string MemItem) (st : Storage) : Storage :=
  mkStorage (db st) (storageType st) (idb_pdfs st) (idb_topics st)
    (localStorage st) m.

Definition uses_IndexedDB (st : Storage) : bool :=
  db st && match storageType st with IndexedDB => true | _ => false end.
Definition uses_localStorage (st : Storage) : bool :=
  match storageType st with LocalStorage => true | _ => false end.

Inductive Outcome (A : Type) :=
| Returned (a : A)
| Rejected (message : string).
Arguments Returned {A} a.
Arguments Rejected {A} message.

Definition memory_set (now key : string) (value : JsValue) (st : Storage)
  : Storage :=
  set_inMemoryStorage
    (<[key := MemBlob (mkBlob value now (blob_size value))]> (inMemoryStorage st))
    st.

(** [saveToStorage(key, value)].  Both failure modes of the IndexedDB put
    end in the [catch]: the request is awaited inside the [try]. *)
Definition saveToStorage (now : string) (be : Backend) (key : string)
  (value : JsValue) (st : Storage) : Storage :=
  if uses_IndexedDB st then
    match be with
    | Succeeds =>
        set_idb_pdfs
          (<[key := mkBlob value now (blob_size value)]> (idb_pdfs st)) st
    | Throws | RequestFails _ => memory_set now key value st
    end
  else if uses_localStorage st then
    match be with
    | Throws => memory_set now key value st
    | Succeeds | RequestFails _ =>
        set_localStorage (<[key := js_toString value]> (localStorage st)) st
    end
  else memory_set now key value st.

(** [const item = inMemoryStorage.get(key); return item ? item.data : null] *)
Definition memory_get (key : string) (st : Storage) : JsValue :=
  match inMemoryStorage st !! key with
  | Some (MemBlob r) => b_data r
  | Some (MemTopics r) => JTopics (t_data r)
  | None => JNull
  end.

(** [getFromStorage(key)].  The IndexedDB branch returns the request's
    promise without awaiting it, so a request error is not caught here and
    rejects the call. *)
Definition getFromStorage (be : Backend) (key : string) (st : Storage)
  : Outcome JsValue :=
  if uses_IndexedDB st then
    match be with
    | Succeeds =>
        Returned
          match idb_pdfs st !! key with
          | Some result => b_data result
          | None => JNull
          end
    | Throws => Returned (memory_get key st)
    | RequestFails message => Rejected message
    end
  else if uses_localStorage st then
    match be with
    | Throws => Returned (memory_get key st)
    | Succeeds | RequestFails _ =>
        Returned
          match localStorage st !! key with
          | Some s => JStr s
          | None => JNull
          end
    end
  else Returned (memory_get key st).

(** ** Application state

    The module-level variables the handlers read and write, the storage
    tiers, and the messages shown with [alert] (most recent first).  The
    DOM and the PDF viewer are left out. *)

Record App := mkApp {
  topics : list Node;
  currentTopicId : option JsId;
  currentSubtopicId : option JsId;
  renameTargetId : option JsId;
  renameTargetType : option string;
  storage : Storage;
  alerts : list string
}.

Definition set_topics (l : list Node) (app : App) : App :=
  mkApp l (currentTopicId app) (currentSubtopicId app) (renameTargetId app)
    (renameTargetType app) (storage app) (alerts app).
Definition set_currentTopicId (i : option JsId) (app : App) : App :=
  mkApp (topics app) i (currentSubtopicId app) (renameTargetId app)
    (renameTargetType app) (storage app) (alerts app).
Definition set_storage (st : Storage) (app : App) : App :=
  mkApp (topics app) (currentTopicId app) (currentSubtopicId app)
    (renameTargetId app) (renameTargetType app) st (alerts app).
Definition alert (message : string) (app : App) : App :=
  mkApp (topics app) (currentTopicId app) (currentSubtopicId app)
    (renameTargetId app) (renameTargetType app) (storage app)
    (message :: alerts app).

(** [showContextMenu] stores the id read off the clicked element and the
    kind of element. *)
Definition set_renameTarget (i : JsId) (targetType : string) (app : App) : App :=
  mkApp (topics app) (currentTopicId app) (currentSubtopicId app) (Some i)
    (Some targetType) (storage app) (alerts app).

(** [resetMainContent()] *)
Definition resetMainContent (app : App) : App :=
  mkApp (topics app) None None (renameTargetId app) (renameTargetType app)
    (storage app) (alerts app).

(** [closeRenameModal()] *)
Definition closeRenameModal (app : App) : App :=
  mkApp (topics app) (currentTopicId app) (currentSubtopicId app) None None
    (storage app) (alerts app).

(** [current === i] where [current] may be [null]. *)
Definition current_is (current : option JsId) (i : JsId) : bool :=
  match current with
  | Some c => id_eqb c i
  | None => false
  end.

Definition set_name (newName : string) (now : string) (a : Attrs) : Attrs :=
  mkAttrs (id a) newName (icon a) (description a) (folderType a) (expanded a)
    (createdDate a) (uploadDate a) (Some now).

Definition flip_expanded (a : Attrs) : Attrs :=
  mkAttrs (id a) (name a) (icon a) (description a) (folderType a)
    (negb (expanded a)) (createdDate a) (uploadDate a) (lastModified a).

(** [target.name = newName; target.lastModified = now] *)
Definition rename_node (newName now : string) (target : Node) : Node :=
  mkNode (set_name newName now (attrs target)) (subtopics target).

(** [topic.expanded = !topic.expanded] *)
Definition toggle_node (topic : Node) : Node :=
  mkNode (flip_expanded (attrs topic)) (subtopics topic).

(** [if (!parent.subtopics) parent.subtopics = []; parent.subtopics.push(child)] *)
Definition push_subtopic (child : Node) (parent : Node) : Node :=
  mkNode (attrs parent) (Some (default [] (subtopics parent) ++ [child])).

(** [topic.subtopics && topic.subtopics.length > 0] *)
Definition has_subtopics (topic : Node) : bool :=
  match subtopics topic with
  | Some (_ :: _) => true
  | _ => false
  end.

Inductive TopicsField :=
| TopicsMissing
| TopicsNotArray
| TopicsArray (l : list Node).

(** The parsed [.asturi] file.  [a_topics] is [TopicsMissing] when the
    property is absent or falsy, [TopicsNotArray] when it is some other
    value that is not an array; [a_pdfs] is [None] when absent or falsy. *)
Record Archive := mkArchive {
  a_version : string;
  a_timestamp : string;
  a_topics : TopicsField;
  a_pdfs : option JsObject
}.

(** What [performImport] gets from the file input: nothing selected, a
    file that cannot be read or parsed (with the error's message), or a
    parsed object. *)
Inductive ImportInput :=
| NoFileSelected
| Unreadable (message : string)
| Parsed (a : Archive).

(** How [addSubtopic] ends. *)
Inductive AddSubtopic :=
| ParentMissing
| ParentIsPdfFolder
| DialogOpened.

(** ** The default forest *)

Definition default_topic (i : Z) (name icon : string) (expanded : bool)
  (folderType now : string) (subtopics : list Node) : Node :=
  mkNode (mkAttrs (IdNum i) name (Some icon) None (Some folderType) expanded
            (Some now) None None) (Some subtopics).

Definition default_group (i : Z) (name description folderType : string)
  (expanded : bool) (now : string) (subtopics : list Node) : Node :=
  mkNode (mkAttrs (IdNum i) name None (Some description) (Some folderType)
            expanded (Some now) None None) (Some subtopics).

Definition default_item (i : Z) (name description folderType : string)
  (expanded : bool) (now : string) : Node :=
  mkNode (mkAttrs (IdNum i) name None (Some description) (Some folderType)
            expanded (Some now) None None) None.

(** [loadDefaultData()] *)
Definition loadDefaultData (now : string) : list Node :=
  [default_topic 1 "STANDARD FORMAT FOR FINANCE" "fas fa-folder" true "folder" now
      [default_item 11 "PROFIT & LOSS STATEMENT"
          "Comprehensive profit and loss financial statement"
          "pdf-folder" false now;
        default_item 12 "BALANCE SHEET"
          "Complete balance sheet report"
          "pdf-folder" false now];
    default_topic 2 "REPORT FOR REVENUE" "fas fa-folder" false "folder" now
      [default_item 21 "Summary of Property Rental"
          "Comprehensive property rental revenue summary"
          "pdf-folder" false now];
    default_topic 3 "REPORT FOR INVOICE & PAYMENT RECEIVED" "fas fa-folder" false "folder" now
      [default_item 31 "Rental Lot 74-A, Gebeng"
          "Invoice and payment tracking for Lot 74-A, Gebeng"
          "pdf-folder" false now;
        default_item 32 "Rental Lot 3/129, Gebeng"
          "Invoice and payment tracking for Lot 3/129, Gebeng"
          "pdf-folder" false now;
        default_item 33 "Rental Land, Gebeng"
          "Invoice and payment tracking for Land, Gebeng"
          "pdf-folder" false now;
        default_item 34 "Rental Bangi"
          "Invoice and payment tracking for Bangi property"
          "pdf-folder" false now;
        default_item 35 "Rental Jalan Kuching - Blok 3"
          "Invoice and payment tracking for Jalan Kuching Blok 3"
          "pdf-folder" false now;
        default_item 36 "Rental Jalan Kuching - Blok 3A"
          "Invoice and payment tracking for Jalan Kuching Blok 3A"
          "pdf-folder" false now;
        default_item 37 "Rental Short Term Rental"
          "Invoice and payment tracking for short term rentals"
          "pdf-folder" false now;
        default_item 38 "Rental of Equipment"
          "Invoice and payment tracking for equipment rental"
          "pdf-folder" false now;
        default_item 39 "Rental Others"
          "Invoice and payment tracking for other rental services"
          "pdf-folder" false now];
    default_topic 4 "REPORT FOR COST OF SALES" "fas fa-folder" false "folder" now
      [default_item 41 "Rental Lot 74-A, Gebeng"
          "Cost of sales for Lot 74-A, Gebeng rental"
          "pdf-folder" false now;
        default_item 42 "Rental Lot 3/129, Gebeng"
          "Cost of sales for Lot 3/129, Gebeng rental"
          "pdf-folder" false now;
        default_item 43 "Rental Land, Gebeng"
          "Cost of sales for Land, Gebeng rental"
          "pdf-folder" false now;
        default_item 44 "Rental Bangi"
          "Cost of sales for Bangi rental"
          "pdf-folder" false now;
        default_item 45 "Rental Jalan Kuching - Blok 3"
          "Cost of sales for Jalan Kuching Blok 3 rental"
          "pdf-folder" false now;
        default_item 46 "Rental Jalan Kuching - Blok 3A"
          "Cost of sales for Jalan Kuching Blok 3A rental"
          "pdf-folder" false now;
        default_item 47 "Rental Short Term Rental"
          "Cost of sales for short term rentals"
          "pdf-folder" false now;
        default_item 48 "Rental of Equipment"
          "Cost of sales for equipment rental"
          "pdf-folder" false now;
        default_item 49 "Rental Others"
          "Cost of sales for other rental services"
          "pdf-folder" false now];
    default_topic 5 "REPORT FOR EXPENSES" "fas fa-folder" false "folder" now
      [default_group 51 "Salary & Expenses"
          "Salary and expense management folder"
          "folder" false now
          [default_item 511 "Summary Salary & Salary Expenses"
              "Summary of all salary and salary-related expenses"
              "pdf-folder" false now;
            default_item 512 "Details - Salary"
              "Detailed salary breakdown"
              "pdf-folder" false now;
            default_item 513 "Details - Salary Expenses"
              "Detailed salary-related expenses"
              "pdf-folder" false now];
        default_group 52 "Utilities & Maintenance"
          "Utilities and maintenance expenses folder"
          "folder" false now
          [default_item 521 "Details - Utilities"
              "Detailed utilities expenses breakdown"
              "pdf-folder" false now;
            default_item 522 "Details - Maintenance and Purchase Order"
              "Detailed maintenance and purchase order expenses"
              "pdf-folder" false now;
            default_item 523 "Maintenance and Purchase Order (Buildings)"
              "Building maintenance: Lot 74-A Office + Factory 1-13, Lot 3/129, Lot 55/129 (Kilang 8), Boulevard Business Park Jalan Kuching, Plaza Paragon Point Bangi"
              "pdf-folder" false now];
        default_group 53 "Taxes & Legal"
          "Tax and legal expenses folder"
          "folder" false now
          [default_item 531 "Details - Cukai Tanah & Cukai Taksiran"
              "Land tax and assessment tax details"
              "pdf-folder" false now;
            default_item 532 "Cukai Tanah (Land Tax)"
              "Land tax for: Lot 74-A Office + Factory 1-13, Lot 3/129, Lot 55/129 (Kilang 8)"
              "pdf-folder" false now;
            default_item 533 "Cukai Taksiran (Assessment Tax)"
              "Assessment tax for: Boulevard Business Park Jalan Kuching, Plaza Paragon Point Bangi, Lot 55/129 (Kilang 8)"
              "pdf-folder" false now;
            default_item 534 "Details - Legal & Consultancy"
              "Legal and consultancy fee expenses"
              "pdf-folder" false now]];
    default_topic 6 "FORMAT ADDITIONAL FORMS" "fas fa-folder" false "folder" now
      [default_group 61 "Payment Forms"
          "Payment related forms and templates"
          "folder" false now
          [default_item 611 "PROPOSED PAYMENT FOR APPROVAL - GENERAL"
              "General payment approval form"
              "pdf-folder" false now;
            default_item 612 "PROPOSED PAYMENT FOR APPROVAL - SALARY"
              "Salary payment approval form"
              "pdf-folder" false now;
            default_item 613 "PROPOSED PAYMENT FOR APPROVAL - UTILITY"
              "Utility payment approval form"
              "pdf-folder" false now;
            default_item 614 "PAYMENT REQUEST"
              "Payment request form template"
              "pdf-folder" false now];
        default_group 62 "Invoice & Receipt Forms"
          "Invoice and receipt templates"
          "folder" false now
          [default_item 621 "INVOICE"
              "Invoice template form"
              "pdf-folder" false now;
            default_item 622 "OFFICIAL RECEIPT"
              "Official receipt template form"
              "pdf-folder" false now;
            default_item 623 "SUMMARY INVOICE LISTING"
              "Summary of all invoice listings"
              "pdf-folder" false now;
            default_item 624 "SUMMARY OFFICIAL RECEIPT"
              "Summary of all official receipts"
              "pdf-folder" false now]];
    default_topic 7 "ASSETS" "fas fa-folder" false "folder" now
      [default_item 71 "LIST OF ASSETS"
          "Complete list of 19 company assets"
          "pdf-folder" false now;
        default_item 72 "ASSET LISTING"
          "Detailed asset listing (19 items - to be filled by Asturi staff)"
          "pdf-folder" false now];
    default_topic 8 "VEHICLE MANAGEMENT" "fas fa-folder" false "folder" now
      [default_group 81 "Vehicle Maintenance & Servicing"
          "Vehicle maintenance and servicing records"
          "folder" false now
          [default_item 811 "ASTURI RESOURCES - Maintenance & Servicing"
              "Vehicle maintenance and servicing expenses for Asturi Resources"
              "pdf-folder" false now;
            default_item 812 "ASTURI TRUCK & CRANE - Maintenance & Servicing"
              "Vehicle maintenance and servicing expenses for Asturi Truck & Crane"
              "pdf-folder" false now;
            default_item 813 "PERSONAL VEHICLES - Maintenance & Servicing"
              "Personal vehicle maintenance and servicing expenses"
              "pdf-folder" false now];
        default_group 82 "Vehicle Road Tax & Insurance"
          "Vehicle road tax and insurance records"
          "folder" false now
          [default_item 821 "ASTURI RESOURCES - Road Tax & Insurance"
              "Vehicle road tax and insurance expenses for Asturi Resources"
              "pdf-folder" false now;
            default_item 822 "ASTURI TRUCK & CRANE - Road Tax & Insurance"
              "Vehicle road tax and insurance expenses for Asturi Truck & Crane"
              "pdf-folder" false now;
            default_item 823 "PERSONAL VEHICLES - Road Tax & Insurance"
              "Personal vehicle road tax and insurance expenses"
              "pdf-folder" false now]]].

(** ** The handlers

    [toUpperCase] and [JSON_stringify] are the host's
    [String.prototype.toUpperCase] and [JSON.stringify] on the topics
    array. *)

Section Handlers.

Variable toUpperCase : string -> string.
Variable JSON_stringify : list Node -> string.

(** [saveData()].  The in-memory entry refers to the live array; every
    handler saves right after it has changed the tree, so the entry is kept
    here as the forest at the time of the save. *)
Definition saveData (now : string) (be : Backend) (l : list Node) (st : Storage)
  : Storage :=
  let toMemory :=
    set_inMemoryStorage
      (<[STORAGE_KEY := MemTopics (mkSnapshot l now "3.0")]> (inMemoryStorage st))
      st in
  if uses_IndexedDB st then
    match be with
    | Succeeds =>
        set_idb_topics
          (<[STORAGE_KEY := mkSnapshot l now "3.0"]> (idb_topics st)) st
    | Throws | RequestFails _ => toMemory
    end
  else if uses_localStorage st then
    match be with
    | Throws => toMemory
    | Succeeds | RequestFails _ =>
        set_localStorage
          (<[STORAGE_KEY := JSON_stringify l]> (localStorage st)) st
    end
  else toMemory.

(** The tail shared by the tree handlers: [topics] has been mutated, then
    [await saveData()]. *)
Definition commit (now : string) (be : Backend) (l : list Node) (app : App) : App :=
  set_storage (saveData now be l (storage app)) (set_topics l app).

(** [createTopic()]; [newId] is what [generateId()] returns. *)
Definition createTopic (name folderType : string) (newId : JsId)
  (now : string) (be : Backend) (app : App) : App :=
  if str_truthy name then
    let newTopic :=
      mkNode
        (mkAttrs newId (toUpperCase name)
           (Some (if String.eqb folderType "folder" then "fas fa-folder"
                  else "fas fa-file-pdf"))
           None (Some folderType) false (Some now) None None)
        (if String.eqb folderType "folder" then Some [] else None) in
    commit now be (topics app ++ [newTopic]) app
  else app.

(** [addSubtopic(topicId)] *)
Definition addSubtopic (topicId : JsId) (app : App) : AddSubtopic * App :=
  match findTopicById topicId (topics app) with
  | None => (ParentMissing, app)
  | Some parentTopic =>
      if is_pdf_folder parentTopic then
        (ParentIsPdfFolder,
         alert "PDF folders cannot contain sub-items. Only regular folders can contain other items." app)
      else (DialogOpened, set_currentTopicId (Some topicId) app)
  end.

(** [createSubtopic()] *)
Definition createSubtopic (name description folderType : string) (newId : JsId)
  (now : string) (be : Backend) (app : App) : App :=
  match currentTopicId app with
  | Some parentId =>
      if str_truthy name && id_truthy parentId then
        match findTopicById parentId (topics app) with
        | Some _ =>
            let newSubtopic :=
              mkNode
                (mkAttrs newId name None
                   (Some (if str_truthy description then description
                          else "No description provided"))
                   (Some folderType) false (Some now) None None)
                (if String.eqb folderType "folder" then Some [] else None) in
            commit now be
              (update_found parentId (push_subtopic newSubtopic) (topics app))
              app
        | None => app
        end
      else app
  | None => app
  end.

(** The "+" button followed by the dialog's confirm button.  The dialog
    is modal: no other handler runs between the two. *)
Definition insertChild (parentId : JsId) (name description folderType : string)
  (newId : JsId) (now : string) (be : Backend) (app : App) : AddSubtopic * App :=
  match addSubtopic parentId app with
  | (DialogOpened, app') =>
      (DialogOpened, createSubtopic name description folderType newId now be app')
  | refused => refused
  end.

(** [toggleTopic(topicId)]; [toggleSubtopic] has the same body. *)
Definition toggleTopic (topicId : JsId) (now : string) (be : Backend) (app : App)
  : App :=
  match findTopicById topicId (topics app) with
  | Some topic =>
      if has_subtopics topic then
        commit now be (update_found topicId toggle_node (topics app)) app
      else app
  | None => app
  end.

Definition toggleSubtopic := toggleTopic.

(** [confirmRename()]; [newName] is the trimmed input. *)
Definition confirmRename (newName : string) (now : string) (be : Backend)
  (app : App) : App :=
  closeRenameModal
    match renameTargetId app, renameTargetType app with
    | Some targetId, Some targetType =>
        if str_truthy newName && id_truthy targetId && str_truthy targetType then
          match findTopicById targetId (topics app) with
          | Some _ =>
              commit now be
                (update_found targetId (rename_node newName now) (topics app))
                app
          | None => app
          end
        else app
    | _, _ => app
    end.

(** [deleteTopic(topicId)]; [confirmed] is the answer to [confirm(...)]. *)
Definition deleteTopic (topicId : JsId) (confirmed : bool) (now : string)
  (be : Backend) (app : App) : App :=
  match findTopicById topicId (topics app) with
  | None => app
  | Some _ =>
      if confirmed then
        let l := default (topics app) (removeFromArray topicId (topics app)) in
        let app' :=
          if current_is (currentTopicId app) topicId
             || current_is (currentSubtopicId app) topicId
          then resetMainContent app else app in
        commit now be l app'
      else app
  end.

(** [deleteSubtopic(subtopicId, parentId)] *)
Definition deleteSubtopic (subtopicId parentId : JsId) (confirmed : bool)
  (now : string) (be : Backend) (app : App) : App :=
  match findTopicById subtopicId (topics app) with
  | None => app
  | Some _ =>
      if confirmed then
        let l :=
          match findTopicById parentId (topics app) with
          | Some (mkNode _ (Some items)) =>
              match removeFromArray subtopicId items with
              | Some items' =>
                  update_found parentId
                    (fun parentTopic => mkNode (attrs parentTopic) (Some items'))
                    (topics app)
              | None => topics app
              end
          | _ => remove_in_topics subtopicId (topics app)
          end in
        let app' :=
          if current_is (currentSubtopicId app) subtopicId
          then resetMainContent app else app in
        commit now be l app'
      else app
  end.

(** The loop of [exportAllData] over [getAllTopicsFlat()]; [gets n] is
    what the backend does at the [n]-th read.  A rejected read leaves the
    loop with the error. *)
Fixpoint export_pdfs (gets : nat -> Backend) (st : Storage) (flat : list Node)
  (n : nat) (pdfs : JsObject) : Outcome JsObject :=
  match flat with
  | [] => Returned pdfs
  | topic :: rest =>
      if is_pdf_folder topic then
        match getFromStorage (gets n) (pdf_key (node_id topic)) st with
        | Rejected message => Rejected message
        | Returned pdfData =>
            let pdfs1 :=
              if js_truthy pdfData
              then obj_set (id_toString (node_id topic)) pdfData pdfs
              else pdfs in
            match getFromStorage (gets (S n)) (excel_key (node_id topic)) st with
            | Rejected message => Rejected message
            | Returned excelData =>
                export_pdfs gets st rest (S (S n))
                  (if js_truthy excelData
                   then obj_set (excel_key (node_id topic)) excelData pdfs1
                   else pdfs1)
            end
        end
      else export_pdfs gets st rest n pdfs
  end.

(** [exportAllData()]: the object written to the downloaded file, if any. *)
Definition exportAllData (now : string) (gets : nat -> Backend) (app : App)
  : option Archive * App :=
  match export_pdfs gets (storage app) (getAllTopicsFlat (topics app)) 0 [] with
  | Returned pdfs =>
      (Some (mkArchive "3.0" now (TopicsArray (topics app)) (Some pdfs)),
       alert "✅ Data exported successfully! Save the .asturi file to preserve your data." app)
  | Rejected message =>
      (None, alert ("❌ Error exporting data: " +:+ message) app)
  end.

(** The blob loop of [performImport]; [puts n] is what the backend does at
    the [n]-th write. *)
Fixpoint import_pdfs (now : string) (puts : nat -> Backend) (n : nat)
  (entries : list (string * JsValue)) (st : Storage) : Storage :=
  match entries with
  | [] => st
  | (key, value) :: rest =>
      import_pdfs now puts (S n) rest
        (saveToStorage now (puts n) (import_key key) value st)
  end.

(** [performImport()] *)
Definition performImport (input : ImportInput) (now : string) (be : Backend)
  (puts : nat -> Backend) (app : App) : App :=
  match input with
  | NoFileSelected => alert "Please select a file to import." app
  | Unreadable message => alert ("❌ Error importing data: " +:+ message) app
  | Parsed importData =>
      match a_topics importData with
      | TopicsArray l =>
          let st := saveData now be l (storage app) in
          let st' :=
            match a_pdfs importData with
            | Some pdfs => import_pdfs now puts 0 (Object_entries pdfs) st
            | None => st
            end in
          alert "✅ Data imported successfully!"
            (resetMainContent (set_storage st' (set_topics l app)))
      | TopicsMissing | TopicsNotArray =>
          alert "❌ Error importing data: Invalid data format" app
      end
  end.

(** [loadData()] when it finds no snapshot: the defaults are loaded and
    saved. *)
Definition loadData_defaults (now : string) (be : Backend) (st : Storage) : App :=
  mkApp (loadDefaultData now) None None None None
    (saveData now be (loadDefaultData now) st) [].


End Handlers.

(** ** Sample data for the closed examples *)

(** Stands in for the host's [JSON.stringify] in closed examples; none of
    them depends on what it returns. *)
Definition sample_stringify (l : list Node) : string := "<json>".

Definition sample_now : string := "2024-01-01T00:00:00.000Z".

(** A first start with nothing stored, on each tier. *)
Definition empty_storage (tier : StorageType) : Storage :=
  mkStorage (match tier with IndexedDB => true | _ => false end) tier
    empty empty empty empty.

Definition sample_app (l : list Node) (tier : StorageType) : App :=
  mkApp l None None None None (empty_storage tier) [].

(** A folder holding one PDF folder. *)
Definition sample_pdf_folder (i : JsId) (name : string) : Node :=
  mkNode (mkAttrs i name None (Some "No description provided")
            (Some "pdf-folder") false (Some sample_now) None None) None.

Definition sample_folder (i : JsId) (name : string) (subs : list Node) : Node :=
  mkNode (mkAttrs i name (Some "fas fa-folder") None (Some "folder") false
            (Some sample_now) None None) (Some subs).

Definition sample_forest : list Node :=
  [sample_folder (IdNum 1) "A" [sample_pdf_folder (IdNum 2) "B"]].

(** ** Properties of forests used in the statements *)



(** [topic.id === i] *)
Definition has_id (i : JsId) (n : Node) : bool := id_eqb (node_id n) i.

(** Ids are unique tree-wide. *)
Definition unique_ids (l : list Node) : Prop :=
  NoDup (map node_id (getAllTopicsFlat l)).

(** The same tree with every node's attributes passed through [g]. *)
Fixpoint map_attrs (g : Attrs -> Attrs) (n : Node) : Node :=
  match n with
  | mkNode a subs => mkNode (g a) (option_map (map (map_attrs g)) subs)
  end.

(** Blanks the two properties a rename writes. *)
Definition without_name (a : Attrs) : Attrs :=
  mkAttrs (id a) "" (icon a) (description a) (folderType a) (expanded a)
    (createdDate a) (uploadDate a) None.

(** [key in o] *)
Definition has_key (key : string) (o : JsObject) : Prop :=
  exists v, In (key, v) o.

(** Every property of the exported [pdfs] object holds what the store
    has under the key the import will write it to. *)
Definition faithful (st : Storage) (o : JsObject) : Prop :=
  forall k v, In (k, v) o -> getFromStorage Succeeds (import_key k) st = Returned v.

(** A key that [exportAllData] can emit bare and [performImport] will
    read back as the primary payload of the same node. *)
Definition bare_key_ok (key : string) : bool :=
  negb (String.prefix "pdf_" key) && negb (String.prefix "excel_" key)
  && negb (String.eqb key "__proto__").


(** ** The parent lookup *)

(** [findParentTopic(subtopicId, topicsList)].  For each topic with a
    [subtopics] array the inner loop looks at the direct children; at a
    child that itself has a [subtopics] array it searches the whole array
    of children again, one level down. *)
Fixpoint parent_in_node (i : JsId) (topic : Node) : option Node :=
  match topic with
  | mkNode _ (Some l) =>
      (fix inner (children : list Node) : option Node :=
         match children with
         | [] => None
         | subtopic :: more =>
             if id_eqb (node_id subtopic) i then Some topic
             else
               match subtopics subtopic with
               | Some _ =>
                   match
                     (fix outer (topicsList : list Node) : option Node :=
                        match topicsList with
                        | [] => None
                        | t :: rest =>
                            match parent_in_node i t with
                            | Some found => Some found
                            | None => outer rest
                            end
                        end) l
                   with
                   | Some found => Some found
                   | None => inner more
                   end
               | None => inner more
               end
         end) l
  | mkNode _ None => None
  end.

Definition findParentTopic (i : JsId) : list Node -> option Node :=
  fix outer (topicsList : list Node) : option Node :=
    match topicsList with
    | [] => None
    | t :: rest =>
        match parent_in_node i t with
        | Some found => Some found
        | None => outer rest
        end
    end.

(** The inner loop of [findParentTopic] over the children of [topic] that
    are still to be visited; [below] is what the search one level down
    returns. *)
Fixpoint parent_scan (i : JsId) (topic : Node) (below : option Node)
  (children : list Node) : option Node :=
  match children with
  | [] => None
  | subtopic :: more =>
      if id_eqb (node_id subtopic) i then Some topic
      else
        match subtopics subtopic with
        | Some _ =>
            match below with
            | Some found => Some found
            | None => parent_scan i topic below more
            end
        | None => parent_scan i topic below more
        end
  end.

(** The direct children of a node, and every node of a forest that is
    not at root level. *)
Definition children (n : Node) : list Node := default [] (subtopics n).

Fixpoint nested (l : list Node) : list Node :=
  match l with
  | [] => []
  | t :: rest => getAllTopicsFlat (children t) ++ nested rest
  end.

(** The ids of a forest in pre-order. *)
Definition ids (l : list Node) : list JsId := map node_id (getAllTopicsFlat l).

(** ** Selecting, uploading, converting *)

(** [storageType] as the string it is. *)
Definition storageType_name (t : StorageType) : string :=
  match t with
  | IndexedDB => "IndexedDB"
  | LocalStorage => "localStorage"
  | MemoryOnly => "memory"
  end.

(** [`${currentSubtopicId}`] *)
Definition current_toString (current : option JsId) : string :=
  match current with
  | Some i => id_toString i
  | None => "null"
  end.

(** [!currentSubtopicId] is false *)
Definition current_truthy (current : option JsId) : bool :=
  match current with
  | Some i => id_truthy i
  | None => false
  end.

Definition double_quote : string := String "034"%char "".
Definition line_feed : string := String "010"%char "".

(** [currentSubtopicId = subtopicId; currentTopicId = topicId] *)
Definition set_selection (subtopicId topicId : JsId) (app : App) : App :=
  mkApp (topics app) (Some topicId) (Some subtopicId) (renameTargetId app)
    (renameTargetType app) (storage app) (alerts app).

(** What [selectSubtopic] puts in the main panel. *)
Inductive Shown :=
| NotSelectable
| ShowsUploadSection
| ShowsSavedPdf (savedPDF : JsValue).

(** [selectSubtopic(subtopicId, topicId)].  The selection is made before
    the stored PDF is awaited, so it stands when that read rejects. *)
Definition selectSubtopic (subtopicId topicId : JsId) (be : Backend) (app : App)
  : Outcome Shown * App :=
  match findTopicById subtopicId (topics app) with
  | Some subtopic =>
      if is_pdf_folder subtopic then
        match getFromStorage be (pdf_key subtopicId) (storage app) with
        | Returned savedPDF =>
            (Returned (if js_truthy savedPDF then ShowsSavedPdf savedPDF
                       else ShowsUploadSection),
             set_selection subtopicId topicId app)
        | Rejected message =>
            (Rejected message, set_selection subtopicId topicId app)
        end
      else (Returned NotSelectable, app)
  | None => (Returned NotSelectable, app)
  end.

(** How decoding a stored PDF ends: [atob] throws, PDF.js rejects the
    bytes, or the document loads. *)
Inductive Decoding :=
| DecodeThrows
| DocumentRejected
| DocumentLoaded.

(** [loadSavedPDF(savedPDF)]: a PDF that cannot be shown is cleared by
    writing [null] under the key of the current selection; only the
    synchronous [catch] checks that there is a selection. *)
Definition loadSavedPDF (decoding : Decoding) (now : string) (be : Backend)
  (app : App) : App :=
  match decoding with
  | DocumentLoaded => app
  | DocumentRejected =>
      set_storage
        (saveToStorage now be
           ("pdf_" +:+ current_toString (currentSubtopicId app)) JNull
           (storage app)) app
  | DecodeThrows =>
      if current_truthy (currentSubtopicId app) then
        set_storage
          (saveToStorage now be
             ("pdf_" +:+ current_toString (currentSubtopicId app)) JNull
             (storage app)) app
      else app
  end.

(** What the file input hands to [handlePDFUpload]: no file or not a PDF;
    a PDF that the reader cannot read; one that PDF.js or [btoa] fail on
    (with the error's message); or one that was parsed, with its base64
    text and its size as [formatBytes] prints it. *)
Inductive PickedFile :=
| NotAPdf
| UnreadableFile
| BrokenPdf (message : string)
| ParsedPdf (base64String fileSize : string).

(** [subtopic.uploadDate = now; subtopic.lastModified = now] *)
Definition mark_uploaded (now : string) (subtopic : Node) : Node :=
  mkNode
    (mkAttrs (id (attrs subtopic)) (name (attrs subtopic)) (icon (attrs subtopic))
       (description (attrs subtopic)) (folderType (attrs subtopic))
       (expanded (attrs subtopic)) (createdDate (attrs subtopic)) (Some now)
       (Some now))
    (subtopics subtopic).

Definition upload_message (subtopicName : string) (t : StorageType)
  (fileSize : string) : string :=
  "✅ PDF uploaded successfully to " +:+ double_quote +:+ subtopicName
  +:+ double_quote +:+ "!" +:+ line_feed +:+ line_feed
  +:+ "💾 Storage: " +:+ storageType_name t +:+ line_feed
  +:+ "📊 File size: " +:+ fileSize +:+ line_feed
  +:+ "🔄 Auto-saved. Use Export Data to preserve between sessions.".

Section Viewer.

Variable JSON_stringify : list Node -> string.

(** [handlePDFUpload(event)] with [handlePDFFile(file)]; [be] is what the
    backend does at the blob write, [be'] at the save of the tree. *)
Definition handlePDFUpload (picked : PickedFile) (now : string)
  (be be' : Backend) (app : App) : App :=
  match picked with
  | NotAPdf => alert "Please select a valid PDF file." app
  | _ =>
      if current_truthy (currentSubtopicId app) then
        match picked with
        | NotAPdf => app
        | UnreadableFile => alert "Error reading PDF file." app
        | BrokenPdf message => alert ("Error loading PDF file: " +:+ message) app
        | ParsedPdf base64String fileSize =>
            let key := "pdf_" +:+ current_toString (currentSubtopicId app) in
            let st := saveToStorage now be key (JStr base64String) (storage app) in
            match currentSubtopicId app with
            | Some current =>
                match findTopicById current (topics app) with
                | Some subtopic =>
                    alert
                      (upload_message (name (attrs subtopic))
                         (storageType (storage app)) fileSize)
                      (commit JSON_stringify now be'
                         (update_found current (mark_uploaded now) (topics app))
                         (set_storage st app))
                | None =>
                    alert
                      (upload_message "PDF" (storageType (storage app)) fileSize)
                      (set_storage st app)
                end
            | None => app
            end
        end
      else alert "Please select a PDF folder first." app
  end.

(** [convertToExcel()]; [pdfLoaded] is [pdfDoc] being set, [conversion]
    the base64 text of the workbook or the error thrown while building
    it. *)
Definition convertToExcel (pdfLoaded : bool) (conversion : Outcome string)
  (now : string) (be : Backend) (app : App) : App :=
  if current_truthy (currentSubtopicId app) then
    if pdfLoaded then
      match conversion with
      | Returned excelBase64 =>
          alert
            ("PDF converted to Excel successfully! Click " +:+ double_quote
             +:+ "Download Excel" +:+ double_quote +:+ " to save the file.")
            (set_storage
               (saveToStorage now be
                  ("excel_" +:+ current_toString (currentSubtopicId app))
                  (JStr excelBase64) (storage app)) app)
      | Rejected message =>
          alert ("Error converting PDF to Excel: " +:+ message) app
      end
    else alert "Please upload a PDF first." app
  else alert "Please select a PDF folder first." app.

End Viewer.

(** What a download handler hands to the browser. *)
Inductive Download :=
| NothingDownloaded
| Downloads (base64 : JsValue).

(** [downloadAsExcel()]; [decodeError] is the message of the error that
    [atob] throws on the stored text, if it throws. *)
Definition downloadAsExcel (be : Backend) (decodeError : option string)
  (app : App) : Outcome Download * App :=
  if current_truthy (currentSubtopicId app) then
    match getFromStorage be ("excel_" +:+ current_toString (currentSubtopicId app))
            (storage app) with
    | Rejected message => (Rejected message, app)
    | Returned excelBase64 =>
        if js_truthy excelBase64 then
          match decodeError with
          | Some message =>
              (Returned NothingDownloaded,
               alert ("Error downloading Excel file: " +:+ message) app)
          | None => (Returned (Downloads excelBase64), app)
          end
        else
          (Returned NothingDownloaded,
           alert "No Excel data found. Please convert the PDF first." app)
    end
  else (Returned NothingDownloaded, alert "Please select a PDF folder first." app).

(** [exportToPDF()] *)
Definition exportToPDF (be : Backend) (decodeError : option string)
  (app : App) : Outcome Download * App :=
  if current_truthy (currentSubtopicId app) then
    match getFromStorage be ("pdf_" +:+ current_toString (currentSubtopicId app))
            (storage app) with
    | Rejected message => (Rejected message, app)
    | Returned savedPDF =>
        if js_truthy savedPDF then
          match decodeError with
          | Some message =>
              (Returned NothingDownloaded,
               alert ("Error exporting PDF: " +:+ message) app)
          | None => (Returned (Downloads savedPDF), app)
          end
        else
          (Returned NothingDownloaded, alert "No PDF found for this report." app)
    end
  else (Returned NothingDownloaded, alert "Please select a PDF folder first." app).

(** ** Paging *)

(** [pageNum] and [pageCount]. *)
Record Pager := mkPager {
  pageNum : Z;
  pageCount : Z
}.

(** [prevPage()] *)
Definition prevPage (v : Pager) : Pager :=
  if (pageNum v <=? 1)%Z then v else mkPager (pageNum v - 1) (pageCount v).

(** [nextPage()] *)
Definition nextPage (v : Pager) : Pager :=
  if (pageNum v >=? pageCount v)%Z then v
  else mkPager (pageNum v + 1) (pageCount v).

(** What a document with [numPages] pages sets when it has loaded. *)
Definition document_loaded (numPages : Z) : Pager := mkPager 1 numPages.

Inductive PageButton := Prev | Next.

Definition press (b : PageButton) (v : Pager) : Pager :=
  match b with
  | Prev => prevPage v
  | Next => nextPage v
  end.

(** ** A whole session *)

Global Instance JsId_eq_dec : EqDecision JsId.
Proof. solve_decision. Defined.

Section Session.

Variable toUpperCase : string -> string.
Variable JSON_stringify : list Node -> string.

(** The states of a session that started on the storage [st0] with
    nothing stored: every handler of the tree, the import, the export and
    the viewer.  [fresh] says which ids [generateId] may return in a given
    forest and [allowed] which forests an imported archive may carry. *)
Inductive session (fresh : list Node -> JsId -> Prop)
  (allowed : list Node -> Prop) (st0 : Storage) : App -> Prop :=
| session_start now be :
    session fresh allowed st0 (loadData_defaults JSON_stringify now be st0)
| session_createTopic title folderType newId now be app :
    session fresh allowed st0 app ->
    fresh (topics app) newId ->
    session fresh allowed st0
      (createTopic toUpperCase JSON_stringify title folderType newId now be app)
| session_insertChild parentId title descr folderType newId now be app :
    session fresh allowed st0 app ->
    fresh (topics app) newId ->
    session fresh allowed st0
      (snd (insertChild JSON_stringify parentId title descr folderType newId
              now be app))
| session_rename i targetType newName now be app :
    session fresh allowed st0 app ->
    session fresh allowed st0
      (confirmRename JSON_stringify newName now be
         (set_renameTarget i targetType app))
| session_toggle topicId now be app :
    session fresh allowed st0 app ->
    session fresh allowed st0 (toggleTopic JSON_stringify topicId now be app)
| session_deleteTopic topicId confirmed now be app :
    session fresh allowed st0 app ->
    session fresh allowed st0
      (deleteTopic JSON_stringify topicId confirmed now be app)
| session_deleteSubtopic subtopicId parentId confirmed now be app :
    session fresh allowed st0 app ->
    session fresh allowed st0
      (deleteSubtopic JSON_stringify subtopicId parentId confirmed now be app)
| session_import input now be puts app :
    session fresh allowed st0 app ->
    (forall a l, input = Parsed a -> a_topics a = TopicsArray l -> allowed l) ->
    session fresh allowed st0
      (performImport JSON_stringify input now be puts app)
| session_export now gets app :
    session fresh allowed st0 app ->
    session fresh allowed st0 (snd (exportAllData now gets app))
| session_select subtopicId topicId be app :
    session fresh allowed st0 app ->
    session fresh allowed st0 (snd (selectSubtopic subtopicId topicId be app))
| session_loadSavedPDF decoding now be app :
    session fresh allowed st0 app ->
    session fresh allowed st0 (loadSavedPDF decoding now be app)
| session_upload picked now be be' app :
    session fresh allowed st0 app ->
    session fresh allowed st0
      (handlePDFUpload JSON_stringify picked now be be' app)
| session_convert pdfLoaded conversion now be app :
    session fresh allowed st0 app ->
    session fresh allowed st0 (convertToExcel pdfLoaded conversion now be app)
| session_downloadAsExcel be decodeError app :
    session fresh allowed st0 app ->
    session fresh allowed st0 (snd (downloadAsExcel be decodeError app))
| session_exportToPDF be decodeError app :
    session fresh allowed st0 app ->
    session fresh allowed st0 (snd (exportToPDF be decodeError app)).

End Session.

(** ** Loading the tree *)

(** What [JSON.parse] makes of a stored text: it throws, or gives an
    array of nodes, or gives some other value. *)
Inductive ParsedText :=
| ParseThrows
| ParsedTopics (l : list Node)
| ParsedOther.

Section Loading.

Variable JSON_stringify : list Node -> string.
Variable JSON_parse : string -> ParsedText.

(** [loadData()]; [be] is what the backend does at the read, [be'] at the
    save of the defaults.  [None] stands for the states in which [topics]
    has been assigned something that is not an array of nodes. *)
Definition loadData (now : string) (be be' : Backend) (app : App) : option App :=
  let st := storage app in
  let defaults := Some (commit JSON_stringify now be' (loadDefaultData now) app) in
  if uses_IndexedDB st then
    match be with
    | Succeeds =>
        match idb_topics st !! STORAGE_KEY with
        | Some result => Some (set_topics (t_data result) app)
        | None => defaults
        end
    | Throws | RequestFails _ => defaults
    end
  else if uses_localStorage st then
    match be with
    | Throws => defaults
    | Succeeds | RequestFails _ =>
        match localStorage st !! STORAGE_KEY with
        | Some savedData =>
            if str_truthy savedData then
              match JSON_parse savedData with
              | ParsedTopics l => Some (set_topics l app)
              | ParsedOther => None
              | ParseThrows => defaults
              end
            else defaults
        | None => defaults
        end
    end
  else
    match inMemoryStorage st !! STORAGE_KEY with
    | Some (MemTopics item) => Some (set_topics (t_data item) app)
    | Some (MemBlob item) =>
        match b_data item with
        | JTopics l => Some (set_topics l app)
        | JStr data => if str_truthy data then None else defaults
        | JNull => defaults
        end
    | None => defaults
    end.

End Loading.

(** ** Storage statistics *)

(** The fields of the object that [getStorageInfo()] returns which are
    computed from the stores and the tree: [type], [pdfCount],
    [totalSize] and [topicCount].  ([avgSize] is their quotient as a
    float, [lastModified] parses the timestamps, [quota] and [usage] come
    from the browser.) *)
Record StorageInfo := mkInfo {
  info_type : StorageType;
  pdfCount : nat;
  totalSize : nat;
  info_topicCount : nat
}.

(** [key.startsWith('pdf_')] *)
Definition is_pdf_key (key : string) : bool := String.prefix "pdf_" key.

(** [if (data) totalSize += new Blob([data]).size] *)
Definition text_size (data : string) : nat :=
  if str_truthy data then String.length data else 0.

(** [item.size || 0]; the snapshot entry has no [size]. *)
Definition item_size (item : MemItem) : nat :=
  match item with
  | MemBlob r => b_size r
  | MemTopics _ => 0
  end.

(** [getStorageInfo()].  On the IndexedDB tier a failing [getAll] request
    resolves to the empty array and a throwing [db.transaction] lands in
    the [catch]; both leave the counts at zero.  On the other tiers the
    keys are filtered and each key is read back, which is taken here as
    one pass over the entries; the counts do not depend on their order.
    On the localStorage tier [pdfCount] is assigned before the first
    [getItem]: when that call throws, the count stands and [totalSize],
    assigned after the loop, stays zero. *)
Definition getStorageInfo (be : Backend) (app : App) : StorageInfo :=
  let st := storage app in
  let info pdfCount totalSize :=
    mkInfo (storageType st) pdfCount totalSize (topicCount (topics app)) in
  if uses_IndexedDB st then
    match be with
    | Succeeds =>
        let allPDFs := map snd (map_to_list (idb_pdfs st)) in
        info (length allPDFs) (sum_list_with b_size allPDFs)
    | Throws | RequestFails _ => info 0 0
    end
  else if uses_localStorage st then
    let entries :=
      filter (fun kv => is_pdf_key (fst kv)) (map_to_list (localStorage st)) in
    match be with
    | Throws => info (length entries) 0
    | Succeeds | RequestFails _ =>
        info (length entries) (sum_list_with (fun kv => text_size (snd kv)) entries)
    end
  else
    let entries :=
      filter (fun kv => is_pdf_key (fst kv)) (map_to_list (inMemoryStorage st)) in
    info (length entries) (sum_list_with (fun kv => item_size (snd kv)) entries).

(** [st] is on the tier of [st0]: the same [db] and [storageType], and
    the stores of the durable tiers that [st0] does not use are as in
    [st0]. *)
Definition same_tier (st0 st : Storage) : Prop :=
  db st = db st0
  /\ storageType st = storageType st0
  /\ (uses_IndexedDB st0 = false ->
      idb_pdfs st = idb_pdfs st0 /\ idb_topics st = idb_topics st0)
  /\ (uses_localStorage st0 = false -> localStorage st = localStorage st0).

(** * Properties *)

(** ** The traversals, in the shape of the source loops *)

Lemma flat_node_eq a subs :
  flat_node (mkNode a subs) =
  mkNode a subs :: match subs with Some l => getAllTopicsFlat l | None => [] end.
Proof. by destruct subs. Qed.

Lemma find_node_eq i a subs :
  find_node i (mkNode a subs) =
  if id_eqb (id a) i then Some (mkNode a subs)
  else match subs with Some l => findTopicById i l | None => None end.
Proof. by destruct subs. Qed.

Lemma countAllItems_eq a subs :
  countAllItems (mkNode a subs) = count_subtopics subs.
Proof. by destruct subs. Qed.

Lemma getAllTopicsFlat_cons a subs rest :
  getAllTopicsFlat (mkNode a subs :: rest) =
  mkNode a subs ::
    match subs with Some l => getAllTopicsFlat l | None => [] end
    ++ getAllTopicsFlat rest.
Proof. cbn [getAllTopicsFlat]. by rewrite flat_node_eq. Qed.

Lemma findTopicById_cons i a subs rest :
  findTopicById i (mkNode a subs :: rest) =
  if id_eqb (id a) i then Some (mkNode a subs)
  else
    match match subs with Some l => findTopicById i l | None => None end with
    | Some found => Some found
    | None => findTopicById i rest
    end.
Proof.
  change (findTopicById i (mkNode a subs :: rest))
    with (match find_node i (mkNode a subs) with
          | Some found => Some found
          | None => findTopicById i rest
          end).
  rewrite find_node_eq. by destruct (id_eqb (id a) i).
Qed.

Lemma count_list_cons a subs rest :
  count_list (mkNode a subs :: rest) = count_subtopics subs + count_list rest.
Proof. cbn [count_list]. by rewrite countAllItems_eq. Qed.

Lemma modifyById_cons i f a subs rest :
  modifyById i f (mkNode a subs :: rest) =
  if id_eqb (id a) i then Some (f (mkNode a subs) :: rest)
  else
    match match subs with Some l => modifyById i f l | None => None end with
    | Some l' => Some (mkNode a (Some l') :: rest)
    | None => option_map (cons (mkNode a subs)) (modifyById i f rest)
    end.
Proof.
  change (modifyById i f (mkNode a subs :: rest))
    with (match modify_node i f (mkNode a subs) with
          | Some c' => Some (c' :: rest)
          | None => option_map (cons (mkNode a subs)) (modifyById i f rest)
          end).
  cbn [modify_node]. destruct (id_eqb (id a) i); [done|].
  destruct subs as [l|]; [|done].
  change ((fix modify_list (l : list Node) : option (list Node) :=
             match l with
             | [] => None
             | c :: r =>
                 match modify_node i f c with
                 | Some c' => Some (c' :: r)
                 | None => option_map (cons c) (modify_list r)
                 end
             end) l) with (modifyById i f l).
  by destruct (modifyById i f l).
Qed.

Lemma remove_in_node_eq i a subs :
  remove_in_node i (mkNode a subs) =
  match subs with
  | Some l => option_map (fun l' => mkNode a (Some l')) (removeFromArray i l)
  | None => None
  end.
Proof. by destruct subs. Qed.

Lemma removeFromArray_cons i a subs rest :
  removeFromArray i (mkNode a subs :: rest) =
  if id_eqb (id a) i then Some rest
  else
    match match subs with Some l => removeFromArray i l | None => None end with
    | Some l' => Some (mkNode a (Some l') :: rest)
    | None => option_map (cons (mkNode a subs)) (removeFromArray i rest)
    end.
Proof.
  change (removeFromArray i (mkNode a subs :: rest))
    with (if id_eqb (node_id (mkNode a subs)) i then Some rest
          else
            match remove_in_node i (mkNode a subs) with
            | Some c' => Some (c' :: rest)
            | None => option_map (cons (mkNode a subs)) (removeFromArray i rest)
            end).
  rewrite remove_in_node_eq. unfold node_id. cbn [attrs].
  destruct (id_eqb (id a) i); [done|].
  destruct subs as [l|]; [|done]. by destruct (removeFromArray i l).
Qed.

(** Induction over a forest: the empty list, a topic without a [subtopics]
    array, a topic with one. *)
Lemma forest_ind (P : list Node -> Prop) :
  P [] ->
  (forall a rest, P rest -> P (mkNode a None :: rest)) ->
  (forall a subs rest, P subs -> P rest -> P (mkNode a (Some subs) :: rest)) ->
  forall l, P l.
Proof.
  intros Hnil Hbare Hsubs l.
  remember (count_list l) as k eqn:Hk.
  assert (Hle : count_list l <= k) by lia. clear Hk.
  revert l Hle. induction k as [|k IH]; intros l Hle.
  - destruct l as [|[a subs] rest]; [exact Hnil|].
    rewrite count_list_cons in Hle. unfold count_subtopics in Hle. lia.
  - destruct l as [|[a [subs|]] rest]; [exact Hnil| |].
    + rewrite count_list_cons in Hle. unfold count_subtopics in Hle.
      apply Hsubs; apply IH; lia.
    + rewrite count_list_cons in Hle. unfold count_subtopics in Hle.
      apply Hbare, IH. lia.
Qed.

Lemma id_eqb_eq a b : id_eqb a b = true <-> a = b.
Proof.
  destruct a, b; simpl; split; intros H; try discriminate.
  - apply Z.eqb_eq in H. by subst.
  - injection H as ->. apply Z.eqb_refl.
  - apply String.eqb_eq in H. by subst.
  - injection H as ->. apply String.eqb_refl.
Qed.

Lemma id_eqb_refl a : id_eqb a a = true.
Proof. by apply id_eqb_eq. Qed.

Lemma id_eqb_neq a b : id_eqb a b = false <-> a <> b.
Proof.
  rewrite <- id_eqb_eq. destruct (id_eqb a b); split; congruence.
Qed.

(** ** Counting *)

Lemma length_getAllTopicsFlat l : length (getAllTopicsFlat l) = count_list l.
Proof.
  induction l as [|a rest IH|a subs rest IHs IH] using forest_ind; [done| |].
  - rewrite getAllTopicsFlat_cons, count_list_cons. unfold count_subtopics.
    cbn. by rewrite IH.
  - rewrite getAllTopicsFlat_cons, count_list_cons. unfold count_subtopics.
    cbn. rewrite length_app, IHs, IH. lia.
Qed.

Lemma length_flat_node n : length (flat_node n) = countAllItems n.
Proof.
  destruct n as [a subs]. rewrite flat_node_eq, countAllItems_eq.
  unfold count_subtopics. destruct subs as [l|]; cbn; [|done].
  by rewrite length_getAllTopicsFlat.
Qed.

(** C10: the flat depth-first enumeration of a forest has as many
    elements as [countAllItems] finds under a synthetic root holding the
    forest, minus one for the root; this is the [topicCount] that
    [getStorageInfo] reports. *)
Theorem flat_length_is_root_count_minus_one (root : Attrs) (l : list Node) :
  length (getAllTopicsFlat l) = countAllItems (mkNode root (Some l)) - 1
  /\ topicCount l = length (getAllTopicsFlat l).
Proof.
  rewrite countAllItems_eq. unfold topicCount, count_subtopics.
  rewrite length_getAllTopicsFlat. lia.
Qed.

(** ** Lookup *)

Lemma find_app_first {A} (p : A -> bool) (l1 l2 : list A) :
  List.find p (l1 ++ l2) =
  match List.find p l1 with Some x => Some x | None => List.find p l2 end.
Proof.
  induction l1 as [|x r IH]; cbn; [done|]. by destruct (p x).
Qed.

Lemma findTopicById_flat i l :
  findTopicById i l = List.find (has_id i) (getAllTopicsFlat l).
Proof.
  induction l as [|a rest IH|a subs rest IHs IH] using forest_ind; [done| |].
  - rewrite findTopicById_cons, getAllTopicsFlat_cons. cbn.
    unfold has_id at 1, node_id. cbn. by destruct (id_eqb (id a) i).
  - rewrite findTopicById_cons, getAllTopicsFlat_cons. cbn.
    unfold has_id at 1, node_id. cbn. destruct (id_eqb (id a) i); [done|].
    rewrite find_app_first, <- IHs, <- IH. by destruct (findTopicById i subs).
Qed.

Lemma find_unique_id (l : list Node) (n : Node) :
  NoDup (map node_id l) -> In n l -> List.find (has_id (node_id n)) l = Some n.
Proof.
  induction l as [|x r IH]; intros Hnd Hin; [done|].
  cbn in Hnd. apply NoDup_cons in Hnd as [Hx Hr]. cbn. unfold has_id at 1.
  destruct Hin as [->|Hin].
  - by rewrite id_eqb_refl.
  - destruct (id_eqb (node_id x) (node_id n)) eqn:E.
    + apply id_eqb_eq in E. exfalso. apply Hx. rewrite E.
      apply list_elem_of_In, in_map, Hin.
    + by apply IH.
Qed.

(** C4: in a forest whose ids are unique tree-wide, looking up the id of
    any node of the tree, at whatever depth, returns that node; and the
    lookup is the first match of the depth-first pre-order enumeration. *)
Theorem findTopicById_returns_node (l : list Node) (n : Node) :
  unique_ids l ->
  In n (getAllTopicsFlat l) ->
  findTopicById (node_id n) l = Some n
  /\ forall i, findTopicById i l = List.find (has_id i) (getAllTopicsFlat l).
Proof.
  intros Hnd Hin. split; [|intros i; apply findTopicById_flat].
  rewrite findTopicById_flat. by apply find_unique_id.
Qed.

Lemma findTopicById_returns_node_witness :
  let n := sample_pdf_folder (IdNum 2) "B" in
  unique_ids sample_forest
  /\ In n (getAllTopicsFlat sample_forest)
  /\ findTopicById (node_id n) sample_forest = Some n
  /\ forall i, findTopicById i sample_forest
               = List.find (has_id i) (getAllTopicsFlat sample_forest).
Proof.
  assert (Hnd : unique_ids sample_forest).
  { unfold unique_ids. cbn. apply NoDup_cons. split; [|apply NoDup_singleton].
    intros H. apply list_elem_of_In in H as [[=]|[]]. }
  assert (Hin : In (sample_pdf_folder (IdNum 2) "B") (getAllTopicsFlat sample_forest)).
  { right. by left. }
  split; [exact Hnd|]. split; [exact Hin|].
  exact (findTopicById_returns_node sample_forest
           (sample_pdf_folder (IdNum 2) "B") Hnd Hin).
Defined.

Lemma findTopicById_id i l n : findTopicById i l = Some n -> node_id n = i.
Proof.
  rewrite findTopicById_flat. intros H. apply find_some in H as [_ H].
  by apply id_eqb_eq.
Qed.

Lemma findTopicById_In i l n :
  findTopicById i l = Some n -> In n (getAllTopicsFlat l).
Proof.
  rewrite findTopicById_flat. intros H. by apply find_some in H as [H _].
Qed.

Lemma findTopicById_None i l :
  findTopicById i l = None <->
  Forall (fun a => id a <> i) (map attrs (getAllTopicsFlat l)).
Proof.
  rewrite findTopicById_flat.
  induction (getAllTopicsFlat l) as [|x r IH]; cbn.
  - split; [constructor|done].
  - unfold has_id at 1, node_id. destruct (id_eqb (id (attrs x)) i) eqn:E.
    + split; [done|]. intros H. apply Forall_cons in H as [H _].
      by apply id_eqb_eq in E.
    + rewrite IH, Forall_cons. apply id_eqb_neq in E. tauto.
Qed.

(** ** Removal *)

Lemma removeFromArray_None i l :
  findTopicById i l = None -> removeFromArray i l = None.
Proof.
  induction l as [|a rest IH|a subs rest IHs IH] using forest_ind; [done| |].
  - rewrite findTopicById_cons, removeFromArray_cons.
    destruct (id_eqb (id a) i); [done|]. intros H. by rewrite IH.
  - rewrite findTopicById_cons, removeFromArray_cons.
    destruct (id_eqb (id a) i); [done|].
    destruct (findTopicById i subs); [done|]. intros H.
    by rewrite IHs, IH.
Qed.

(** [removeFromArray] takes out the first pre-order match together with
    its subtree and keeps every other node, in order. *)
Lemma removeFromArray_spec i l n :
  findTopicById i l = Some n ->
  exists l' pre post,
    removeFromArray i l = Some l'
    /\ map attrs (getAllTopicsFlat l) = pre ++ map attrs (flat_node n) ++ post
    /\ map attrs (getAllTopicsFlat l') = pre ++ post
    /\ Forall (fun a => id a <> i) pre.
Proof.
  revert n.
  induction l as [|a rest IH|a subs rest IHs IH] using forest_ind; intros n;
    [done| |].
  - rewrite findTopicById_cons, removeFromArray_cons.
    destruct (id_eqb (id a) i) eqn:E.
    + intros [= <-]. exists rest, [], (map attrs (getAllTopicsFlat rest)).
      rewrite getAllTopicsFlat_cons, flat_node_eq. by repeat split.
    + intros H. destruct (IH n H) as (l' & pre & post & -> & H1 & H2 & H3).
      exists (mkNode a None :: l'), (a :: pre), post.
      rewrite !getAllTopicsFlat_cons. cbn. rewrite H1, H2.
      repeat split. constructor; [by apply id_eqb_neq|done].
  - rewrite findTopicById_cons, removeFromArray_cons.
    destruct (id_eqb (id a) i) eqn:E.
    + intros [= <-]. exists rest, [], (map attrs (getAllTopicsFlat rest)).
      rewrite getAllTopicsFlat_cons, flat_node_eq. cbn.
      rewrite map_app. by repeat split.
    + destruct (findTopicById i subs) as [m|] eqn:Es.
      * intros [= <-].
        destruct (IHs m eq_refl) as (l' & pre & post & -> & H1 & H2 & H3).
        exists (mkNode a (Some l') :: rest), (a :: pre),
          (post ++ map attrs (getAllTopicsFlat rest)).
        rewrite !getAllTopicsFlat_cons. cbn. rewrite !map_app, H1, H2.
        rewrite <- !app_assoc. repeat split.
        constructor; [by apply id_eqb_neq|done].
      * intros H. rewrite (removeFromArray_None _ _ Es).
        destruct (IH n H) as (l' & pre & post & -> & H1 & H2 & H3).
        exists (mkNode a (Some subs) :: l'),
          (a :: map attrs (getAllTopicsFlat subs) ++ pre), post.
        rewrite !getAllTopicsFlat_cons. cbn. rewrite !map_app, H1, H2.
        rewrite <- !app_assoc. repeat split.
        constructor; [by apply id_eqb_neq|].
        apply Forall_app. split; [by apply findTopicById_None|done].
Qed.

Lemma topicCount_length l : topicCount l = length (getAllTopicsFlat l).
Proof.
  unfold topicCount, count_subtopics. rewrite length_getAllTopicsFlat. lia.
Qed.

Lemma topics_commit S now be l app :
  topics (commit S now be l app) = l.
Proof. done. Qed.

(** C3, as amended: a confirmed [deleteTopic] of an id that is present
    takes out the first node with that id in depth-first pre-order,
    wherever it is nested, together with its subtree and nothing else; the
    total node count drops by exactly [countAllItems] of that node; and
    when ids are unique tree-wide the id no longer resolves afterwards. *)
Theorem deleteTopic_removes_subtree (JSON_stringify : list Node -> string)
  (app : App) (i : JsId) (n : Node) (now : string) (be : Backend) :
  findTopicById i (topics app) = Some n ->
  let app' := deleteTopic JSON_stringify i true now be app in
  topicCount (topics app') + countAllItems n = topicCount (topics app)
  /\ (exists pre post,
        map attrs (getAllTopicsFlat (topics app))
          = pre ++ map attrs (flat_node n) ++ post
        /\ map attrs (getAllTopicsFlat (topics app')) = pre ++ post
        /\ Forall (fun a => id a <> i) pre)
  /\ (unique_ids (topics app) -> findTopicById i (topics app') = None).
Proof.
  intros Hfind app'.
  destruct (removeFromArray_spec _ _ _ Hfind) as (l' & pre & post & Hr & H1 & H2 & H3).
  assert (Ht : topics app' = l').
  { unfold app', deleteTopic. rewrite Hfind, topics_commit. by rewrite Hr. }
  rewrite Ht. split; [|split].
  - rewrite !topicCount_length, <- length_flat_node.
    rewrite <- (length_map attrs (getAllTopicsFlat l')), H2.
    rewrite <- (length_map attrs (getAllTopicsFlat (topics app))), H1.
    rewrite <- (length_map attrs (flat_node n)), !length_app. lia.
  - by exists pre, post.
  - intros Hnd. apply findTopicById_None. rewrite H2.
    unfold unique_ids in Hnd.
    assert (Hmap : map node_id (getAllTopicsFlat (topics app))
                   = map id (map attrs (getAllTopicsFlat (topics app)))).
    { by rewrite map_map. }
    rewrite Hmap, H1 in Hnd. clear Hmap.
    destruct n as [a subs]. rewrite flat_node_eq in Hnd. cbn in Hnd.
    pose proof (findTopicById_id _ _ _ Hfind) as Hid.
    unfold node_id in Hid. cbn in Hid.
    rewrite !map_app in Hnd. cbn in Hnd.
    apply NoDup_app in Hnd as (_ & Hpre & Hmid).
    apply NoDup_cons in Hmid as [Hmid _].
    apply Forall_app. split; [done|].
    apply Forall_forall. intros x Hx Hxi.
    apply Hmid. rewrite map_app. apply elem_of_app. right.
    apply list_elem_of_In, in_map_iff. exists x.
    split; [congruence | by apply list_elem_of_In].
Qed.

Lemma deleteTopic_removes_subtree_witness :
  let app := sample_app sample_forest MemoryOnly in
  let n := sample_folder (IdNum 1) "A" [sample_pdf_folder (IdNum 2) "B"] in
  findTopicById (IdNum 1) (topics app) = Some n
  /\ topicCount
       (topics (deleteTopic sample_stringify (IdNum 1) true sample_now Succeeds app))
     + countAllItems n = topicCount (topics app).
Proof.
  split; [reflexivity|].
  apply (deleteTopic_removes_subtree sample_stringify
           (sample_app sample_forest MemoryOnly) (IdNum 1)
           (sample_folder (IdNum 1) "A" [sample_pdf_folder (IdNum 2) "B"])
           sample_now Succeeds).
  reflexivity.
Defined.

(** C3 as stated fails when an id occurs twice: the first match goes,
    the second still resolves. *)
Lemma deleteTopic_duplicate_id_still_resolves :
  let first := sample_pdf_folder (IdNum 1) "A" in
  let second := sample_pdf_folder (IdNum 1) "B" in
  let app := sample_app [first; second] MemoryOnly in
  let app' := deleteTopic sample_stringify (IdNum 1) true sample_now Succeeds app in
  findTopicById (IdNum 1) (topics app) = Some first
  /\ topics app' = [second]
  /\ findTopicById (IdNum 1) (topics app') = Some second.
Proof. repeat split. Qed.

(** ** Inserting under a parent that cannot take children *)

(** C5, as amended.  When [parentId] does not resolve, or resolves to a
    'pdf-folder', nothing is inserted: the forest and the storage are as
    before and the dialog does not open.  For a 'pdf-folder' parent the
    user is told so by one alert and nothing else changes; for a parent
    that does not resolve the whole state is as before, nothing being
    reported. *)
Theorem insertChild_invalid_parent (JSON_stringify : list Node -> string)
  (app : App) (parentId : JsId) (name description folderType : string)
  (newId : JsId) (now : string) (be : Backend) :
  (findTopicById parentId (topics app) = None
   \/ exists p, findTopicById parentId (topics app) = Some p
                /\ is_pdf_folder p = true) ->
  let r := insertChild JSON_stringify parentId name description folderType
             newId now be app in
  fst r <> DialogOpened
  /\ topics (snd r) = topics app
  /\ storage (snd r) = storage app
  /\ (findTopicById parentId (topics app) = None ->
      snd r = app /\ alerts (snd r) = alerts app)
  /\ (forall p,
        findTopicById parentId (topics app) = Some p ->
        is_pdf_folder p = true ->
        snd r
        = alert "PDF folders cannot contain sub-items. Only regular folders can contain other items."
            app
        /\ alerts (snd r)
           = "PDF folders cannot contain sub-items. Only regular folders can contain other items."
               :: alerts app).
Proof.
  intros H r. unfold r, insertChild, addSubtopic.
  destruct H as [-> | (p & -> & ->)]; cbn [fst snd];
    repeat split; try done; intros; by simplify_eq.
Qed.

Lemma insertChild_invalid_parent_witness :
  let app := sample_app sample_forest MemoryOnly in
  let r := insertChild sample_stringify (IdNum 2) "C" "" "folder" (IdNum 3)
             sample_now Succeeds app in
  (findTopicById (IdNum 2) (topics app) = None
   \/ exists p, findTopicById (IdNum 2) (topics app) = Some p
                /\ is_pdf_folder p = true)
  /\ fst r <> DialogOpened
  /\ topics (snd r) = topics app
  /\ storage (snd r) = storage app
  /\ (findTopicById (IdNum 2) (topics app) = None ->
      snd r = app /\ alerts (snd r) = alerts app)
  /\ (forall p,
        findTopicById (IdNum 2) (topics app) = Some p ->
        is_pdf_folder p = true ->
        snd r
        = alert "PDF folders cannot contain sub-items. Only regular folders can contain other items."
            app
        /\ alerts (snd r)
           = "PDF folders cannot contain sub-items. Only regular folders can contain other items."
               :: alerts app).
Proof.
  assert (H : findTopicById (IdNum 2) (topics (sample_app sample_forest MemoryOnly)) = None
              \/ exists p, findTopicById (IdNum 2)
                             (topics (sample_app sample_forest MemoryOnly)) = Some p
                           /\ is_pdf_folder p = true).
  { right. exists (sample_pdf_folder (IdNum 2) "B"). split; reflexivity. }
  split; [exact H|].
  exact (insertChild_invalid_parent sample_stringify
           (sample_app sample_forest MemoryOnly) (IdNum 2) "C" "" "folder"
           (IdNum 3) sample_now Succeeds H).
Defined.

(** C5 as stated fails for a parent that does not resolve: [addSubtopic]
    returns at once, so no failure is surfaced; no message is shown and
    the state is the one before the click.  Only a 'pdf-folder' parent is
    answered, by an alert. *)
Lemma insertChild_missing_parent_is_silent :
  let app := sample_app sample_forest MemoryOnly in
  let missing := insertChild sample_stringify (IdNum 99) "C" "" "folder" (IdNum 3)
                   sample_now Succeeds app in
  let leaf := insertChild sample_stringify (IdNum 2) "C" "" "folder" (IdNum 3)
                sample_now Succeeds app in
  findTopicById (IdNum 99) (topics app) = None
  /\ snd missing = app
  /\ alerts (snd missing) = []
  /\ findTopicById (IdNum 2) (topics app) = Some (sample_pdf_folder (IdNum 2) "B")
  /\ alerts (snd leaf)
     = ["PDF folders cannot contain sub-items. Only regular folders can contain other items."].
Proof. repeat split. Qed.

(** ** Import of a malformed archive *)

(** C6: when the [topics] property of the archive is missing or is not an
    array, [performImport] only reports 'Invalid data format': the
    forest, every storage tier and the selection are as before. *)
Theorem performImport_invalid_format (JSON_stringify : list Node -> string)
  (a : Archive) (now : string) (be : Backend) (puts : nat -> Backend)
  (app : App) :
  a_topics a = TopicsMissing \/ a_topics a = TopicsNotArray ->
  let app' := performImport JSON_stringify (Parsed a) now be puts app in
  app' = alert "❌ Error importing data: Invalid data format" app
  /\ topics app' = topics app
  /\ storage app' = storage app.
Proof.
  intros H app'. unfold app', performImport. by destruct H as [-> | ->].
Qed.

Lemma performImport_invalid_format_witness :
  let a := mkArchive "3.0" sample_now TopicsMissing
             (Some [("2", JStr "JVBERi0=")]) in
  let app := sample_app sample_forest LocalStorage in
  let app' := performImport sample_stringify (Parsed a) sample_now Succeeds
                (fun _ => Succeeds) app in
  (a_topics a = TopicsMissing \/ a_topics a = TopicsNotArray)
  /\ app' = alert "❌ Error importing data: Invalid data format" app
  /\ topics app' = topics app
  /\ storage app' = storage app.
Proof.
  split; [by left|].
  apply (performImport_invalid_format sample_stringify
           (mkArchive "3.0" sample_now TopicsMissing (Some [("2", JStr "JVBERi0=")]))
           sample_now Succeeds (fun _ => Succeeds)
           (sample_app sample_forest LocalStorage)).
  by left.
Defined.

(** ** The storage tiers *)

Lemma saveToStorage_tier now be key value st :
  uses_IndexedDB (saveToStorage now be key value st) = uses_IndexedDB st
  /\ uses_localStorage (saveToStorage now be key value st) = uses_localStorage st.
Proof.
  unfold saveToStorage.
  destruct (uses_IndexedDB st) eqn:E1, (uses_localStorage st) eqn:E2, be; done.
Qed.

Lemma saveData_tier S now be l st :
  uses_IndexedDB (saveData S now be l st) = uses_IndexedDB st
  /\ uses_localStorage (saveData S now be l st) = uses_localStorage st.
Proof.
  unfold saveData.
  destruct (uses_IndexedDB st) eqn:E1, (uses_localStorage st) eqn:E2, be; done.
Qed.

(** What a read gives back right after a write of the same key, when the
    backend fails at neither. *)
Lemma getFromStorage_saveToStorage now key value st :
  getFromStorage Succeeds key (saveToStorage now Succeeds key value st) =
  Returned (if uses_IndexedDB st then value
            else if uses_localStorage st then JStr (js_toString value)
            else value).
Proof.
  unfold getFromStorage.
  destruct (saveToStorage_tier now Succeeds key value st) as [-> ->].
  unfold saveToStorage, memory_get, memory_set.
  destruct (uses_IndexedDB st); [cbn; by rewrite lookup_insert_eq|].
  destruct (uses_localStorage st); cbn; by rewrite lookup_insert_eq.
Qed.

Lemma getFromStorage_saveToStorage_string now key s st :
  getFromStorage Succeeds key (saveToStorage now Succeeds key (JStr s) st) =
  Returned (JStr s).
Proof.
  rewrite getFromStorage_saveToStorage.
  by destruct (uses_IndexedDB st), (uses_localStorage st).
Qed.

Lemma getFromStorage_saveToStorage_ne now be be' key key' value st :
  key <> key' ->
  getFromStorage be' key (saveToStorage now be key' value st) =
  getFromStorage be' key st.
Proof.
  intros Hne. unfold getFromStorage.
  destruct (saveToStorage_tier now be key' value st) as [-> ->].
  unfold saveToStorage, memory_get, memory_set.
  destruct (uses_IndexedDB st), (uses_localStorage st), be, be'; cbn;
    by rewrite ?lookup_insert_ne.
Qed.

Lemma getFromStorage_saveData S now be be' key l st :
  key <> STORAGE_KEY ->
  getFromStorage be' key (saveData S now be l st) = getFromStorage be' key st.
Proof.
  intros Hne. unfold getFromStorage.
  destruct (saveData_tier S now be l st) as [-> ->].
  unfold saveData, memory_get.
  destruct (uses_IndexedDB st), (uses_localStorage st), be, be'; cbn;
    by rewrite ?lookup_insert_ne.
Qed.

(** C8, at the failing input: on the localStorage tier a write of [null]
    (as [loadSavedPDF] does to clear a broken PDF) followed by a read of
    the same key, with no failure in between, gives back the
    four-character string "null" and not the value written; the IndexedDB
    tier and the in-memory tier give back [null]. *)
Theorem localStorage_null_reads_back_as_text :
  getFromStorage Succeeds "pdf_5"
    (saveToStorage sample_now Succeeds "pdf_5" JNull (empty_storage LocalStorage))
  = Returned (JStr "null")
  /\ getFromStorage Succeeds "pdf_5"
       (saveToStorage sample_now Succeeds "pdf_5" JNull (empty_storage IndexedDB))
     = Returned JNull
  /\ getFromStorage Succeeds "pdf_5"
       (saveToStorage sample_now Succeeds "pdf_5" JNull (empty_storage MemoryOnly))
     = Returned JNull.
Proof.
  rewrite !getFromStorage_saveToStorage. by repeat split.
Qed.

(** C2, as amended: on either durable tier, a write that succeeds leaves
    the in-memory map as it was, and a read of that key at which the
    backend throws returns what the in-memory map holds for the key:
    [null] when it has no entry, else the data of the entry an earlier
    fallen-back write left there. *)
Theorem getFromStorage_throw_reads_memory (st : Storage) (now key : string)
  (value : JsValue) :
  uses_IndexedDB st || uses_localStorage st = true ->
  let st' := saveToStorage now Succeeds key value st in
  inMemoryStorage st' = inMemoryStorage st
  /\ getFromStorage Throws key st' = Returned (memory_get key st)
  /\ (inMemoryStorage st !! key = None ->
      getFromStorage Throws key st' = Returned JNull).
Proof.
  intros Htier st'. subst st'.
  set (st' := saveToStorage now Succeeds key value st).
  assert (Hmem : inMemoryStorage st' = inMemoryStorage st).
  { unfold st', saveToStorage.
    destruct (uses_IndexedDB st); [done|].
    by destruct (uses_localStorage st). }
  assert (Hget : getFromStorage Throws key st' = Returned (memory_get key st)).
  { unfold getFromStorage. fold st' in Hmem.
    destruct (saveToStorage_tier now Succeeds key value st) as [H1 H2].
    fold st' in H1, H2. rewrite H1, H2.
    unfold memory_get. rewrite Hmem.
    destruct (uses_IndexedDB st); [done|].
    by destruct (uses_localStorage st). }
  repeat split; [done|done|].
  intros Hnone. rewrite Hget. unfold memory_get. by rewrite Hnone.
Qed.

Lemma getFromStorage_throw_reads_memory_witness :
  let st := empty_storage IndexedDB in
  let st' := saveToStorage sample_now Succeeds "pdf_5" (JStr "JVBERi0=") st in
  uses_IndexedDB st || uses_localStorage st = true
  /\ inMemoryStorage st' = inMemoryStorage st
  /\ getFromStorage Throws "pdf_5" st' = Returned (memory_get "pdf_5" st)
  /\ (inMemoryStorage st !! "pdf_5" = None ->
      getFromStorage Throws "pdf_5" st' = Returned JNull).
Proof.
  split; [reflexivity|].
  apply (getFromStorage_throw_reads_memory (empty_storage IndexedDB)
           sample_now "pdf_5" (JStr "JVBERi0=")).
  reflexivity.
Defined.

(** C2 as stated fails when an earlier write of the key fell back to the
    in-memory map: the later write succeeds on localStorage and mirrors
    nothing, yet the failing read returns the older value, which is
    neither the value just written nor [null]. *)
Lemma getFromStorage_throw_returns_stale_value :
  let st0 := saveToStorage sample_now Throws "pdf_5" (JStr "old")
               (empty_storage LocalStorage) in
  let st1 := saveToStorage sample_now Succeeds "pdf_5" (JStr "new") st0 in
  localStorage st1 !! "pdf_5" = Some "new"
  /\ inMemoryStorage st1 = inMemoryStorage st0
  /\ getFromStorage Succeeds "pdf_5" st1 = Returned (JStr "new")
  /\ getFromStorage Throws "pdf_5" st1 = Returned (JStr "old")
  /\ JStr "old" <> JStr "new"
  /\ JStr "old" <> JNull.
Proof. repeat split; try done; by vm_compute. Qed.

(** ** Mutation through the reference [findTopicById] returns *)

Lemma modifyById_None i f l :
  findTopicById i l = None -> modifyById i f l = None.
Proof.
  induction l as [|a rest IH|a subs rest IHs IH] using forest_ind; [done| |].
  - rewrite findTopicById_cons, modifyById_cons.
    destruct (id_eqb (id a) i); [done|]. intros H. by rewrite IH.
  - rewrite findTopicById_cons, modifyById_cons.
    destruct (id_eqb (id a) i); [done|].
    destruct (findTopicById i subs); [done|]. intros H.
    by rewrite IHs, IH.
Qed.

Lemma map_attrs_eq g a subs :
  map_attrs g (mkNode a subs) = mkNode (g a) (option_map (map (map_attrs g)) subs).
Proof. by destruct subs. Qed.

(** When [f] keeps the id and the [subtopics] array of the node it is
    given, [modifyById i f] changes the attributes of the first pre-order
    match and nothing else: the match is now [f n], the pre-order list of
    attributes differs at that one place, and whatever [g] cannot tell
    [f n] from [n] by, it cannot tell the two forests apart by. *)
Lemma modifyById_spec i f g l n :
  (forall m, subtopics (f m) = subtopics m) ->
  (forall m, node_id (f m) = node_id m) ->
  (forall m, g (attrs (f m)) = g (attrs m)) ->
  findTopicById i l = Some n ->
  exists l' pre post,
    modifyById i f l = Some l'
    /\ findTopicById i l' = Some (f n)
    /\ map (map_attrs g) l' = map (map_attrs g) l
    /\ map attrs (getAllTopicsFlat l) = pre ++ attrs n :: post
    /\ map attrs (getAllTopicsFlat l') = pre ++ attrs (f n) :: post
    /\ Forall (fun a => id a <> i) pre.
Proof.
  intros Hsubs Hid Hg. revert n.
  assert (Hhead : forall a subs rest,
    id_eqb (id a) i = true ->
    findTopicById i (f (mkNode a subs) :: rest) = Some (f (mkNode a subs))
    /\ map (map_attrs g) (f (mkNode a subs) :: rest)
       = map (map_attrs g) (mkNode a subs :: rest)
    /\ map attrs (getAllTopicsFlat (f (mkNode a subs) :: rest))
       = attrs (f (mkNode a subs))
         :: map attrs (match subs with Some l => getAllTopicsFlat l | None => [] end)
         ++ map attrs (getAllTopicsFlat rest)).
  { intros a subs rest E.
    pose proof (Hsubs (mkNode a subs)) as H1.
    pose proof (Hid (mkNode a subs)) as H2.
    pose proof (Hg (mkNode a subs)) as H3.
    destruct (f (mkNode a subs)) as [a' subs']. cbn in H1, H2, H3.
    unfold node_id in H2. cbn in H2. subst subs'.
    rewrite findTopicById_cons, getAllTopicsFlat_cons, H2, E. cbn [map].
    rewrite !map_attrs_eq, H3, map_app. done. }
  induction l as [|a rest IH|a subs rest IHs IH] using forest_ind; intros n;
    [done| |].
  - rewrite findTopicById_cons, modifyById_cons.
    destruct (id_eqb (id a) i) eqn:E.
    + intros [= <-]. destruct (Hhead a None rest E) as (H1 & H2 & H3).
      exists (f (mkNode a None) :: rest), [], (map attrs (getAllTopicsFlat rest)).
      rewrite getAllTopicsFlat_cons, H3. by repeat split.
    + intros H.
      destruct (IH n H) as (l' & pre & post & -> & H1 & H2 & H3 & H4 & H5).
      exists (mkNode a None :: l'), (a :: pre), post.
      rewrite findTopicById_cons, E, !getAllTopicsFlat_cons. cbn.
      rewrite H1, H2, H3, H4. repeat split.
      constructor; [by apply id_eqb_neq|done].
  - rewrite findTopicById_cons, modifyById_cons.
    destruct (id_eqb (id a) i) eqn:E.
    + intros [= <-]. destruct (Hhead a (Some subs) rest E) as (H1 & H2 & H3).
      exists (f (mkNode a (Some subs)) :: rest), [],
        (map attrs (getAllTopicsFlat subs) ++ map attrs (getAllTopicsFlat rest)).
      rewrite getAllTopicsFlat_cons, H3. cbn. rewrite map_app. by repeat split.
    + destruct (findTopicById i subs) as [m|] eqn:Es.
      * intros [= <-].
        destruct (IHs m eq_refl) as (l' & pre & post & -> & H1 & H2 & H3 & H4 & H5).
        exists (mkNode a (Some l') :: rest), (a :: pre),
          (post ++ map attrs (getAllTopicsFlat rest)).
        rewrite findTopicById_cons, E, H1, !getAllTopicsFlat_cons. cbn [map].
        rewrite !map_attrs_eq. cbn [option_map attrs app].
        rewrite ?map_app, ?H2, ?H3, ?H4, <- ?app_assoc. repeat split.
        constructor; [by apply id_eqb_neq|done].
      * intros H. rewrite (modifyById_None _ _ _ Es).
        destruct (IH n H) as (l' & pre & post & -> & H1 & H2 & H3 & H4 & H5).
        exists (mkNode a (Some subs) :: l'),
          (a :: map attrs (getAllTopicsFlat subs) ++ pre), post.
        rewrite findTopicById_cons, E, Es, H1, !getAllTopicsFlat_cons.
        cbn [map option_map attrs app].
        rewrite ?map_app, ?H2, ?H3, ?H4, <- ?app_assoc. repeat split.
        constructor; [by apply id_eqb_neq|].
        apply Forall_app. split; [by apply findTopicById_None|done].
Qed.

(** C9, as amended: [confirmRename] never shows a message.  When the
    target id does not resolve, the forest and the storage are left as
    they were and the dialog just closes.  When it resolves, and the new
    name, the id and the target kind are all truthy, the first node with
    that id gets the new name and [lastModified], and nothing else in the
    forest changes: same nesting, same attributes everywhere else. *)
Theorem confirmRename_spec (JSON_stringify : list Node -> string) (app : App)
  (i : JsId) (targetType newName now : string) (be : Backend) :
  renameTargetId app = Some i ->
  renameTargetType app = Some targetType ->
  let app' := confirmRename JSON_stringify newName now be app in
  alerts app' = alerts app
  /\ (findTopicById i (topics app) = None ->
      topics app' = topics app /\ storage app' = storage app)
  /\ (forall n,
        findTopicById i (topics app) = Some n ->
        str_truthy newName = true ->
        id_truthy i = true ->
        str_truthy targetType = true ->
        findTopicById i (topics app') = Some (rename_node newName now n)
        /\ map (map_attrs without_name) (topics app')
           = map (map_attrs without_name) (topics app)
        /\ exists pre post,
             map attrs (getAllTopicsFlat (topics app)) = pre ++ attrs n :: post
             /\ map attrs (getAllTopicsFlat (topics app'))
                = pre ++ set_name newName now (attrs n) :: post
             /\ Forall (fun a => id a <> i) pre).
Proof.
  intros Hi Ht app'. subst app'. unfold confirmRename. rewrite Hi, Ht.
  split; [|split].
  - destruct (str_truthy newName && id_truthy i && str_truthy targetType);
      [|done].
    by destruct (findTopicById i (topics app)).
  - intros ->.
    by destruct (str_truthy newName && id_truthy i && str_truthy targetType).
  - intros n Hn -> -> ->. cbn [andb]. rewrite Hn.
    destruct (modifyById_spec i (rename_node newName now) without_name
                (topics app) n) as (l' & pre & post & Hm & H1 & H2 & H3 & H4 & H5);
      [by intros [? ?]..|done|].
    cbn. unfold update_found. rewrite Hm. cbn.
    split; [done|]. split; [done|]. by exists pre, post.
Qed.

Lemma confirmRename_spec_witness :
  let app := set_renameTarget (IdNum 2) "subtopic"
               (sample_app sample_forest MemoryOnly) in
  let app' := confirmRename sample_stringify "C" sample_now Succeeds app in
  renameTargetId app = Some (IdNum 2)
  /\ renameTargetType app = Some "subtopic"
  /\ alerts app' = alerts app
  /\ (findTopicById (IdNum 2) (topics app) = None ->
      topics app' = topics app /\ storage app' = storage app)
  /\ (forall n,
        findTopicById (IdNum 2) (topics app) = Some n ->
        str_truthy "C" = true ->
        id_truthy (IdNum 2) = true ->
        str_truthy "subtopic" = true ->
        findTopicById (IdNum 2) (topics app') = Some (rename_node "C" sample_now n)
        /\ map (map_attrs without_name) (topics app')
           = map (map_attrs without_name) (topics app)
        /\ exists pre post,
             map attrs (getAllTopicsFlat (topics app)) = pre ++ attrs n :: post
             /\ map attrs (getAllTopicsFlat (topics app'))
                = pre ++ set_name "C" sample_now (attrs n) :: post
             /\ Forall (fun a => id a <> IdNum 2) pre).
Proof.
  split; [reflexivity|]. split; [reflexivity|].
  exact (confirmRename_spec sample_stringify
           (set_renameTarget (IdNum 2) "subtopic"
              (sample_app sample_forest MemoryOnly))
           (IdNum 2) "subtopic" "C" sample_now Succeeds eq_refl eq_refl).
Defined.

(** C9 as stated fails on two counts.  A target id that does not resolve
    is not reported: no message is shown and the state is the one before
    the context menu was opened.  And a node whose id is the number 0
    resolves but is not renamed, the id being falsy. *)
Lemma confirmRename_missing_target_is_silent :
  let app := sample_app sample_forest MemoryOnly in
  let zero := sample_app [sample_pdf_folder (IdNum 0) "Z"] MemoryOnly in
  findTopicById (IdNum 99) (topics app) = None
  /\ confirmRename sample_stringify "NEW" sample_now Succeeds
       (set_renameTarget (IdNum 99) "topic" app) = app
  /\ alerts app = []
  /\ findTopicById (IdNum 0) (topics zero) = Some (sample_pdf_folder (IdNum 0) "Z")
  /\ confirmRename sample_stringify "NEW" sample_now Succeeds
       (set_renameTarget (IdNum 0) "topic" zero) = zero.
Proof. repeat split. Qed.

(** ** No 'pdf-folder' with children *)

Lemma getAllTopicsFlat_app l1 l2 :
  getAllTopicsFlat (l1 ++ l2) = getAllTopicsFlat l1 ++ getAllTopicsFlat l2.
Proof.
  induction l1 as [|n r IH]; [done|].
  cbn [app getAllTopicsFlat]. by rewrite IH, app_assoc.
Qed.




Lemma flat_node_subset l n x :
  In n (getAllTopicsFlat l) -> In x (flat_node n) -> In x (getAllTopicsFlat l).
Proof.
  revert n x.
  induction l as [|a rest IH|a subs rest IHs IH] using forest_ind;
    intros n x Hn Hx; [done| |].
  - rewrite getAllTopicsFlat_cons in *. cbn [app] in *.
    destruct Hn as [<-|Hn].
    + rewrite flat_node_eq in Hx. destruct Hx as [<-|[]]. by left.
    + right. by apply (IH n).
  - rewrite getAllTopicsFlat_cons in *. destruct Hn as [<-|Hn].
    + rewrite flat_node_eq in Hx. destruct Hx as [<-|Hx]; [by left|].
      right. apply in_or_app. by left.
    + right. apply in_or_app. apply in_app_or in Hn as [Hn|Hn].
      * left. by apply (IHs n).
      * right. by apply (IH n).
Qed.




Lemma modifyById_Some i f l n :
  findTopicById i l = Some n -> exists l', modifyById i f l = Some l'.
Proof.
  revert n.
  induction l as [|a rest IH|a subs rest IHs IH] using forest_ind; intros n;
    [done| |].
  - rewrite findTopicById_cons, modifyById_cons.
    destruct (id_eqb (id a) i); [by eexists|].
    intros H. destruct (IH n H) as [l' ->]. by eexists.
  - rewrite findTopicById_cons, modifyById_cons.
    destruct (id_eqb (id a) i); [by eexists|].
    destruct (findTopicById i subs) as [m|] eqn:Es.
    + intros _. destruct (IHs m eq_refl) as [l' ->]. by eexists.
    + intros H. rewrite (modifyById_None _ _ _ Es).
      destruct (IH n H) as [l' ->]. by eexists.
Qed.









Section Invariant.

Variable toUpperCase : string -> string.
Variable JSON_stringify : list Node -> string.









End Invariant.



(** ** Keys *)

Lemma bare_key_ok_number z : bare_key_ok (id_toString (IdNum z)) = true.
Proof.
  unfold id_toString. destruct (Z.to_int z) as [u|u]; by destruct u.
Qed.

Lemma import_key_bare key :
  bare_key_ok key = true -> import_key key = "pdf_" +:+ key.
Proof.
  unfold bare_key_ok, import_key. intros H.
  apply andb_prop in H as [H _]. apply andb_prop in H as [H1 H2].
  apply negb_true_iff in H1, H2. by rewrite H1, H2.
Qed.

Lemma import_key_pdf i :
  bare_key_ok (id_toString i) = true -> import_key (id_toString i) = pdf_key i.
Proof. apply import_key_bare. Qed.

Lemma import_key_excel i : import_key (excel_key i) = excel_key i.
Proof.
  unfold import_key, excel_key. by destruct (id_toString i).
Qed.

Lemma import_key_not_snapshot key : import_key key <> STORAGE_KEY.
Proof.
  unfold import_key.
  destruct (String.prefix "pdf_" key || String.prefix "excel_" key) eqn:E;
    [|discriminate].
  intros ->. discriminate.
Qed.

(** ** Plain objects *)

Lemma obj_assign_In key value o k v :
  In (k, v) (obj_assign key value o) ->
  (k = key /\ v = value) \/ In (k, v) o.
Proof.
  induction o as [|[k0 v0] rest IH]; cbn.
  - intros [[= <- <-]|[]]. by left.
  - destruct (String.eqb k0 key) eqn:E.
    + apply String.eqb_eq in E as ->. intros [[= <- <-]|H]; [by left|].
      right. by right.
    + intros [H|H]; [right; by left|].
      destruct (IH H) as [?|?]; [by left|right; by right].
Qed.

Lemma obj_assign_has_key key value o : has_key key (obj_assign key value o).
Proof.
  induction o as [|[k0 v0] rest IH]; cbn.
  - exists value. by left.
  - destruct (String.eqb k0 key) eqn:E.
    + apply String.eqb_eq in E as ->. exists value. by left.
    + destruct IH as [v Hv]. exists v. by right.
Qed.

Lemma obj_assign_keeps_key key value o k :
  has_key k o -> has_key k (obj_assign key value o).
Proof.
  intros [v Hv]. induction o as [|[k0 v0] rest IH]; [done|]. cbn.
  destruct (String.eqb k0 key) eqn:E.
  - destruct Hv as [[= -> ->]|Hv].
    + exists value. by left.
    + exists v. by right.
  - destruct Hv as [[= -> ->]|Hv].
    + exists v. by left.
    + destruct (IH Hv) as [v' Hv']. exists v'. by right.
Qed.

Lemma obj_set_In key value o k v :
  In (k, v) (obj_set key value o) -> (k = key /\ v = value) \/ In (k, v) o.
Proof.
  unfold obj_set. destruct (String.eqb key "__proto__"); [by right|].
  apply obj_assign_In.
Qed.

Lemma obj_set_has_key key value o :
  String.eqb key "__proto__" = false -> has_key key (obj_set key value o).
Proof. unfold obj_set. intros ->. apply obj_assign_has_key. Qed.

Lemma obj_set_keeps_key key value o k :
  has_key k o -> has_key k (obj_set key value o).
Proof.
  unfold obj_set. destruct (String.eqb key "__proto__"); [done|].
  apply obj_assign_keeps_key.
Qed.

Lemma insert_index_In e l x : In x (insert_index e l) <-> x = e \/ In x l.
Proof.
  induction l as [|y rest IH]; cbn.
  - split; intros [H|H]; auto.
  - destruct (fst e <=? fst y)%N; cbn; [split; intros [H|H]; auto|].
    rewrite IH. tauto.
Qed.

(** [Object.entries] reorders the properties and neither drops nor adds
    one. *)
Lemma Object_entries_In o e : In e (Object_entries o) <-> In e o.
Proof.
  unfold Object_entries.
  assert (H : forall ix named, split_keys o = (ix, named) ->
                (In e (map snd ix ++ named) <-> In e o)).
  { induction o as [|[k v] rest IH]; intros ix named; cbn.
    - by intros [= <- <-].
    - destruct (split_keys rest) as [ix0 named0].
      specialize (IH ix0 named0 eq_refl). rewrite in_app_iff in IH.
      destruct (array_index k) as [n|]; intros [= <- <-];
        rewrite in_app_iff, <- IH.
      + rewrite in_map_iff. split.
        * intros [(x & <- & Hx)|H]; [|tauto].
          apply insert_index_In in Hx as [->|Hx]; [by left|].
          right. left. apply in_map_iff. by exists x.
        * intros [<-|[H|H]]; [| |tauto].
          -- left. exists (n, (k, v)). split; [done|].
             apply insert_index_In. by left.
          -- left. apply in_map_iff in H as (x & <- & Hx). exists x.
             split; [done|]. apply insert_index_In. by right.
      + cbn. tauto. }
  destruct (split_keys o) as [ix named]. by apply H.
Qed.

(** ** Export, then import *)

Lemma getFromStorage_Succeeds key st :
  exists v, getFromStorage Succeeds key st = Returned v.
Proof.
  unfold getFromStorage.
  destruct (uses_IndexedDB st); [by eexists|].
  destruct (uses_localStorage st); by eexists.
Qed.

Lemma export_pdfs_spec gets st flat :
  (forall n, gets n = Succeeds) ->
  (forall t, In t flat -> is_pdf_folder t = true ->
             bare_key_ok (id_toString (node_id t)) = true) ->
  forall n o,
    faithful st o ->
    exists o',
      export_pdfs gets st flat n o = Returned o'
      /\ faithful st o'
      /\ (forall k, has_key k o -> has_key k o')
      /\ (forall t v, In t flat -> is_pdf_folder t = true -> js_truthy v = true ->
            (getFromStorage Succeeds (pdf_key (node_id t)) st = Returned v ->
             has_key (id_toString (node_id t)) o')
            /\ (getFromStorage Succeeds (excel_key (node_id t)) st = Returned v ->
                has_key (excel_key (node_id t)) o')).
Proof.
  intros Hgets. induction flat as [|t rest IH]; intros Hok n o Ho.
  - exists o. cbn. repeat split; done.
  - cbn [export_pdfs].
    assert (Hrest : forall t', In t' rest -> is_pdf_folder t' = true ->
                      bare_key_ok (id_toString (node_id t')) = true).
    { intros t' Ht'. apply Hok. by right. }
    destruct (is_pdf_folder t) eqn:Ek.
    + rewrite !Hgets.
      pose proof (Hok t (or_introl eq_refl) Ek) as Hbare.
      destruct (getFromStorage_Succeeds (pdf_key (node_id t)) st) as [pdfData Hp].
      destruct (getFromStorage_Succeeds (excel_key (node_id t)) st) as [excelData He].
      rewrite Hp, He.
      set (o1 := if js_truthy pdfData
                 then obj_set (id_toString (node_id t)) pdfData o else o).
      set (o2 := if js_truthy excelData
                 then obj_set (excel_key (node_id t)) excelData o1 else o1).
      assert (Ho1 : faithful st o1).
      { unfold o1. destruct (js_truthy pdfData); [|done].
        intros k v Hin. apply obj_set_In in Hin as [[-> ->]|Hin]; [|by apply Ho].
        by rewrite import_key_pdf. }
      assert (Ho2 : faithful st o2).
      { unfold o2. destruct (js_truthy excelData); [|done].
        intros k v Hin. apply obj_set_In in Hin as [[-> ->]|Hin]; [|by apply Ho1].
        by rewrite import_key_excel. }
      assert (H01 : forall k, has_key k o -> has_key k o1).
      { intros k Hk. unfold o1. destruct (js_truthy pdfData); [|done].
        by apply obj_set_keeps_key. }
      assert (H12 : forall k, has_key k o1 -> has_key k o2).
      { intros k Hk. unfold o2. destruct (js_truthy excelData); [|done].
        by apply obj_set_keeps_key. }
      destruct (IH Hrest (S (S n)) o2 Ho2) as (o' & -> & Hf & Hkeep & Hall).
      exists o'. split; [done|]. split; [done|]. split; [by auto|].
      intros t0 v Hin Hk0 Htruthy. split; intros Hv.
      * destruct Hin as [<-|Hin]; [|by apply (Hall t0 v)].
        apply Hkeep, H12. unfold o1. rewrite Hp in Hv. injection Hv as ->.
        rewrite Htruthy. apply obj_set_has_key.
        unfold bare_key_ok in Hbare. apply andb_prop in Hbare as [_ Hbare].
        by apply negb_true_iff in Hbare.
      * destruct Hin as [<-|Hin]; [|by apply (Hall t0 v)].
        apply Hkeep. unfold o2. rewrite He in Hv. injection Hv as ->.
        rewrite Htruthy. apply obj_set_has_key.
        unfold excel_key. by destruct (id_toString (node_id t)).
    + destruct (IH Hrest n o Ho) as (o' & -> & Hf & Hkeep & Hall).
      exists o'. split; [done|]. split; [done|]. split; [done|].
      intros t0 v Hin Hk0 Htruthy.
      destruct Hin as [<-|Hin]; [congruence|by apply (Hall t0 v)].
Qed.

Lemma import_pdfs_spec now puts key s :
  (forall n, puts n = Succeeds) ->
  forall entries n st,
    (forall k v, In (k, v) entries -> import_key k = key -> v = JStr s) ->
    (getFromStorage Succeeds key st = Returned (JStr s)
     \/ exists k v, In (k, v) entries /\ import_key k = key) ->
    getFromStorage Succeeds key (import_pdfs now puts n entries st)
    = Returned (JStr s).
Proof.
  intros Hputs. induction entries as [|[k v] rest IH]; intros n st Hall Hsome.
  - destruct Hsome as [H|(k & v & [] & _)]. done.
  - cbn [import_pdfs]. rewrite Hputs. apply IH.
    + intros k' v' Hin. apply Hall. by right.
    + destruct (String.eqb (import_key k) key) eqn:E.
      * apply String.eqb_eq in E. left.
        rewrite (Hall k v (or_introl eq_refl) E), E.
        apply getFromStorage_saveToStorage_string.
      * apply String.eqb_neq in E.
        destruct Hsome as [H|(k' & v' & [[= <- <-]|Hin] & Hk')].
        -- left. by rewrite getFromStorage_saveToStorage_ne.
        -- done.
        -- right. by exists k', v'.
Qed.

(** C1, as amended.  Take a forest in which the id of every 'pdf-folder',
    written as a string, does not start with "pdf_" or "excel_" and is
    not "__proto__" (every numeric id qualifies), and let no read or
    blob write fail.  Then [exportAllData] produces an archive, and
    importing it, into the same state or any other, puts back the very
    same forest; and every 'pdf-folder' whose PDF, or whose converted
    Excel file, was a non-empty string before the export reads back as
    the same string after the import.  The archive is taken as parsed
    back unchanged from the JSON text that was written. *)
Theorem export_import_roundtrip (JSON_stringify : list Node -> string)
  (app target : App) (now now' : string) (gets puts : nat -> Backend)
  (be : Backend) :
  (forall n, gets n = Succeeds) ->
  (forall n, puts n = Succeeds) ->
  (forall t, In t (getAllTopicsFlat (topics app)) -> is_pdf_folder t = true ->
             bare_key_ok (id_toString (node_id t)) = true) ->
  exists archive,
    fst (exportAllData now gets app) = Some archive
    /\ let app' := performImport JSON_stringify (Parsed archive) now' be puts
                     target in
       topics app' = topics app
       /\ forall t s,
            In t (getAllTopicsFlat (topics app)) ->
            is_pdf_folder t = true ->
            str_truthy s = true ->
            (getFromStorage Succeeds (pdf_key (node_id t)) (storage app)
               = Returned (JStr s) ->
             getFromStorage Succeeds (pdf_key (node_id t)) (storage app')
               = Returned (JStr s))
            /\ (getFromStorage Succeeds (excel_key (node_id t)) (storage app)
                  = Returned (JStr s) ->
                getFromStorage Succeeds (excel_key (node_id t)) (storage app')
                  = Returned (JStr s)).
Proof.
  intros Hgets Hputs Hok. unfold exportAllData.
  destruct (export_pdfs_spec gets (storage app) (getAllTopicsFlat (topics app))
              Hgets Hok 0 []) as (pdfs & -> & Hf & _ & Hall); [by intros ? ? []|].
  eexists. split; [reflexivity|]. cbn [performImport a_topics a_pdfs].
  split; [done|]. intros t s Hin Hk Hs. cbn [storage resetMainContent alert set_storage].
  assert (Hwritten : forall key,
    has_key key pdfs ->
    getFromStorage Succeeds (import_key key) (storage app) = Returned (JStr s) ->
    getFromStorage Succeeds (import_key key)
      (import_pdfs now' puts 0 (Object_entries pdfs)
         (saveData JSON_stringify now' be (topics app) (storage target)))
    = Returned (JStr s)).
  { intros key [v Hv] Hsrc. apply import_pdfs_spec; [done| |].
    - intros k' v' Hin' Hk'.
      apply (proj1 (Object_entries_In pdfs (k', v'))) in Hin'.
      specialize (Hf k' v' Hin'). rewrite Hk' in Hf. congruence.
    - right. exists key, v.
      split; [by apply (proj2 (Object_entries_In pdfs (key, v)))|done]. }
  destruct (Hall t (JStr s) Hin Hk Hs) as [Hpdf Hexcel]. split; intros Hsrc.
  - rewrite <- import_key_pdf in Hsrc |- * by (by apply Hok).
    apply Hwritten; [|done]. apply Hpdf.
    by rewrite <- import_key_pdf by (by apply Hok).
  - rewrite <- import_key_excel in Hsrc |- *.
    apply Hwritten; [|done]. apply Hexcel. by rewrite <- import_key_excel.
Qed.

Lemma export_import_roundtrip_witness :
  let st := saveToStorage sample_now Succeeds "pdf_2" (JStr "JVBERi0=")
              (empty_storage LocalStorage) in
  let app := mkApp sample_forest None None None None st [] in
  let gets := fun _ : nat => Succeeds in
  let puts := fun _ : nat => Succeeds in
  (forall n, gets n = Succeeds)
  /\ (forall n, puts n = Succeeds)
  /\ (forall t, In t (getAllTopicsFlat (topics app)) -> is_pdf_folder t = true ->
                bare_key_ok (id_toString (node_id t)) = true)
  /\ exists archive,
       fst (exportAllData sample_now gets app) = Some archive
       /\ let app' := performImport sample_stringify (Parsed archive) sample_now
                        Succeeds puts (sample_app [] IndexedDB) in
          topics app' = topics app
          /\ forall t s,
               In t (getAllTopicsFlat (topics app)) ->
               is_pdf_folder t = true ->
               str_truthy s = true ->
               (getFromStorage Succeeds (pdf_key (node_id t)) (storage app)
                  = Returned (JStr s) ->
                getFromStorage Succeeds (pdf_key (node_id t)) (storage app')
                  = Returned (JStr s))
               /\ (getFromStorage Succeeds (excel_key (node_id t)) (storage app)
                     = Returned (JStr s) ->
                   getFromStorage Succeeds (excel_key (node_id t)) (storage app')
                     = Returned (JStr s)).
Proof.
  assert (Hok : forall t,
    In t (getAllTopicsFlat sample_forest) -> is_pdf_folder t = true ->
    bare_key_ok (id_toString (node_id t)) = true).
  { intros t [<-|[<-|[]]] _; reflexivity. }
  split; [reflexivity|]. split; [reflexivity|]. split; [exact Hok|].
  exact (export_import_roundtrip sample_stringify
           (mkApp sample_forest None None None None
              (saveToStorage sample_now Succeeds "pdf_2" (JStr "JVBERi0=")
                 (empty_storage LocalStorage)) [])
           (sample_app [] IndexedDB) sample_now sample_now
           (fun _ => Succeeds) (fun _ => Succeeds) Succeeds
           (fun _ => eq_refl) (fun _ => eq_refl) Hok).
Defined.

(** C1 as stated fails when an id, written as a string, starts with one
    of the two key prefixes.  Two 'pdf-folder' nodes with the distinct ids
    "x" and "pdf_x" hold the PDFs "P" and "Q"; the export emits them under
    the bare keys "x" and "pdf_x"; the import writes both to "pdf_x", "Q"
    last; afterwards the node "x" shows "Q". *)
Lemma export_import_crosses_payloads :
  let forest := [sample_pdf_folder (IdStr "x") "X";
                 sample_pdf_folder (IdStr "pdf_x") "Y"] in
  let st := saveToStorage sample_now Succeeds (pdf_key (IdStr "pdf_x")) (JStr "Q")
              (saveToStorage sample_now Succeeds (pdf_key (IdStr "x")) (JStr "P")
                 (empty_storage MemoryOnly)) in
  let app := mkApp forest None None None None st [] in
  let archive := mkArchive "3.0" sample_now (TopicsArray forest)
                   (Some [("x", JStr "P"); ("pdf_x", JStr "Q")]) in
  let exported := exportAllData sample_now (fun _ => Succeeds) app in
  let app' := performImport sample_stringify (Parsed archive) sample_now Succeeds
                (fun _ => Succeeds) (snd exported) in
  unique_ids forest
  /\ getFromStorage Succeeds (pdf_key (IdStr "x")) (storage app)
     = Returned (JStr "P")
  /\ getFromStorage Succeeds (pdf_key (IdStr "pdf_x")) (storage app)
     = Returned (JStr "Q")
  /\ fst exported = Some archive
  /\ topics app' = forest
  /\ getFromStorage Succeeds (pdf_key (IdStr "x")) (storage app')
     = Returned (JStr "Q").
Proof.
  repeat split; try by vm_compute.
  unfold unique_ids. cbn. apply NoDup_cons. split; [|apply NoDup_singleton].
  intros H. apply list_elem_of_In in H as [[=]|[]].
Qed.

(** * Further properties of the code *)

(** ** Lookup in any forest *)

Lemma findTopicById_Some_iff_In i l :
  (exists n, findTopicById i l = Some n) <-> In i (ids l).
Proof.
  unfold ids. split.
  - intros [n Hn]. apply in_map_iff. exists n.
    split; [by apply (findTopicById_id i l)|by apply (findTopicById_In i l)].
  - intros Hin. destruct (findTopicById i l) as [n|] eqn:E; [by exists n|].
    exfalso. apply findTopicById_None in E.
    apply in_map_iff in Hin as (n & Hid & Hn).
    rewrite Forall_forall in E. apply (E (attrs n)); [|done].
    apply list_elem_of_In, in_map, Hn.
Qed.

(** X1: in any forest, unique ids or not, [findTopicById] finds an id
    exactly when some node carries it, and what it returns is a node of
    the forest with that id, preceded in pre-order by no other node with
    that id. *)
Theorem findTopicById_sound_complete (i : JsId) (l : list Node) :
  (findTopicById i l = None <-> ~ In i (ids l))
  /\ (forall n, findTopicById i l = Some n ->
        node_id n = i
        /\ exists before after,
             getAllTopicsFlat l = before ++ n :: after
             /\ Forall (fun m => node_id m <> i) before).
Proof.
  split.
  - rewrite <- findTopicById_Some_iff_In. split.
    + intros -> [n [=]].
    + intros H. destruct (findTopicById i l) as [n|]; [|done].
      exfalso. apply H. by exists n.
  - intros n Hn. split; [by apply (findTopicById_id i l)|].
    rewrite findTopicById_flat in Hn.
    induction (getAllTopicsFlat l) as [|x r IH]; [done|].
    cbn in Hn. unfold has_id at 1 in Hn.
    destruct (id_eqb (node_id x) i) eqn:E.
    + injection Hn as <-. exists [], r. by split.
    + destruct (IH Hn) as (before & after & -> & Hb).
      exists (x :: before), after. split; [done|].
      constructor; [by apply id_eqb_neq|done].
Qed.

(** ** The parent lookup *)

Lemma parent_in_node_eq i a l :
  parent_in_node i (mkNode a (Some l)) =
  parent_scan i (mkNode a (Some l)) (findParentTopic i l) l.
Proof.
  assert (H : forall cs,
    (fix inner (children : list Node) : option Node :=
       match children with
       | [] => None
       | subtopic :: more =>
           if id_eqb (node_id subtopic) i then Some (mkNode a (Some l))
           else
             match subtopics subtopic with
             | Some _ =>
                 match findParentTopic i l with
                 | Some found => Some found
                 | None => inner more
                 end
             | None => inner more
             end
       end) cs
    = parent_scan i (mkNode a (Some l)) (findParentTopic i l) cs).
  { induction cs as [|c r IH]; [done|]. cbn [parent_scan]. by rewrite <- IH. }
  exact (H l).
Qed.

Lemma findParentTopic_cons i t rest :
  findParentTopic i (t :: rest) =
  match parent_in_node i t with
  | Some found => Some found
  | None => findParentTopic i rest
  end.
Proof. done. Qed.

Lemma parent_scan_Some i topic below cs p :
  parent_scan i topic below cs = Some p ->
  (p = topic /\ exists c, In c cs /\ node_id c = i) \/ below = Some p.
Proof.
  induction cs as [|c r IH]; [done|]. cbn [parent_scan].
  destruct (id_eqb (node_id c) i) eqn:E.
  - intros [= <-]. left. split; [done|]. exists c.
    split; [by left|by apply id_eqb_eq].
  - assert (Hr : parent_scan i topic below r = Some p ->
                 (p = topic /\ exists c0, In c0 (c :: r) /\ node_id c0 = i)
                 \/ below = Some p).
    { intros H. destruct (IH H) as [[-> (c0 & Hc0 & Hid)]|Hb]; [|by right].
      left. split; [done|]. exists c0. split; [by right|done]. }
    destruct (subtopics c); [|done].
    destruct below as [f|]; [|done]. intros [= <-]. by right.
Qed.

Lemma parent_scan_child i topic below cs :
  (exists c, In c cs /\ node_id c = i) ->
  exists p, parent_scan i topic below cs = Some p.
Proof.
  intros (c & Hc & Hid). induction cs as [|x r IH]; [done|].
  cbn [parent_scan]. destruct (id_eqb (node_id x) i) eqn:E; [by eexists|].
  destruct Hc as [->|Hc]; [by rewrite Hid, id_eqb_refl in E|].
  destruct (subtopics x); [|by apply IH].
  destruct below; [by eexists|by apply IH].
Qed.

Lemma parent_scan_below i topic f cs :
  (exists c, In c cs /\ subtopics c <> None) ->
  exists p, parent_scan i topic (Some f) cs = Some p.
Proof.
  intros (c & Hc & Hs). induction cs as [|x r IH]; [done|].
  cbn [parent_scan]. destruct (id_eqb (node_id x) i); [by eexists|].
  destruct Hc as [->|Hc].
  - destruct (subtopics c); [by eexists|done].
  - destruct (subtopics x); [by eexists|by apply IH].
Qed.

Lemma nested_cons a subs rest :
  nested (mkNode a subs :: rest) =
  match subs with Some l => getAllTopicsFlat l | None => [] end ++ nested rest.
Proof. by destruct subs. Qed.

(** Every node of a forest is a root or lies below one. *)
Lemma getAllTopicsFlat_roots_nested l n :
  In n (getAllTopicsFlat l) <-> In n l \/ In n (nested l).
Proof.
  induction l as [|[a subs] rest IH]; [cbn; tauto|].
  rewrite getAllTopicsFlat_cons, nested_cons. cbn [In].
  rewrite !in_app_iff, IH. tauto.
Qed.

Lemma nested_has_parent l n :
  In n (nested l) -> exists t, In t l /\ subtopics t <> None.
Proof.
  induction l as [|[a subs] rest IH]; [done|].
  rewrite nested_cons, in_app_iff. intros [H|H].
  - exists (mkNode a subs). split; [by left|]. by destruct subs.
  - destruct (IH H) as (t & Ht & Hs). exists t. split; [by right|done].
Qed.

(** The children of a node of the forest are nested nodes of the forest. *)
Lemma children_nested l p c :
  In p (getAllTopicsFlat l) -> In c (children p) -> In c (nested l).
Proof.
  revert p c.
  induction l as [|a rest IH|a subs rest IHs IH] using forest_ind;
    intros p c Hp Hc; [done| |].
  - rewrite getAllTopicsFlat_cons in Hp. rewrite nested_cons.
    destruct Hp as [<-|Hp]; [done|]. cbn in Hp. by apply (IH p).
  - rewrite getAllTopicsFlat_cons in Hp. rewrite nested_cons.
    apply in_app_iff. destruct Hp as [<-|Hp].
    + left. apply getAllTopicsFlat_roots_nested. by left.
    + apply in_app_iff in Hp as [Hp|Hp].
      * left. apply getAllTopicsFlat_roots_nested. right. by apply (IHs p).
      * right. by apply (IH p).
Qed.

Lemma findParentTopic_sound i l p :
  findParentTopic i l = Some p ->
  In p (getAllTopicsFlat l) /\ exists c, In c (children p) /\ node_id c = i.
Proof.
  revert p.
  induction l as [|a rest IH|a subs rest IHs IH] using forest_ind; intros p;
    [done| |].
  - rewrite findParentTopic_cons. cbn [parent_in_node]. intros H.
    destruct (IH p H) as [H1 H2]. split; [|done].
    rewrite getAllTopicsFlat_cons. by right.
  - rewrite findParentTopic_cons, parent_in_node_eq.
    destruct (parent_scan i (mkNode a (Some subs)) (findParentTopic i subs) subs)
      as [q|] eqn:Eq.
    + intros [= <-]. rewrite getAllTopicsFlat_cons.
      destruct (parent_scan_Some _ _ _ _ _ Eq) as [[-> Hc]|Hb].
      * split; [by left|done].
      * destruct (IHs q Hb) as [H1 H2]. split; [|done].
        right. apply in_app_iff. by left.
    + intros H. destruct (IH p H) as [H1 H2]. split; [|done].
      rewrite getAllTopicsFlat_cons. right. apply in_app_iff. by right.
Qed.

Lemma findParentTopic_complete i l :
  (exists c, In c (nested l) /\ node_id c = i) ->
  exists p, findParentTopic i l = Some p.
Proof.
  induction l as [|a rest IH|a subs rest IHs IH] using forest_ind;
    intros (c & Hc & Hid); [done| |].
  - rewrite findParentTopic_cons. cbn [parent_in_node].
    rewrite nested_cons in Hc. apply IH. by exists c.
  - rewrite findParentTopic_cons, parent_in_node_eq.
    rewrite nested_cons, in_app_iff in Hc.
    destruct (parent_scan i (mkNode a (Some subs)) (findParentTopic i subs) subs)
      as [q|] eqn:Eq; [by eexists|].
    destruct Hc as [Hc|Hc]; [|apply IH; by exists c].
    exfalso. apply getAllTopicsFlat_roots_nested in Hc as [Hc|Hc].
    + destruct (parent_scan_child i (mkNode a (Some subs))
                  (findParentTopic i subs) subs) as [p Hp]; [by exists c|].
      congruence.
    + destruct (IHs (ex_intro _ c (conj Hc Hid))) as [f Hf].
      destruct (nested_has_parent _ _ Hc) as (t & Ht & Hs).
      destruct (parent_scan_below i (mkNode a (Some subs)) f subs) as [p Hp];
        [by exists t|].
      rewrite Hf in Eq. congruence.
Qed.

(** X2: what [findParentTopic] returns is a node of the forest that has a
    direct child with the given id; it returns [null] exactly when no
    node below root level has that id, so in particular for the id of a
    root-level topic that occurs nowhere else. *)
Theorem findParentTopic_spec (i : JsId) (l : list Node) :
  (forall p, findParentTopic i l = Some p ->
     In p (getAllTopicsFlat l)
     /\ exists c, In c (children p) /\ node_id c = i)
  /\ (findParentTopic i l = None <->
      forall c, In c (nested l) -> node_id c <> i).
Proof.
  split; [apply findParentTopic_sound|]. split.
  - intros Hnone c Hc Hid.
    destruct (findParentTopic_complete i l (ex_intro _ c (conj Hc Hid))) as [p Hp].
    congruence.
  - intros Hall. destruct (findParentTopic i l) as [p|] eqn:E; [|done].
    destruct (findParentTopic_sound i l p E) as (Hp & c & Hc & Hid).
    exfalso. apply (Hall c); [|done]. by apply (children_nested l p).
Qed.

(** ** What a mutation through [findTopicById] does to the forest *)

Lemma ids_cons a subs rest :
  ids (mkNode a subs :: rest) =
  id a :: ids (default [] subs) ++ ids rest.
Proof.
  unfold ids. rewrite getAllTopicsFlat_cons. cbn. rewrite map_app.
  by destruct subs.
Qed.

Lemma ids_attrs l : ids l = map id (map attrs (getAllTopicsFlat l)).
Proof. unfold ids. by rewrite map_map. Qed.

Lemma findTopicById_app i l1 l2 :
  findTopicById i (l1 ++ l2) =
  match findTopicById i l1 with
  | Some found => Some found
  | None => findTopicById i l2
  end.
Proof.
  by rewrite !findTopicById_flat, getAllTopicsFlat_app, find_app_first.
Qed.

Lemma findTopicById_fresh i l : ~ In i (ids l) -> findTopicById i l = None.
Proof.
  intros H. destruct (findTopicById i l) as [n|] eqn:E; [|done].
  exfalso. apply H, findTopicById_Some_iff_In. by exists n.
Qed.

(** For any [f]: the subtree of the first pre-order match is replaced by
    the subtree of its image, and the attributes of every other node stay
    where they are. *)
Lemma modifyById_flat i f l n :
  findTopicById i l = Some n ->
  exists l' pre post,
    modifyById i f l = Some l'
    /\ map attrs (getAllTopicsFlat l) = pre ++ map attrs (flat_node n) ++ post
    /\ map attrs (getAllTopicsFlat l')
       = pre ++ map attrs (flat_node (f n)) ++ post
    /\ Forall (fun a => id a <> i) pre.
Proof.
  revert n.
  induction l as [|a rest IH|a subs rest IHs IH] using forest_ind; intros n;
    [done| |].
  - rewrite findTopicById_cons, modifyById_cons.
    destruct (id_eqb (id a) i) eqn:E.
    + intros [= <-]. exists (f (mkNode a None) :: rest), [],
        (map attrs (getAllTopicsFlat rest)).
      cbn [getAllTopicsFlat app]. rewrite !map_app. by repeat split.
    + intros H. destruct (IH n H) as (l' & pre & post & -> & H1 & H2 & H3).
      exists (mkNode a None :: l'), (a :: pre), post.
      rewrite !getAllTopicsFlat_cons. cbn. rewrite H1, H2.
      repeat split. constructor; [by apply id_eqb_neq|done].
  - rewrite findTopicById_cons, modifyById_cons.
    destruct (id_eqb (id a) i) eqn:E.
    + intros [= <-]. exists (f (mkNode a (Some subs)) :: rest), [],
        (map attrs (getAllTopicsFlat rest)).
      cbn [getAllTopicsFlat app]. rewrite !map_app. by repeat split.
    + destruct (findTopicById i subs) as [m|] eqn:Es.
      * intros [= <-].
        destruct (IHs m eq_refl) as (l' & pre & post & -> & H1 & H2 & H3).
        exists (mkNode a (Some l') :: rest), (a :: pre),
          (post ++ map attrs (getAllTopicsFlat rest)).
        rewrite !getAllTopicsFlat_cons. cbn [map attrs app].
        rewrite ?map_app, ?H1, ?H2, <- ?app_assoc. repeat split.
        constructor; [by apply id_eqb_neq|done].
      * intros H. rewrite (modifyById_None _ _ _ Es).
        destruct (IH n H) as (l' & pre & post & -> & H1 & H2 & H3).
        exists (mkNode a (Some subs) :: l'),
          (a :: map attrs (getAllTopicsFlat subs) ++ pre), post.
        rewrite !getAllTopicsFlat_cons. cbn [map option_map attrs app].
        rewrite ?map_app, ?H1, ?H2, <- ?app_assoc. repeat split.
        constructor; [by apply id_eqb_neq|].
        apply Forall_app. split; [by apply findTopicById_None|done].
Qed.

Lemma update_found_Some i f l l' :
  modifyById i f l = Some l' -> update_found i f l = l'.
Proof. unfold update_found. by intros ->. Qed.

(** Two mutations of the same id, the first keeping the id, are one. *)
Lemma modifyById_twice i f g l n l1 :
  (forall m, node_id (f m) = node_id m) ->
  findTopicById i l = Some n ->
  modifyById i f l = Some l1 ->
  modifyById i g l1 = modifyById i (fun m => g (f m)) l.
Proof.
  intros Hid. revert n l1.
  induction l as [|a rest IH|a subs rest IHs IH] using forest_ind;
    intros n l1; [done| |].
  - rewrite findTopicById_cons, !modifyById_cons.
    destruct (id_eqb (id a) i) eqn:E.
    + intros _ [= <-]. specialize (Hid (mkNode a None)).
      destruct (f (mkNode a None)) as [a' s'] eqn:Ef. unfold node_id in Hid.
      cbn in Hid. by rewrite modifyById_cons, Hid, E.
    + intros Hn Hm. destruct (modifyById i f rest) as [r1|] eqn:Er; [|done].
      injection Hm as <-. rewrite modifyById_cons, E.
      by rewrite (IH n r1 Hn eq_refl).
  - rewrite findTopicById_cons, !modifyById_cons.
    destruct (id_eqb (id a) i) eqn:E.
    + intros _ [= <-]. specialize (Hid (mkNode a (Some subs))).
      destruct (f (mkNode a (Some subs))) as [a' s'] eqn:Ef.
      unfold node_id in Hid. cbn in Hid. by rewrite modifyById_cons, Hid, E.
    + destruct (findTopicById i subs) as [m|] eqn:Es.
      * intros _ Hm. destruct (modifyById i f subs) as [s1|] eqn:Em.
        -- injection Hm as <-. rewrite modifyById_cons, E.
           rewrite (IHs m s1 eq_refl eq_refl).
           by destruct (modifyById_Some i (fun m0 => g (f m0)) subs m Es) as [? ->].
        -- destruct (modifyById_Some i f subs m Es) as [? Hx]. congruence.
      * intros Hn Hm. rewrite (modifyById_None i f _ Es) in Hm.
        rewrite (modifyById_None i (fun m0 => g (f m0)) _ Es).
        destruct (modifyById i f rest) as [r1|] eqn:Er; [|done].
        injection Hm as <-.
        rewrite modifyById_cons, E, (modifyById_None i g _ Es).
        by rewrite (IH n r1 Hn eq_refl).
Qed.

(** A mutation that leaves the found node as it is leaves the forest as
    it is. *)
Lemma modifyById_fixed i f l n :
  findTopicById i l = Some n -> f n = n -> modifyById i f l = Some l.
Proof.
  revert n.
  induction l as [|a rest IH|a subs rest IHs IH] using forest_ind; intros n;
    [done| |].
  - rewrite findTopicById_cons, modifyById_cons.
    destruct (id_eqb (id a) i); [by intros [= <-] ->|].
    intros Hn Hf. by rewrite (IH n Hn Hf).
  - rewrite findTopicById_cons, modifyById_cons.
    destruct (id_eqb (id a) i); [by intros [= <-] ->|].
    destruct (findTopicById i subs) as [m|] eqn:Es.
    + intros [= <-] Hf. by rewrite (IHs m eq_refl Hf).
    + intros Hn Hf. by rewrite (modifyById_None _ _ _ Es), (IH n Hn Hf).
Qed.

Lemma toggle_node_twice n : toggle_node (toggle_node n) = n.
Proof.
  destruct n as [[i nm ic d ft e cd ud lm] subs]. unfold toggle_node, flip_expanded.
  cbn. by rewrite negb_involutive.
Qed.

Lemma modifyById_find i f l n l1 :
  (forall m, node_id (f m) = node_id m) ->
  findTopicById i l = Some n ->
  modifyById i f l = Some l1 ->
  findTopicById i l1 = Some (f n).
Proof.
  intros Hid. revert n l1.
  assert (Hhead : forall m rest,
    id_eqb (node_id m) i = true -> findTopicById i (f m :: rest) = Some (f m)).
  { intros m rest E. rewrite <- (Hid m) in E.
    destruct (f m) as [a' s']. unfold node_id in E. cbn [attrs] in E.
    by rewrite findTopicById_cons, E. }
  induction l as [|a rest IH|a subs rest IHs IH] using forest_ind;
    intros n l1; [done| |].
  - rewrite findTopicById_cons, modifyById_cons.
    destruct (id_eqb (id a) i) eqn:E.
    + intros [= <-] [= <-]. by apply Hhead.
    + intros Hn Hm. destruct (modifyById i f rest) as [r1|] eqn:Er; [|done].
      injection Hm as <-. rewrite findTopicById_cons, E. by apply (IH n).
  - rewrite findTopicById_cons, modifyById_cons.
    destruct (id_eqb (id a) i) eqn:E.
    + intros [= <-] [= <-]. by apply Hhead.
    + destruct (findTopicById i subs) as [m|] eqn:Es.
      * intros [= <-] Hm. destruct (modifyById i f subs) as [s1|] eqn:Em.
        -- injection Hm as <-. rewrite findTopicById_cons, E.
           by rewrite (IHs m s1 eq_refl eq_refl).
        -- destruct (modifyById_Some i f subs m Es) as [? Hx]. congruence.
      * intros Hn Hm. rewrite (modifyById_None _ _ _ Es) in Hm.
        destruct (modifyById i f rest) as [r1|] eqn:Er; [|done].
        injection Hm as <-. rewrite findTopicById_cons, E, Es.
        by apply (IH n).
Qed.

(** X3: toggling the same id twice puts the forest back as it was,
    whatever the id: missing, without children, or with children. *)
Theorem toggleTopic_twice (JSON_stringify : list Node -> string) (i : JsId)
  (now now' : string) (be be' : Backend) (app : App) :
  topics (toggleTopic JSON_stringify i now' be'
            (toggleTopic JSON_stringify i now be app))
  = topics app.
Proof.
  unfold toggleTopic at 2.
  destruct (findTopicById i (topics app)) as [n|] eqn:En.
  - destruct (has_subtopics n) eqn:Eh.
    + destruct (modifyById_Some i toggle_node (topics app) n En) as [l1 Hm].
      pose proof (modifyById_find i toggle_node (topics app) n l1
                    (fun m => eq_refl) En Hm) as Hf.
      unfold toggleTopic. rewrite !topics_commit, (update_found_Some _ _ _ _ Hm), Hf.
      change (has_subtopics (toggle_node n)) with (has_subtopics n). rewrite Eh.
      rewrite topics_commit. unfold update_found.
      rewrite (modifyById_twice i toggle_node toggle_node (topics app) n l1
                 (fun m => eq_refl) En Hm).
      rewrite (modifyById_fixed i _ (topics app) n En (toggle_node_twice n)).
      done.
    + unfold toggleTopic. by rewrite En, Eh.
  - unfold toggleTopic. by rewrite En.
Qed.

(** ** Creating *)

Lemma topicCount_app l1 l2 : topicCount (l1 ++ l2) = topicCount l1 + topicCount l2.
Proof. by rewrite !topicCount_length, getAllTopicsFlat_app, length_app. Qed.

Lemma children_new_node a (folderType : string) :
  children (mkNode a (if String.eqb folderType "folder" then Some [] else None))
  = [].
Proof. by destruct (String.eqb folderType "folder"). Qed.

Lemma findTopicById_single i n :
  node_id n = i -> findTopicById i [n] = Some n.
Proof.
  destruct n as [a subs]. unfold node_id. cbn [attrs]. intros <-.
  by rewrite findTopicById_cons, id_eqb_refl.
Qed.

(** X4: [createTopic] with a non-empty name appends exactly one root
    topic carrying the new id and the upper-cased name and no children;
    every id that resolved before resolves to the same node, and when
    the new id was not in use it resolves to the new topic. *)
Theorem createTopic_appends (toUpperCase : string -> string)
  (JSON_stringify : list Node -> string) (title folderType : string)
  (newId : JsId) (now : string) (be : Backend) (app : App) :
  str_truthy title = true ->
  let app' := createTopic toUpperCase JSON_stringify title folderType newId
                now be app in
  exists newTopic,
    topics app' = topics app ++ [newTopic]
    /\ node_id newTopic = newId
    /\ name (attrs newTopic) = toUpperCase title
    /\ children newTopic = []
    /\ topicCount (topics app') = S (topicCount (topics app))
    /\ (forall j n, findTopicById j (topics app) = Some n ->
                    findTopicById j (topics app') = Some n)
    /\ (~ In newId (ids (topics app)) ->
        findTopicById newId (topics app') = Some newTopic).
Proof.
  intros Ht app'. subst app'. unfold createTopic. rewrite Ht, topics_commit.
  eexists. split; [reflexivity|]. split; [reflexivity|]. split; [reflexivity|].
  split; [apply children_new_node|]. split; [|split].
  - rewrite topicCount_app, !topicCount_length. cbn [getAllTopicsFlat].
    rewrite app_nil_r, length_flat_node, countAllItems_eq.
    unfold count_subtopics. destruct (String.eqb folderType "folder"); cbn; lia.
  - intros j n Hj. by rewrite findTopicById_app, Hj.
  - intros Hfresh. rewrite findTopicById_app, (findTopicById_fresh _ _ Hfresh).
    by apply findTopicById_single.
Qed.

Lemma createTopic_appends_witness :
  let app := sample_app sample_forest MemoryOnly in
  let app' := createTopic (fun s => s) sample_stringify "BILLS" "folder"
                (IdNum 7) sample_now Succeeds app in
  str_truthy "BILLS" = true
  /\ exists newTopic,
       topics app' = topics app ++ [newTopic]
       /\ node_id newTopic = IdNum 7
       /\ name (attrs newTopic) = "BILLS"
       /\ children newTopic = []
       /\ topicCount (topics app') = S (topicCount (topics app))
       /\ (forall j n, findTopicById j (topics app) = Some n ->
                       findTopicById j (topics app') = Some n)
       /\ (~ In (IdNum 7) (ids (topics app)) ->
           findTopicById (IdNum 7) (topics app') = Some newTopic).
Proof.
  split; [reflexivity|].
  exact (createTopic_appends (fun s => s) sample_stringify "BILLS" "folder"
           (IdNum 7) sample_now Succeeds (sample_app sample_forest MemoryOnly)
           eq_refl).
Defined.

Lemma push_find i j c l p l1 :
  findTopicById i l = Some p ->
  ~ In j (ids l) ->
  node_id c = j ->
  modifyById i (push_subtopic c) l = Some l1 ->
  findTopicById j l1 = Some c.
Proof.
  intros Hp Hj Hc. revert p l1 Hp Hj.
  assert (Hhead : forall a subs rest,
    id_eqb (id a) j = false ->
    ~ In j (ids (default [] subs)) ->
    findTopicById j (push_subtopic c (mkNode a subs) :: rest) = Some c).
  { intros a subs rest E Hs. unfold push_subtopic. cbn [attrs subtopics].
    rewrite findTopicById_cons, E, findTopicById_app.
    by rewrite (findTopicById_fresh _ _ Hs), (findTopicById_single j c Hc). }
  induction l as [|a rest IH|a subs rest IHs IH] using forest_ind;
    intros p l1; [done| |].
  - rewrite findTopicById_cons, modifyById_cons, ids_cons. cbn [In].
    intros Hp Hj Hm.
    assert (E : id_eqb (id a) j = false) by (apply id_eqb_neq; tauto).
    destruct (id_eqb (id a) i).
    + injection Hm as <-. apply Hhead; [done|]. by intros [].
    + destruct (modifyById i (push_subtopic c) rest) as [r1|] eqn:Er; [|done].
      injection Hm as <-. rewrite findTopicById_cons, E.
      apply (IH p r1 Hp); [tauto|done].
  - rewrite findTopicById_cons, modifyById_cons, ids_cons. cbn [In].
    rewrite in_app_iff. change (default [] (Some subs)) with subs.
    intros Hp Hj Hm.
    assert (E : id_eqb (id a) j = false) by (apply id_eqb_neq; tauto).
    destruct (id_eqb (id a) i).
    + injection Hm as <-. apply Hhead; [done|]. cbn. tauto.
    + destruct (findTopicById i subs) as [m|] eqn:Es.
      * destruct (modifyById i (push_subtopic c) subs) as [s1|] eqn:Em.
        -- injection Hm as <-. rewrite findTopicById_cons, E.
           rewrite (IHs m s1 eq_refl); [done|tauto|done].
        -- destruct (modifyById_Some i (push_subtopic c) subs m Es) as [? Hx].
           congruence.
      * rewrite (modifyById_None _ _ _ Es) in Hm.
        destruct (modifyById i (push_subtopic c) rest) as [r1|] eqn:Er; [|done].
        injection Hm as <-. rewrite findTopicById_cons, E.
        rewrite (findTopicById_fresh j subs) by tauto.
        apply (IH p r1 Hp); [tauto|done].
Qed.

(** X5: when the parent resolves to a node that is not a 'pdf-folder',
    its id is truthy and the name is not empty, [insertChild] adds exactly
    one node: the parent keeps its attributes and gets the new node as
    its last child, the node count grows by one, and when the new id was
    not in use it resolves to the new node. *)
Theorem insertChild_adds_last_child (JSON_stringify : list Node -> string)
  (app : App) (parentId : JsId) (title descr folderType : string)
  (newId : JsId) (now : string) (be : Backend) (p : Node) :
  findTopicById parentId (topics app) = Some p ->
  is_pdf_folder p = false ->
  id_truthy parentId = true ->
  str_truthy title = true ->
  let r := insertChild JSON_stringify parentId title descr folderType newId
             now be app in
  fst r = DialogOpened
  /\ exists newSubtopic,
       node_id newSubtopic = newId
       /\ name (attrs newSubtopic) = title
       /\ children newSubtopic = []
       /\ findTopicById parentId (topics (snd r))
          = Some (mkNode (attrs p) (Some (children p ++ [newSubtopic])))
       /\ topicCount (topics (snd r)) = S (topicCount (topics app))
       /\ (~ In newId (ids (topics app)) ->
           findTopicById newId (topics (snd r)) = Some newSubtopic).
Proof.
  intros Hp Hk Hi Ht r. subst r. unfold insertChild, addSubtopic.
  rewrite Hp, Hk. cbn [fst snd]. split; [done|].
  unfold createSubtopic. cbn [currentTopicId set_currentTopicId topics].
  rewrite Ht, Hi, Hp. cbn [andb]. rewrite topics_commit.
  cbn [topics set_currentTopicId].
  set (c := mkNode _ _).
  destruct (modifyById_Some parentId (push_subtopic c) (topics app) p Hp)
    as [l1 Hm].
  rewrite (update_found_Some _ _ _ _ Hm).
  exists c. split; [done|]. split; [done|].
  split; [apply children_new_node|]. split; [|split].
  - apply (modifyById_find parentId (push_subtopic c) (topics app) p l1);
      [by intros [? ?]|done|done].
  - destruct (modifyById_flat parentId (push_subtopic c) (topics app) p Hp)
      as (l' & pre & post & Hm' & H1 & H2 & _).
    rewrite Hm in Hm'. injection Hm' as <-.
    rewrite !topicCount_length.
    rewrite <- (length_map attrs (getAllTopicsFlat l1)), H2.
    rewrite <- (length_map attrs (getAllTopicsFlat (topics app))), H1.
    rewrite !length_app, !length_map, !length_flat_node.
    destruct p as [a subs]. unfold push_subtopic. cbn [attrs subtopics].
    rewrite !countAllItems_eq. unfold count_subtopics.
    rewrite <- !length_getAllTopicsFlat, getAllTopicsFlat_app, length_app.
    cbn [getAllTopicsFlat]. rewrite app_nil_r, length_flat_node.
    unfold c. rewrite countAllItems_eq. unfold count_subtopics.
    rewrite length_getAllTopicsFlat.
    destruct subs as [cs|], (String.eqb folderType "folder"); cbn; lia.
  - intros Hfresh.
    by apply (push_find parentId newId c (topics app) p l1).
Qed.

Lemma insertChild_adds_last_child_witness :
  let app := sample_app sample_forest MemoryOnly in
  let p := sample_folder (IdNum 1) "A" [sample_pdf_folder (IdNum 2) "B"] in
  let r := insertChild sample_stringify (IdNum 1) "C" "" "pdf-folder" (IdNum 3)
             sample_now Succeeds app in
  findTopicById (IdNum 1) (topics app) = Some p
  /\ is_pdf_folder p = false
  /\ id_truthy (IdNum 1) = true
  /\ str_truthy "C" = true
  /\ fst r = DialogOpened
  /\ exists newSubtopic,
       node_id newSubtopic = IdNum 3
       /\ name (attrs newSubtopic) = "C"
       /\ children newSubtopic = []
       /\ findTopicById (IdNum 1) (topics (snd r))
          = Some (mkNode (attrs p) (Some (children p ++ [newSubtopic])))
       /\ topicCount (topics (snd r)) = S (topicCount (topics app))
       /\ (~ In (IdNum 3) (ids (topics app)) ->
           findTopicById (IdNum 3) (topics (snd r)) = Some newSubtopic).
Proof.
  split; [reflexivity|]. split; [reflexivity|]. split; [reflexivity|].
  split; [reflexivity|].
  exact (insertChild_adds_last_child sample_stringify
           (sample_app sample_forest MemoryOnly) (IdNum 1) "C" "" "pdf-folder"
           (IdNum 3) sample_now Succeeds
           (sample_folder (IdNum 1) "A" [sample_pdf_folder (IdNum 2) "B"])
           eq_refl eq_refl eq_refl eq_refl).
Defined.

(** ** Creating, then deleting *)

Lemma removeFromArray_fresh i l : ~ In i (ids l) -> removeFromArray i l = None.
Proof. intros H. by apply removeFromArray_None, findTopicById_fresh. Qed.

Lemma removeFromArray_app_fresh j c l :
  ~ In j (ids l) -> node_id c = j -> removeFromArray j (l ++ [c]) = Some l.
Proof.
  intros Hj Hc. induction l as [|[a subs] rest IH].
  - destruct c as [a' s']. unfold node_id in Hc. cbn [attrs] in Hc.
    cbn [app]. by rewrite removeFromArray_cons, Hc, id_eqb_refl.
  - rewrite ids_cons in Hj. cbn [In] in Hj. rewrite in_app_iff in Hj.
    cbn [app]. rewrite removeFromArray_cons.
    assert (E : id_eqb (id a) j = false) by (apply id_eqb_neq; tauto).
    rewrite E, IH by tauto.
    destruct subs as [cs|]; [|done].
    by rewrite (removeFromArray_fresh j cs) by tauto.
Qed.

(** X6: creating a root topic under an id that was not in use and then
    deleting that id gives back the forest as it was before. *)
Theorem createTopic_then_deleteTopic (toUpperCase : string -> string)
  (JSON_stringify : list Node -> string) (title folderType : string)
  (newId : JsId) (now now' : string) (be be' : Backend) (app : App) :
  str_truthy title = true ->
  ~ In newId (ids (topics app)) ->
  topics (deleteTopic JSON_stringify newId true now' be'
            (createTopic toUpperCase JSON_stringify title folderType newId
               now be app))
  = topics app.
Proof.
  intros Ht Hfresh. unfold createTopic. rewrite Ht. set (c := mkNode _ _).
  assert (Hid : node_id c = newId) by done.
  unfold deleteTopic. rewrite !topics_commit.
  rewrite findTopicById_app, (findTopicById_fresh _ _ Hfresh).
  rewrite (findTopicById_single newId c Hid).
  by rewrite (removeFromArray_app_fresh newId c (topics app) Hfresh Hid).
Qed.

Lemma createTopic_then_deleteTopic_witness :
  let app := sample_app sample_forest MemoryOnly in
  str_truthy "BILLS" = true
  /\ ~ In (IdNum 7) (ids (topics app))
  /\ topics (deleteTopic sample_stringify (IdNum 7) true sample_now Succeeds
               (createTopic (fun s => s) sample_stringify "BILLS" "folder"
                  (IdNum 7) sample_now Succeeds app))
     = topics app.
Proof.
  assert (H : ~ In (IdNum 7) (ids (topics (sample_app sample_forest MemoryOnly)))).
  { intros [[=]|[[=]|[]]]. }
  split; [reflexivity|]. split; [exact H|].
  exact (createTopic_then_deleteTopic (fun s => s) sample_stringify "BILLS"
           "folder" (IdNum 7) sample_now sample_now Succeeds Succeeds
           (sample_app sample_forest MemoryOnly) eq_refl H).
Defined.

Lemma push_then_remove i j c l p l1 :
  findTopicById i l = Some p ->
  ~ In j (ids l) ->
  node_id c = j ->
  modifyById i (push_subtopic c) l = Some l1 ->
  removeFromArray j l1 =
  modifyById i (fun parent => mkNode (attrs parent) (Some (children parent))) l.
Proof.
  intros Hp Hj Hc. revert p l1 Hp Hj.
  assert (Hhead : forall a subs rest,
    id_eqb (id a) j = false ->
    ~ In j (ids (default [] subs)) ->
    removeFromArray j (push_subtopic c (mkNode a subs) :: rest)
    = Some (mkNode a (Some (default [] subs)) :: rest)).
  { intros a subs rest E Hs. unfold push_subtopic. cbn [attrs subtopics].
    by rewrite removeFromArray_cons, E, (removeFromArray_app_fresh j c _ Hs Hc). }
  induction l as [|a rest IH|a subs rest IHs IH] using forest_ind;
    intros p l1; [done| |].
  - rewrite findTopicById_cons, !modifyById_cons, ids_cons. cbn [In].
    intros Hp Hj Hm.
    assert (E : id_eqb (id a) j = false) by (apply id_eqb_neq; tauto).
    destruct (id_eqb (id a) i).
    + injection Hm as <-. apply Hhead; [done|]. by intros [].
    + destruct (modifyById i (push_subtopic c) rest) as [r1|] eqn:Er; [|done].
      injection Hm as <-. rewrite removeFromArray_cons, E.
      rewrite (IH p r1 Hp); [done|tauto|done].
  - rewrite findTopicById_cons, !modifyById_cons, ids_cons. cbn [In].
    rewrite in_app_iff. change (default [] (Some subs)) with subs.
    intros Hp Hj Hm.
    assert (E : id_eqb (id a) j = false) by (apply id_eqb_neq; tauto).
    destruct (id_eqb (id a) i).
    + injection Hm as <-. apply Hhead; [done|]. cbn. tauto.
    + destruct (findTopicById i subs) as [m|] eqn:Es.
      * destruct (modifyById i (push_subtopic c) subs) as [s1|] eqn:Em.
        -- injection Hm as <-. rewrite removeFromArray_cons, E.
           rewrite (IHs m s1 eq_refl); [|tauto|done].
           by destruct (modifyById_Some i
                          (fun parent => mkNode (attrs parent) (Some (children parent)))
                          subs m Es) as [? ->].
        -- destruct (modifyById_Some i (push_subtopic c) subs m Es) as [? Hx].
           congruence.
      * rewrite (modifyById_None i (push_subtopic c) _ Es) in Hm.
        rewrite (modifyById_None i _ _ Es).
        destruct (modifyById i (push_subtopic c) rest) as [r1|] eqn:Er; [|done].
        injection Hm as <-. rewrite removeFromArray_cons, E.
        rewrite (removeFromArray_fresh j subs) by tauto.
        rewrite (IH p r1 Hp); [done|tauto|done].
Qed.

Lemma insertChild_finds_new S app parentId title descr folderType newId now be p :
  findTopicById parentId (topics app) = Some p ->
  is_pdf_folder p = false ->
  id_truthy parentId = true ->
  str_truthy title = true ->
  ~ In newId (ids (topics app)) ->
  exists c,
    findTopicById newId
      (topics (snd (insertChild S parentId title descr folderType newId now be
                      app)))
    = Some c.
Proof.
  intros Hp Hk Hi Ht Hfresh. unfold insertChild, addSubtopic.
  rewrite Hp, Hk. cbn [snd].
  unfold createSubtopic. cbn [currentTopicId set_currentTopicId topics].
  rewrite Ht, Hi, Hp. cbn [andb]. rewrite topics_commit.
  cbn [topics set_currentTopicId].
  set (c := mkNode _ _).
  destruct (modifyById_Some parentId (push_subtopic c) (topics app) p Hp)
    as [l1 Hm].
  rewrite (update_found_Some _ _ _ _ Hm). exists c.
  by apply (push_find parentId newId c (topics app) p l1).
Qed.

(** X7: inserting a child under an id that was not in use and then
    deleting that id gives back the forest as it was, except that a
    parent which had no [subtopics] array now has an empty one. *)
Theorem insertChild_then_deleteTopic (JSON_stringify : list Node -> string)
  (app : App) (parentId : JsId) (title descr folderType : string)
  (newId : JsId) (now now' : string) (be be' : Backend) (p : Node) :
  findTopicById parentId (topics app) = Some p ->
  is_pdf_folder p = false ->
  id_truthy parentId = true ->
  str_truthy title = true ->
  ~ In newId (ids (topics app)) ->
  let app' := deleteTopic JSON_stringify newId true now' be'
                (snd (insertChild JSON_stringify parentId title descr
                        folderType newId now be app)) in
  topics app'
  = update_found parentId
      (fun parent => mkNode (attrs parent) (Some (children parent))) (topics app)
  /\ (subtopics p <> None -> topics app' = topics app).
Proof.
  intros Hp Hk Hi Ht Hfresh app'.
  destruct (insertChild_finds_new JSON_stringify app parentId title descr
              folderType newId now be p Hp Hk Hi Ht Hfresh) as [c Hfind].
  assert (Htopics : topics app'
    = update_found parentId
        (fun parent => mkNode (attrs parent) (Some (children parent)))
        (topics app)).
  { subst app'. unfold deleteTopic. rewrite Hfind, topics_commit.
    clear Hfind.
    unfold insertChild, addSubtopic. rewrite Hp, Hk. cbn [snd].
    unfold createSubtopic. cbn [currentTopicId set_currentTopicId topics].
    rewrite Ht, Hi, Hp. cbn [andb]. rewrite topics_commit.
    cbn [topics set_currentTopicId].
    set (c' := mkNode _ _).
    destruct (modifyById_Some parentId (push_subtopic c') (topics app) p Hp)
      as [l1 Hm].
    rewrite (update_found_Some _ _ _ _ Hm).
    rewrite (push_then_remove parentId newId c' (topics app) p l1 Hp Hfresh
               eq_refl Hm).
    unfold update_found.
    by destruct (modifyById_Some parentId
                   (fun parent => mkNode (attrs parent) (Some (children parent)))
                   (topics app) p Hp) as [? ->]. }
  split; [done|]. intros Hsubs. rewrite Htopics. unfold update_found.
  rewrite (modifyById_fixed parentId _ (topics app) p Hp); [done|].
  destruct p as [a [cs|]]; done.
Qed.

Lemma insertChild_then_deleteTopic_witness :
  let app := sample_app sample_forest MemoryOnly in
  let p := sample_folder (IdNum 1) "A" [sample_pdf_folder (IdNum 2) "B"] in
  let app' := deleteTopic sample_stringify (IdNum 3) true sample_now Succeeds
                (snd (insertChild sample_stringify (IdNum 1) "C" "" "pdf-folder"
                        (IdNum 3) sample_now Succeeds app)) in
  findTopicById (IdNum 1) (topics app) = Some p
  /\ is_pdf_folder p = false
  /\ id_truthy (IdNum 1) = true
  /\ str_truthy "C" = true
  /\ ~ In (IdNum 3) (ids (topics app))
  /\ topics app'
     = update_found (IdNum 1)
         (fun parent => mkNode (attrs parent) (Some (children parent)))
         (topics app)
  /\ (subtopics p <> None -> topics app' = topics app).
Proof.
  assert (H : ~ In (IdNum 3) (ids (topics (sample_app sample_forest MemoryOnly)))).
  { intros [[=]|[[=]|[]]]. }
  split; [reflexivity|]. split; [reflexivity|]. split; [reflexivity|].
  split; [reflexivity|]. split; [exact H|].
  exact (insertChild_then_deleteTopic sample_stringify
           (sample_app sample_forest MemoryOnly) (IdNum 1) "C" "" "pdf-folder"
           (IdNum 3) sample_now sample_now Succeeds Succeeds
           (sample_folder (IdNum 1) "A" [sample_pdf_folder (IdNum 2) "B"])
           eq_refl eq_refl eq_refl eq_refl H).
Defined.

(** ** The scope of [deleteSubtopic] *)

Lemma modifyById_roots i f l :
  (forall m, attrs (f m) = attrs m) ->
  map attrs (update_found i f l) = map attrs l.
Proof.
  intros Hf. unfold update_found.
  induction l as [|[a subs] rest IH]; [done|].
  rewrite modifyById_cons. destruct (id_eqb (id a) i).
  - cbn. by rewrite (Hf (mkNode a subs)).
  - destruct (match subs with Some l => modifyById i f l | None => None end);
      [done|].
    destruct (modifyById i f rest) as [r'|]; [|done].
    cbn in *. by rewrite IH.
Qed.

Lemma remove_in_topics_roots i l :
  map attrs (remove_in_topics i l) = map attrs l.
Proof.
  induction l as [|[a subs] rest IH]; [done|].
  cbn [remove_in_topics]. rewrite remove_in_node_eq.
  destruct subs as [cs|]; [|cbn; by rewrite IH].
  destruct (removeFromArray i cs); cbn; [done|by rewrite IH].
Qed.

(** X8: [deleteSubtopic] never takes a root-level topic away, not even
    when it is handed the id of one: the root topics and their attributes
    are the same after the call, in the same order. *)
Theorem deleteSubtopic_keeps_roots (JSON_stringify : list Node -> string)
  (subtopicId parentId : JsId) (confirmed : bool) (now : string)
  (be : Backend) (app : App) :
  map attrs
    (topics (deleteSubtopic JSON_stringify subtopicId parentId confirmed now
               be app))
  = map attrs (topics app).
Proof.
  unfold deleteSubtopic.
  destruct (findTopicById subtopicId (topics app)); [|done].
  destruct confirmed; [|done]. rewrite topics_commit.
  destruct (findTopicById parentId (topics app)) as [[a [items|]]|];
    try apply remove_in_topics_roots.
  destruct (removeFromArray subtopicId items); [|done].
  by apply modifyById_roots.
Qed.

(** X9: when the parent id resolves to a node with a [subtopics] array,
    only that array is searched: a subtopic that exists elsewhere in the
    forest but not below this parent is not deleted, and the forest is
    left as it was. *)
Theorem deleteSubtopic_outside_parent (JSON_stringify : list Node -> string)
  (subtopicId parentId : JsId) (confirmed : bool) (now : string)
  (be : Backend) (app : App) (a : Attrs) (items : list Node) :
  findTopicById parentId (topics app) = Some (mkNode a (Some items)) ->
  ~ In subtopicId (ids items) ->
  topics (deleteSubtopic JSON_stringify subtopicId parentId confirmed now
            be app)
  = topics app.
Proof.
  intros Hp Hs. unfold deleteSubtopic.
  destruct (findTopicById subtopicId (topics app)); [|done].
  destruct confirmed; [|done].
  by rewrite topics_commit, Hp, (removeFromArray_fresh _ _ Hs).
Qed.

Lemma deleteSubtopic_outside_parent_witness :
  let forest := [sample_folder (IdNum 1) "A" [sample_pdf_folder (IdNum 2) "B"];
                 sample_folder (IdNum 3) "C" [sample_pdf_folder (IdNum 4) "D"]] in
  let app := sample_app forest MemoryOnly in
  findTopicById (IdNum 3) (topics app)
    = Some (mkNode (attrs (sample_folder (IdNum 3) "C" []))
              (Some [sample_pdf_folder (IdNum 4) "D"]))
  /\ ~ In (IdNum 2) (ids [sample_pdf_folder (IdNum 4) "D"])
  /\ topics (deleteSubtopic sample_stringify (IdNum 2) (IdNum 3) true sample_now
               Succeeds app)
     = topics app.
Proof.
  assert (H : ~ In (IdNum 2) (ids [sample_pdf_folder (IdNum 4) "D"])).
  { intros [[=]|[]]. }
  split; [reflexivity|]. split; [exact H|].
  exact (deleteSubtopic_outside_parent sample_stringify (IdNum 2) (IdNum 3) true
           sample_now Succeeds
           (sample_app
              [sample_folder (IdNum 1) "A" [sample_pdf_folder (IdNum 2) "B"];
               sample_folder (IdNum 3) "C" [sample_pdf_folder (IdNum 4) "D"]]
              MemoryOnly)
           (attrs (sample_folder (IdNum 3) "C" []))
           [sample_pdf_folder (IdNum 4) "D"] eq_refl H).
Defined.

Lemma removeFromArray_Some_In i l l' :
  removeFromArray i l = Some l' -> In i (ids l).
Proof.
  intros H. apply findTopicById_Some_iff_In.
  destruct (findTopicById i l) as [n|] eqn:E; [by exists n|].
  by rewrite (removeFromArray_None _ _ E) in H.
Qed.

(** The ids below a node of the forest are ids of the forest. *)
Lemma ids_below_found i l a items j :
  findTopicById i l = Some (mkNode a (Some items)) ->
  In j (ids items) -> In j (ids l).
Proof.
  intros Hf Hj. apply findTopicById_In in Hf. unfold ids in *.
  apply in_map_iff in Hj as (x & <- & Hx). apply in_map.
  apply (flat_node_subset l (mkNode a (Some items))); [done|].
  rewrite flat_node_eq. by right.
Qed.

Lemma unique_ids_cons a subs rest :
  unique_ids (mkNode a subs :: rest) ->
  ~ In (id a) (ids (default [] subs))
  /\ ~ In (id a) (ids rest)
  /\ unique_ids (default [] subs)
  /\ unique_ids rest
  /\ (forall j, In j (ids (default [] subs)) -> ~ In j (ids rest)).
Proof.
  unfold unique_ids. fold (ids (mkNode a subs :: rest)). rewrite ids_cons.
  intros H. apply NoDup_cons in H as [H1 H2].
  apply NoDup_app in H2 as (H2 & H3 & H4).
  rewrite elem_of_app in H1. setoid_rewrite list_elem_of_In in H1.
  repeat split; try done; try tauto.
  intros j Hj Hr. apply (H3 j); by apply list_elem_of_In.
Qed.

(** With unique ids, removing below the parent that holds the node and
    removing from the top take out the same node. *)
Lemma removeFromArray_below_parent sid pid l a items items' :
  unique_ids l ->
  findTopicById pid l = Some (mkNode a (Some items)) ->
  removeFromArray sid items = Some items' ->
  removeFromArray sid l =
  modifyById pid (fun parentTopic => mkNode (attrs parentTopic) (Some items')) l.
Proof.
  intros Hu Hp Hr. pose proof (removeFromArray_Some_In _ _ _ Hr) as Hin.
  revert Hu Hp.
  induction l as [|b rest IH|b subs rest IHs IH] using forest_ind; [done| |].
  - intros Hu. rewrite findTopicById_cons, removeFromArray_cons, modifyById_cons.
    destruct (unique_ids_cons _ _ _ Hu) as (_ & Hb & _ & Hur & _).
    destruct (id_eqb (id b) pid) eqn:E; [done|]. intros Hp.
    assert (Es : id_eqb (id b) sid = false).
    { apply id_eqb_neq. intros Heq. apply Hb. rewrite Heq.
      by apply (ids_below_found pid rest a items). }
    by rewrite Es, (IH Hur Hp).
  - intros Hu. rewrite findTopicById_cons, removeFromArray_cons, modifyById_cons.
    destruct (unique_ids_cons _ _ _ Hu) as (Hbs & Hb & Hus & Hur & Hdisj).
    change (default [] (Some subs)) with subs in *.
    destruct (id_eqb (id b) pid) eqn:E.
    + intros [= <- <-].
      assert (Es : id_eqb (id b) sid = false).
      { apply id_eqb_neq. intros Heq. apply Hbs. by rewrite Heq. }
      by rewrite Es, Hr.
    + destruct (findTopicById pid subs) as [m|] eqn:Em.
      * intros [= ->].
        assert (Es : id_eqb (id b) sid = false).
        { apply id_eqb_neq. intros Heq. apply Hbs. rewrite Heq.
          by apply (ids_below_found pid subs a items). }
        rewrite Es, (IHs Hus eq_refl).
        by destruct (modifyById_Some pid
                       (fun parentTopic => mkNode (attrs parentTopic) (Some items'))
                       subs _ Em) as [? ->].
      * intros Hp.
        pose proof (ids_below_found pid rest a items sid Hp Hin) as Hrest.
        assert (Es : id_eqb (id b) sid = false).
        { apply id_eqb_neq. intros Heq. apply Hb. by rewrite Heq. }
        rewrite Es, (modifyById_None _ _ _ Em).
        rewrite (removeFromArray_fresh sid subs).
        -- by rewrite (IH Hur Hp).
        -- intros Hsub. by apply (Hdisj sid).
Qed.

(** X10: with unique ids, when the stated parent resolves and the
    subtopic lies below it, [deleteSubtopic] and [deleteTopic] leave the
    same forest. *)
Theorem deleteSubtopic_agrees_with_deleteTopic
  (JSON_stringify : list Node -> string) (subtopicId parentId : JsId)
  (now : string) (be : Backend) (app : App) (a : Attrs) (items : list Node) :
  unique_ids (topics app) ->
  findTopicById parentId (topics app) = Some (mkNode a (Some items)) ->
  In subtopicId (ids items) ->
  topics (deleteSubtopic JSON_stringify subtopicId parentId true now be app)
  = topics (deleteTopic JSON_stringify subtopicId true now be app).
Proof.
  intros Hu Hp Hin.
  assert (Hl : In subtopicId (ids (topics app))).
  { by apply (ids_below_found parentId (topics app) a items). }
  apply findTopicById_Some_iff_In in Hl as [n Hn].
  apply findTopicById_Some_iff_In in Hin as [m Hm].
  destruct (removeFromArray_spec _ _ _ Hm) as (items' & _ & _ & Hr & _).
  unfold deleteSubtopic, deleteTopic. rewrite Hn, Hp, Hr, !topics_commit.
  rewrite (removeFromArray_below_parent subtopicId parentId (topics app) a
             items items' Hu Hp Hr).
  unfold update_found.
  by destruct (modifyById_Some parentId
                 (fun parentTopic => mkNode (attrs parentTopic) (Some items'))
                 (topics app) _ Hp) as [? ->].
Qed.

Lemma deleteSubtopic_agrees_with_deleteTopic_witness :
  let app := sample_app sample_forest MemoryOnly in
  unique_ids (topics app)
  /\ findTopicById (IdNum 1) (topics app)
     = Some (mkNode (attrs (sample_folder (IdNum 1) "A" []))
               (Some [sample_pdf_folder (IdNum 2) "B"]))
  /\ In (IdNum 2) (ids [sample_pdf_folder (IdNum 2) "B"])
  /\ topics (deleteSubtopic sample_stringify (IdNum 2) (IdNum 1) true sample_now
               Succeeds app)
     = topics (deleteTopic sample_stringify (IdNum 2) true sample_now Succeeds app).
Proof.
  assert (Hu : unique_ids (topics (sample_app sample_forest MemoryOnly))).
  { unfold unique_ids. cbn. apply NoDup_cons. split; [|apply NoDup_singleton].
    intros H. apply list_elem_of_In in H as [[=]|[]]. }
  assert (Hin : In (IdNum 2) (ids [sample_pdf_folder (IdNum 2) "B"])).
  { by left. }
  split; [exact Hu|]. split; [reflexivity|]. split; [exact Hin|].
  exact (deleteSubtopic_agrees_with_deleteTopic sample_stringify (IdNum 2)
           (IdNum 1) sample_now Succeeds (sample_app sample_forest MemoryOnly)
           (attrs (sample_folder (IdNum 1) "A" []))
           [sample_pdf_folder (IdNum 2) "B"] Hu eq_refl Hin).
Defined.

(** ** The storage tiers, beyond the failing read *)

(** X11: with no failure in between, a read gives back the value just
    written under the same key on the IndexedDB tier and on the in-memory
    tier whatever the value, and on the localStorage tier whenever the
    value is a string. *)
Theorem getFromStorage_returns_written (st : Storage) (now key : string)
  (value : JsValue) :
  uses_IndexedDB st = true \/ uses_localStorage st = false
  \/ (exists s, value = JStr s) ->
  getFromStorage Succeeds key (saveToStorage now Succeeds key value st)
  = Returned value.
Proof.
  intros H. rewrite getFromStorage_saveToStorage.
  destruct (uses_IndexedDB st); [done|].
  destruct (uses_localStorage st); [|done].
  destruct H as [H|[H|[s ->]]]; done.
Qed.

Lemma getFromStorage_returns_written_witness :
  let st := empty_storage LocalStorage in
  (uses_IndexedDB st = true \/ uses_localStorage st = false
   \/ (exists s, JStr "JVBERi0=" = JStr s))
  /\ getFromStorage Succeeds "pdf_11"
       (saveToStorage sample_now Succeeds "pdf_11" (JStr "JVBERi0=") st)
     = Returned (JStr "JVBERi0=").
Proof.
  assert (H : uses_IndexedDB (empty_storage LocalStorage) = true
              \/ uses_localStorage (empty_storage LocalStorage) = false
              \/ (exists s, JStr "JVBERi0=" = JStr s)).
  { right. right. by exists "JVBERi0=". }
  split; [exact H|].
  exact (getFromStorage_returns_written (empty_storage LocalStorage) sample_now
           "pdf_11" (JStr "JVBERi0=") H).
Defined.

(** X12: a write under one key never changes what a read of another key
    gives, on any tier and whatever the backend does at the write and at
    the read. *)
Theorem saveToStorage_leaves_other_keys (st : Storage) (now key key' : string)
  (value : JsValue) (be be' : Backend) :
  key <> key' ->
  getFromStorage be' key (saveToStorage now be key' value st)
  = getFromStorage be' key st.
Proof. apply getFromStorage_saveToStorage_ne. Qed.

Lemma saveToStorage_leaves_other_keys_witness :
  let st := saveToStorage sample_now Succeeds "pdf_11" (JStr "JVBERi0=")
              (empty_storage IndexedDB) in
  "pdf_11" <> "excel_11"
  /\ getFromStorage Succeeds "pdf_11"
       (saveToStorage sample_now Throws "excel_11" (JStr "UEsDBA==") st)
     = getFromStorage Succeeds "pdf_11" st.
Proof.
  assert (H : "pdf_11" <> "excel_11") by discriminate.
  split; [exact H|].
  exact (saveToStorage_leaves_other_keys
           (saveToStorage sample_now Succeeds "pdf_11" (JStr "JVBERi0=")
              (empty_storage IndexedDB))
           sample_now "pdf_11" "excel_11" (JStr "UEsDBA==") Throws Succeeds H).
Defined.

Lemma pdf_key_not_snapshot i : pdf_key i <> STORAGE_KEY.
Proof. unfold pdf_key. destruct (id_toString i); discriminate. Qed.

Lemma excel_key_not_snapshot i : excel_key i <> STORAGE_KEY.
Proof. unfold excel_key. destruct (id_toString i); discriminate. Qed.

(** X13: saving the tree never changes what the PDF or the converted
    Excel file of any node reads as, on any tier and whatever the backend
    does; on the IndexedDB tier a save that succeeds changes no blob under
    any key at all. *)
Theorem saveData_leaves_blobs (JSON_stringify : list Node -> string)
  (st : Storage) (now : string) (l : list Node) (be be' : Backend) (i : JsId) :
  getFromStorage be' (pdf_key i) (saveData JSON_stringify now be l st)
  = getFromStorage be' (pdf_key i) st
  /\ getFromStorage be' (excel_key i) (saveData JSON_stringify now be l st)
     = getFromStorage be' (excel_key i) st
  /\ (uses_IndexedDB st = true ->
      forall key,
        getFromStorage Succeeds key (saveData JSON_stringify now Succeeds l st)
        = getFromStorage Succeeds key st).
Proof.
  split; [|split].
  - apply getFromStorage_saveData, pdf_key_not_snapshot.
  - apply getFromStorage_saveData, excel_key_not_snapshot.
  - intros H key. unfold getFromStorage.
    destruct (saveData_tier JSON_stringify now Succeeds l st) as [-> _].
    rewrite H. unfold saveData. by rewrite H.
Qed.

(** X14: on a durable tier, a write at which the backend fails goes to
    the in-memory map only: a later read that succeeds still gives what
    the durable store held before, while a later read at which the backend
    throws gives the value written. *)
Theorem saveToStorage_failure_goes_to_memory (st : Storage) (now key : string)
  (value : JsValue) (message : string) (be : Backend) :
  uses_IndexedDB st || uses_localStorage st = true ->
  be = Throws \/ (be = RequestFails message /\ uses_IndexedDB st = true) ->
  let st' := saveToStorage now be key value st in
  getFromStorage Succeeds key st' = getFromStorage Succeeds key st
  /\ getFromStorage Throws key st' = Returned value.
Proof.
  intros Htier Hbe st'. subst st'. unfold getFromStorage.
  destruct (saveToStorage_tier now be key value st) as [-> ->].
  unfold saveToStorage, memory_get, memory_set.
  destruct (uses_IndexedDB st) eqn:E1.
  - destruct Hbe as [->|[-> _]]; cbn; by rewrite lookup_insert_eq.
  - destruct (uses_localStorage st) eqn:E2; [|done].
    destruct Hbe as [->|[_ [=]]]. cbn. by rewrite lookup_insert_eq.
Qed.

Lemma saveToStorage_failure_goes_to_memory_witness :
  let st := saveToStorage sample_now Succeeds "pdf_11" (JStr "old")
              (empty_storage LocalStorage) in
  let st' := saveToStorage sample_now Throws "pdf_11" (JStr "new") st in
  uses_IndexedDB st || uses_localStorage st = true
  /\ (Throws = Throws \/ (Throws = RequestFails "" /\ uses_IndexedDB st = true))
  /\ getFromStorage Succeeds "pdf_11" st' = getFromStorage Succeeds "pdf_11" st
  /\ getFromStorage Throws "pdf_11" st' = Returned (JStr "new").
Proof.
  split; [reflexivity|]. split; [by left|].
  exact (saveToStorage_failure_goes_to_memory
           (saveToStorage sample_now Succeeds "pdf_11" (JStr "old")
              (empty_storage LocalStorage))
           sample_now "pdf_11" (JStr "new") "" Throws eq_refl
           (or_introl eq_refl)).
Defined.

(** X15: when neither durable tier is in use, what the backend argument
    says does not matter: every write is kept and every read of the key
    gives back the value written. *)
Theorem memory_tier_ignores_backend (st : Storage) (now key : string)
  (value : JsValue) (be be' : Backend) :
  uses_IndexedDB st = false ->
  uses_localStorage st = false ->
  getFromStorage be' key (saveToStorage now be key value st) = Returned value.
Proof.
  intros H1 H2. unfold getFromStorage.
  destruct (saveToStorage_tier now be key value st) as [-> ->].
  rewrite H1, H2. unfold saveToStorage, memory_get, memory_set.
  rewrite H1, H2. cbn. by rewrite lookup_insert_eq.
Qed.

Lemma memory_tier_ignores_backend_witness :
  let st := empty_storage MemoryOnly in
  uses_IndexedDB st = false
  /\ uses_localStorage st = false
  /\ getFromStorage (RequestFails "x") "pdf_11"
       (saveToStorage sample_now Throws "pdf_11" JNull st)
     = Returned JNull.
Proof.
  split; [reflexivity|]. split; [reflexivity|].
  exact (memory_tier_ignores_backend (empty_storage MemoryOnly) sample_now
           "pdf_11" JNull Throws (RequestFails "x") eq_refl eq_refl).
Defined.

(** ** Keys of different nodes *)

Lemma id_toString_number_inj a b :
  id_toString (IdNum a) = id_toString (IdNum b) -> a = b.
Proof.
  unfold id_toString. intros H.
  assert (Hnn : forall z, Z.to_int z <> Decimal.Pos Decimal.Nil
                          /\ Z.to_int z <> Decimal.Neg Decimal.Nil).
  { intros [|p|p]; cbn; split; try discriminate;
      intros [= Hp]; by apply (DecimalPos.Unsigned.to_uint_nonnil p). }
  apply (f_equal NilZero.int_of_string) in H.
  rewrite !NilZero.isi in H by apply Hnn.
  injection H as H. apply (f_equal Z.of_int) in H.
  by rewrite !DecimalZ.of_to in H.
Qed.

Lemma append_inj_r (p s t : string) : p +:+ s = p +:+ t -> s = t.
Proof.
  induction p as [|c p IH]; [done|]. intros [= H]. by apply IH.
Qed.

Lemma pdf_key_number_inj a b : pdf_key (IdNum a) = pdf_key (IdNum b) -> a = b.
Proof. intros H. by apply id_toString_number_inj, (append_inj_r "pdf_"). Qed.

Lemma excel_key_number_inj a b :
  excel_key (IdNum a) = excel_key (IdNum b) -> a = b.
Proof. intros H. by apply id_toString_number_inj, (append_inj_r "excel_"). Qed.

Lemma pdf_key_not_excel_key i j : pdf_key i <> excel_key j.
Proof.
  unfold pdf_key, excel_key.
  destruct (id_toString i), (id_toString j); discriminate.
Qed.

(** ** Uploading, converting, selecting *)

Lemma storage_commit S now be l app :
  storage (commit S now be l app) = saveData S now be l (storage app).
Proof. done. Qed.

Lemma current_truthy_Some c : id_truthy c = true -> current_truthy (Some c) = true.
Proof. done. Qed.

(** X16: after a PDF has been uploaded to the selected 'pdf-folder', with
    no storage failure, selecting that node again shows the very base64
    text that was uploaded, and the node carries the upload time as
    [uploadDate] and [lastModified]. *)
Theorem upload_then_select (JSON_stringify : list Node -> string) (app : App)
  (c topicId : JsId) (n : Node) (base64String fileSize now : string)
  (be' : Backend) :
  currentSubtopicId app = Some c ->
  id_truthy c = true ->
  findTopicById c (topics app) = Some n ->
  is_pdf_folder n = true ->
  str_truthy base64String = true ->
  let app' := handlePDFUpload JSON_stringify (ParsedPdf base64String fileSize)
                now Succeeds be' app in
  fst (selectSubtopic c topicId Succeeds app')
  = Returned (ShowsSavedPdf (JStr base64String))
  /\ findTopicById c (topics app') = Some (mark_uploaded now n)
  /\ uploadDate (attrs (mark_uploaded now n)) = Some now
  /\ lastModified (attrs (mark_uploaded now n)) = Some now.
Proof.
  intros Hc Ht Hn Hk Hs app'.
  assert (Happ : app' = alert
            (upload_message (name (attrs n)) (storageType (storage app)) fileSize)
            (commit JSON_stringify now be'
               (update_found c (mark_uploaded now) (topics app))
               (set_storage
                  (saveToStorage now Succeeds (pdf_key c) (JStr base64String)
                     (storage app)) app))).
  { subst app'. unfold handlePDFUpload. rewrite Hc.
    rewrite (current_truthy_Some c Ht). cbn [currentSubtopicId set_storage topics].
    by rewrite Hn. }
  destruct (modifyById_Some c (mark_uploaded now) (topics app) n Hn) as [l1 Hm].
  assert (Hfind : findTopicById c (topics app') = Some (mark_uploaded now n)).
  { rewrite Happ. cbn [topics alert]. rewrite topics_commit.
    rewrite (update_found_Some _ _ _ _ Hm).
    by apply (modifyById_find c (mark_uploaded now) (topics app) n l1). }
  split; [|by repeat split].
  unfold selectSubtopic. rewrite Hfind.
  change (is_pdf_folder (mark_uploaded now n)) with (is_pdf_folder n). rewrite Hk.
  assert (Hget : getFromStorage Succeeds (pdf_key c) (storage app')
                 = Returned (JStr base64String)).
  { rewrite Happ. cbn [storage alert]. rewrite storage_commit.
    rewrite getFromStorage_saveData by apply pdf_key_not_snapshot.
    cbn [storage set_storage]. apply getFromStorage_saveToStorage_string. }
  rewrite Hget. cbn [fst js_truthy]. by rewrite Hs.
Qed.

Lemma upload_then_select_witness :
  let app := set_selection (IdNum 2) (IdNum 1)
               (sample_app sample_forest LocalStorage) in
  let n := sample_pdf_folder (IdNum 2) "B" in
  let app' := handlePDFUpload sample_stringify (ParsedPdf "JVBERi0=" "6 Bytes")
                sample_now Succeeds Succeeds app in
  currentSubtopicId app = Some (IdNum 2)
  /\ id_truthy (IdNum 2) = true
  /\ findTopicById (IdNum 2) (topics app) = Some n
  /\ is_pdf_folder n = true
  /\ str_truthy "JVBERi0=" = true
  /\ fst (selectSubtopic (IdNum 2) (IdNum 1) Succeeds app')
     = Returned (ShowsSavedPdf (JStr "JVBERi0="))
  /\ findTopicById (IdNum 2) (topics app') = Some (mark_uploaded sample_now n)
  /\ uploadDate (attrs (mark_uploaded sample_now n)) = Some sample_now
  /\ lastModified (attrs (mark_uploaded sample_now n)) = Some sample_now.
Proof.
  split; [reflexivity|]. split; [reflexivity|]. split; [reflexivity|].
  split; [reflexivity|]. split; [reflexivity|].
  exact (upload_then_select sample_stringify
           (set_selection (IdNum 2) (IdNum 1)
              (sample_app sample_forest LocalStorage))
           (IdNum 2) (IdNum 1) (sample_pdf_folder (IdNum 2) "B") "JVBERi0="
           "6 Bytes" sample_now Succeeds eq_refl eq_refl eq_refl eq_refl eq_refl).
Defined.

Lemma handlePDFUpload_storage S picked now be be' app :
  storage (handlePDFUpload S picked now be be' app) = storage app
  \/ (exists base64String l,
        storage (handlePDFUpload S picked now be be' app)
        = saveData S now be' l
            (saveToStorage now be
               ("pdf_" +:+ current_toString (currentSubtopicId app))
               (JStr base64String) (storage app)))
  \/ (exists base64String,
        storage (handlePDFUpload S picked now be be' app)
        = saveToStorage now be
            ("pdf_" +:+ current_toString (currentSubtopicId app))
            (JStr base64String) (storage app)).
Proof.
  unfold handlePDFUpload. destruct picked as [| |m|b f]; try by left.
  - destruct (current_truthy _); by left.
  - destruct (current_truthy _); by left.
  - destruct (current_truthy _); [|by left].
    destruct (currentSubtopicId app) as [c|]; [|by left].
    destruct (findTopicById c (topics app)).
    + right. left. by eexists _, _.
    + right. right. by eexists.
Qed.

(** X17: the blobs of different nodes do not interfere.  An upload to the
    selected node with a numeric id changes neither the stored PDF of any
    other numeric id nor the converted Excel file of any node; converting
    the selected node's PDF changes neither the stored PDF of any node nor
    the Excel file of any other numeric id. *)
Theorem blobs_of_other_nodes_untouched (JSON_stringify : list Node -> string)
  (app : App) (a : Z) (picked : PickedFile) (pdfLoaded : bool)
  (conversion : Outcome string) (now : string) (be be' be'' : Backend) :
  currentSubtopicId app = Some (IdNum a) ->
  let uploaded := handlePDFUpload JSON_stringify picked now be be' app in
  let converted := convertToExcel pdfLoaded conversion now be app in
  (forall b, b <> a ->
     getFromStorage be'' (pdf_key (IdNum b)) (storage uploaded)
     = getFromStorage be'' (pdf_key (IdNum b)) (storage app))
  /\ (forall j,
        getFromStorage be'' (excel_key j) (storage uploaded)
        = getFromStorage be'' (excel_key j) (storage app))
  /\ (forall j,
        getFromStorage be'' (pdf_key j) (storage converted)
        = getFromStorage be'' (pdf_key j) (storage app))
  /\ (forall b, b <> a ->
        getFromStorage be'' (excel_key (IdNum b)) (storage converted)
        = getFromStorage be'' (excel_key (IdNum b)) (storage app)).
Proof.
  intros Hc uploaded converted.
  assert (Hup : forall key,
    key <> pdf_key (IdNum a) -> key <> STORAGE_KEY ->
    getFromStorage be'' key (storage uploaded) = getFromStorage be'' key (storage app)).
  { intros key Hk Hs. subst uploaded.
    destruct (handlePDFUpload_storage JSON_stringify picked now be be' app)
      as [->|[(b64 & l & ->)|(b64 & ->)]]; [done| |]; rewrite Hc.
    - rewrite getFromStorage_saveData by done.
      by apply getFromStorage_saveToStorage_ne.
    - by apply getFromStorage_saveToStorage_ne. }
  assert (Hconv : forall key,
    key <> excel_key (IdNum a) ->
    getFromStorage be'' key (storage converted) = getFromStorage be'' key (storage app)).
  { intros key Hk. subst converted. unfold convertToExcel. rewrite Hc.
    destruct (current_truthy _); [|done]. destruct pdfLoaded; [|done].
    destruct conversion; [|done]. cbn [storage alert set_storage].
    by apply getFromStorage_saveToStorage_ne. }
  split; [|split; [|split]].
  - intros b Hb. apply Hup; [|apply pdf_key_not_snapshot].
    intros H. by apply Hb, pdf_key_number_inj.
  - intros j. apply Hup; [|apply excel_key_not_snapshot].
    intros H. by apply (pdf_key_not_excel_key (IdNum a) j).
  - intros j. apply Hconv. apply pdf_key_not_excel_key.
  - intros b Hb. apply Hconv. intros H. by apply Hb, excel_key_number_inj.
Qed.

Lemma blobs_of_other_nodes_untouched_witness :
  let app := set_selection (IdNum 2) (IdNum 1)
               (sample_app sample_forest MemoryOnly) in
  let uploaded := handlePDFUpload sample_stringify (ParsedPdf "JVBERi0=" "6 Bytes")
                    sample_now Succeeds Succeeds app in
  let converted := convertToExcel true (Returned "UEsDBA==") sample_now Succeeds
                     app in
  currentSubtopicId app = Some (IdNum 2)
  /\ (forall b, b <> 2%Z ->
        getFromStorage Succeeds (pdf_key (IdNum b)) (storage uploaded)
        = getFromStorage Succeeds (pdf_key (IdNum b)) (storage app))
  /\ (forall j,
        getFromStorage Succeeds (excel_key j) (storage uploaded)
        = getFromStorage Succeeds (excel_key j) (storage app))
  /\ (forall j,
        getFromStorage Succeeds (pdf_key j) (storage converted)
        = getFromStorage Succeeds (pdf_key j) (storage app))
  /\ (forall b, b <> 2%Z ->
        getFromStorage Succeeds (excel_key (IdNum b)) (storage converted)
        = getFromStorage Succeeds (excel_key (IdNum b)) (storage app)).
Proof.
  split; [reflexivity|].
  exact (blobs_of_other_nodes_untouched sample_stringify
           (set_selection (IdNum 2) (IdNum 1)
              (sample_app sample_forest MemoryOnly))
           2 (ParsedPdf "JVBERi0=" "6 Bytes") true (Returned "UEsDBA==")
           sample_now Succeeds Succeeds Succeeds eq_refl).
Defined.

(** X18: what selecting a node shows after [loadSavedPDF] has cleared
    its PDF because PDF.js rejected it, no storage call failing: on the
    IndexedDB tier and on the in-memory tier the upload section; on the
    localStorage tier the text "null" as a saved PDF. *)
Theorem select_after_clearing (app : App) (c topicId : JsId) (n : Node)
  (now : string) :
  currentSubtopicId app = Some c ->
  findTopicById c (topics app) = Some n ->
  is_pdf_folder n = true ->
  fst (selectSubtopic c topicId Succeeds
         (loadSavedPDF DocumentRejected now Succeeds app))
  = Returned
      (if uses_IndexedDB (storage app) then ShowsUploadSection
       else if uses_localStorage (storage app) then ShowsSavedPdf (JStr "null")
       else ShowsUploadSection).
Proof.
  intros Hc Hn Hk. unfold selectSubtopic, loadSavedPDF.
  cbn [topics set_storage storage]. rewrite Hn, Hk, Hc.
  change ("pdf_" +:+ current_toString (Some c)) with (pdf_key c).
  rewrite getFromStorage_saveToStorage.
  by destruct (uses_IndexedDB (storage app)), (uses_localStorage (storage app)).
Qed.

Lemma select_after_clearing_witness :
  let app := set_selection (IdNum 2) (IdNum 1)
               (sample_app sample_forest LocalStorage) in
  currentSubtopicId app = Some (IdNum 2)
  /\ findTopicById (IdNum 2) (topics app) = Some (sample_pdf_folder (IdNum 2) "B")
  /\ is_pdf_folder (sample_pdf_folder (IdNum 2) "B") = true
  /\ fst (selectSubtopic (IdNum 2) (IdNum 1) Succeeds
            (loadSavedPDF DocumentRejected sample_now Succeeds app))
     = Returned
         (if uses_IndexedDB (storage app) then ShowsUploadSection
          else if uses_localStorage (storage app)
               then ShowsSavedPdf (JStr "null")
               else ShowsUploadSection).
Proof.
  split; [reflexivity|]. split; [reflexivity|]. split; [reflexivity|].
  exact (select_after_clearing
           (set_selection (IdNum 2) (IdNum 1)
              (sample_app sample_forest LocalStorage))
           (IdNum 2) (IdNum 1) (sample_pdf_folder (IdNum 2) "B") sample_now
           eq_refl eq_refl eq_refl).
Defined.

(** ** What an export contains *)

Lemma export_pdfs_entries gets st flat :
  forall n o o',
    export_pdfs gets st flat n o = Returned o' ->
    forall k v, In (k, v) o' ->
      In (k, v) o
      \/ (js_truthy v = true
          /\ exists t, In t flat /\ is_pdf_folder t = true
                       /\ (k = id_toString (node_id t) \/ k = excel_key (node_id t))).
Proof.
  induction flat as [|t rest IH]; intros n o o'.
  - cbn. intros [= <-] k v Hin. by left.
  - cbn [export_pdfs]. destruct (is_pdf_folder t) eqn:Ek.
    + destruct (getFromStorage (gets n) (pdf_key (node_id t)) st)
        as [pdfData|]; [|done].
      destruct (getFromStorage (gets (S n)) (excel_key (node_id t)) st)
        as [excelData|]; [|done].
      intros Hexp k v Hin.
      assert (Hhere : forall w, js_truthy w = true ->
        (k = id_toString (node_id t) \/ k = excel_key (node_id t)) -> v = w ->
        js_truthy v = true
        /\ exists t0, In t0 (t :: rest) /\ is_pdf_folder t0 = true
                      /\ (k = id_toString (node_id t0) \/ k = excel_key (node_id t0))).
      { intros w Hw Hkey ->. split; [done|]. exists t. by repeat split; [left|..]. }
      destruct (IH _ _ _ Hexp k v Hin) as [Ho|(Hv & t0 & Ht0 & Hk0 & Hkey)].
      * destruct (js_truthy excelData) eqn:Ee.
        -- apply obj_set_In in Ho as [[-> ->]|Ho]; [right; apply (Hhere excelData); auto|].
           destruct (js_truthy pdfData) eqn:Ep; [|by left].
           apply obj_set_In in Ho as [[-> ->]|Ho]; [|by left].
           right. apply (Hhere pdfData); auto.
        -- destruct (js_truthy pdfData) eqn:Ep; [|by left].
           apply obj_set_In in Ho as [[-> ->]|Ho]; [|by left].
           right. apply (Hhere pdfData); auto.
      * right. split; [done|]. exists t0. by repeat split; [right|..].
    + intros Hexp k v Hin.
      destruct (IH _ _ _ Hexp k v Hin) as [Ho|(Hv & t0 & Ht0 & Hk0 & Hkey)];
        [by left|].
      right. split; [done|]. exists t0. by repeat split; [right|..].
Qed.

(** X19: whatever the backend does at the reads, an archive that
    [exportAllData] produces carries the forest as it is and, in [pdfs],
    only truthy values under the bare id or the "excel_" key of a
    'pdf-folder' of the forest; the export changes neither the forest nor
    the storage. *)
Theorem exportAllData_contents (now : string) (gets : nat -> Backend)
  (app : App) (archive : Archive) :
  fst (exportAllData now gets app) = Some archive ->
  a_topics archive = TopicsArray (topics app)
  /\ (exists pdfs,
        a_pdfs archive = Some pdfs
        /\ forall k v, In (k, v) pdfs ->
             js_truthy v = true
             /\ exists t, In t (getAllTopicsFlat (topics app))
                          /\ is_pdf_folder t = true
                          /\ (k = id_toString (node_id t)
                              \/ k = excel_key (node_id t)))
  /\ topics (snd (exportAllData now gets app)) = topics app
  /\ storage (snd (exportAllData now gets app)) = storage app.
Proof.
  unfold exportAllData.
  destruct (export_pdfs gets (storage app) (getAllTopicsFlat (topics app)) 0 [])
    as [pdfs|m] eqn:E; [|done].
  intros [= <-]. cbn. split; [done|]. split; [|done].
  exists pdfs. split; [done|]. intros k v Hin.
  by destruct (export_pdfs_entries _ _ _ _ _ _ E k v Hin) as [[]|H].
Qed.

Lemma exportAllData_contents_witness :
  let st := saveToStorage sample_now Succeeds "pdf_2" (JStr "JVBERi0=")
              (empty_storage MemoryOnly) in
  let app := mkApp sample_forest None None None None st [] in
  let archive := mkArchive "3.0" sample_now (TopicsArray sample_forest)
                   (Some [("2", JStr "JVBERi0=")]) in
  fst (exportAllData sample_now (fun _ => Succeeds) app) = Some archive
  /\ a_topics archive = TopicsArray (topics app)
  /\ (exists pdfs,
        a_pdfs archive = Some pdfs
        /\ forall k v, In (k, v) pdfs ->
             js_truthy v = true
             /\ exists t, In t (getAllTopicsFlat (topics app))
                          /\ is_pdf_folder t = true
                          /\ (k = id_toString (node_id t)
                              \/ k = excel_key (node_id t)))
  /\ topics (snd (exportAllData sample_now (fun _ => Succeeds) app)) = topics app
  /\ storage (snd (exportAllData sample_now (fun _ => Succeeds) app)) = storage app.
Proof.
  assert (H : fst (exportAllData sample_now (fun _ => Succeeds)
                     (mkApp sample_forest None None None None
                        (saveToStorage sample_now Succeeds "pdf_2" (JStr "JVBERi0=")
                           (empty_storage MemoryOnly)) []))
              = Some (mkArchive "3.0" sample_now (TopicsArray sample_forest)
                        (Some [("2", JStr "JVBERi0=")]))).
  { by vm_compute. }
  split; [exact H|].
  exact (exportAllData_contents sample_now (fun _ => Succeeds) _ _ H).
Defined.

(** X20: on the IndexedDB tier, when the forest holds a 'pdf-folder' and
    the read requests fail, the export produces no archive: it only
    reports the error of the first failed request. *)
Theorem exportAllData_rejected_read (now message : string)
  (gets : nat -> Backend) (app : App) (t : Node) :
  uses_IndexedDB (storage app) = true ->
  (forall n, gets n = RequestFails message) ->
  In t (getAllTopicsFlat (topics app)) ->
  is_pdf_folder t = true ->
  exportAllData now gets app
  = (None, alert ("❌ Error exporting data: " +:+ message) app).
Proof.
  intros Hdb Hgets Ht Hk. unfold exportAllData.
  assert (H : forall flat n o,
    In t flat -> export_pdfs gets (storage app) flat n o = Rejected message).
  { induction flat as [|x rest IH]; intros n o Hin; [done|].
    cbn [export_pdfs]. destruct (is_pdf_folder x) eqn:Ex.
    - unfold getFromStorage at 1. by rewrite Hdb, Hgets.
    - destruct Hin as [->|Hin]; [congruence|by apply IH]. }
  by rewrite (H _ 0 [] Ht).
Qed.

Lemma exportAllData_rejected_read_witness :
  let app := sample_app sample_forest IndexedDB in
  let gets := fun _ : nat => RequestFails "The transaction was aborted." in
  uses_IndexedDB (storage app) = true
  /\ (forall n, gets n = RequestFails "The transaction was aborted.")
  /\ In (sample_pdf_folder (IdNum 2) "B") (getAllTopicsFlat (topics app))
  /\ is_pdf_folder (sample_pdf_folder (IdNum 2) "B") = true
  /\ exportAllData sample_now gets app
     = (None,
        alert ("❌ Error exporting data: " +:+ "The transaction was aborted.") app).
Proof.
  assert (Hin : In (sample_pdf_folder (IdNum 2) "B")
                  (getAllTopicsFlat (topics (sample_app sample_forest IndexedDB)))).
  { right. by left. }
  split; [reflexivity|]. split; [reflexivity|]. split; [exact Hin|].
  split; [reflexivity|].
  exact (exportAllData_rejected_read sample_now "The transaction was aborted."
           (fun _ => RequestFails "The transaction was aborted.")
           (sample_app sample_forest IndexedDB)
           (sample_pdf_folder (IdNum 2) "B") eq_refl (fun _ => eq_refl) Hin
           eq_refl).
Defined.

(** ** What an import writes *)

Lemma import_pdfs_other_key now puts be' key :
  forall entries n st,
    (forall k v, In (k, v) entries -> import_key k <> key) ->
    getFromStorage be' key (import_pdfs now puts n entries st)
    = getFromStorage be' key st.
Proof.
  induction entries as [|[k v] rest IH]; intros n st Hne; [done|].
  cbn [import_pdfs]. rewrite IH by (intros k' v' Hin; apply (Hne k' v'); by right).
  apply getFromStorage_saveToStorage_ne. intros Heq.
  by apply (Hne k v); [left|].
Qed.

Lemma prefix_append p s : String.prefix p (p +:+ s) = true.
Proof.
  induction p as [|c p IH]; [by destruct s|].
  change (String c p +:+ s) with (String c (p +:+ s)). cbn [String.prefix].
  by destruct (ascii_dec c c).
Qed.

(** X22: every key that an import writes under starts with "pdf_" or
    with "excel_", and normalising a key twice changes nothing more. *)
Theorem import_key_normal (key : string) :
  String.prefix "pdf_" (import_key key) || String.prefix "excel_" (import_key key)
  = true
  /\ import_key (import_key key) = import_key key.
Proof.
  assert (H : String.prefix "pdf_" (import_key key)
              || String.prefix "excel_" (import_key key) = true).
  { unfold import_key.
    destruct (String.prefix "pdf_" key || String.prefix "excel_" key) eqn:E;
      [done|].
    by rewrite (prefix_append "pdf_" key). }
  split; [done|]. unfold import_key at 1. by rewrite H.
Qed.

Lemma import_pdfs_last_write now puts key s :
  (forall n, puts n = Succeeds) ->
  forall before k after n st,
    import_key k = key ->
    (forall k' v', In (k', v') after -> import_key k' <> key) ->
    getFromStorage Succeeds key
      (import_pdfs now puts n (before ++ (k, JStr s) :: after) st)
    = Returned (JStr s).
Proof.
  intros Hputs. induction before as [|[k0 v0] rest IH];
    intros k after n st Hk Hafter.
  - cbn [app import_pdfs]. rewrite import_pdfs_other_key by done.
    rewrite Hputs, Hk. apply getFromStorage_saveToStorage_string.
  - cbn [app import_pdfs]. by apply IH.
Qed.

(** X23: when no blob write of an import fails, a string entry of [pdfs]
    reads back afterwards under its normalised key, on every tier,
    provided no later entry, in the order of [Object.entries], normalises
    to the same key; an earlier entry that does is overwritten. *)
Theorem performImport_blob_reads_back (JSON_stringify : list Node -> string)
  (a : Archive) (l : list Node) (pdfs : JsObject) (now : string) (be : Backend)
  (puts : nat -> Backend) (app : App)
  (before after : list (string * JsValue)) (k s : string) :
  a_topics a = TopicsArray l ->
  a_pdfs a = Some pdfs ->
  (forall n, puts n = Succeeds) ->
  Object_entries pdfs = before ++ (k, JStr s) :: after ->
  (forall k' v', In (k', v') after -> import_key k' <> import_key k) ->
  getFromStorage Succeeds (import_key k)
    (storage (performImport JSON_stringify (Parsed a) now be puts app))
  = Returned (JStr s).
Proof.
  intros Ha Hp Hputs Hsplit Hafter. unfold performImport. rewrite Ha, Hp.
  cbn [storage alert resetMainContent set_storage]. rewrite Hsplit.
  by apply import_pdfs_last_write.
Qed.

Lemma performImport_blob_reads_back_witness :
  let pdfs := [("pdf_7", JStr "kept"); ("7", JStr "overwritten")] in
  let a := mkArchive "3.0" sample_now (TopicsArray sample_forest) (Some pdfs) in
  a_topics a = TopicsArray sample_forest
  /\ a_pdfs a = Some pdfs
  /\ (forall n, (fun _ : nat => Succeeds) n = Succeeds)
  /\ Object_entries pdfs = [("7", JStr "overwritten")] ++ ("pdf_7", JStr "kept") :: []
  /\ (forall k' (v' : JsValue), In (k', v') [] ->
        import_key k' <> import_key "pdf_7")
  /\ getFromStorage Succeeds (import_key "pdf_7")
       (storage (performImport sample_stringify (Parsed a) sample_now Succeeds
                   (fun _ => Succeeds) (sample_app [] LocalStorage)))
     = Returned (JStr "kept").
Proof.
  assert (Hentries :
    Object_entries [("pdf_7", JStr "kept"); ("7", JStr "overwritten")]
    = [("7", JStr "overwritten")] ++ ("pdf_7", JStr "kept") :: []).
  { by vm_compute. }
  assert (Hafter : forall k' (v' : JsValue), In (k', v') [] ->
                     import_key k' <> import_key "pdf_7").
  { by intros k' v' []. }
  split; [reflexivity|]. split; [reflexivity|]. split; [reflexivity|].
  split; [exact Hentries|]. split; [exact Hafter|].
  exact (performImport_blob_reads_back sample_stringify
           (mkArchive "3.0" sample_now (TopicsArray sample_forest)
              (Some [("pdf_7", JStr "kept"); ("7", JStr "overwritten")]))
           sample_forest [("pdf_7", JStr "kept"); ("7", JStr "overwritten")]
           sample_now Succeeds (fun _ => Succeeds) (sample_app [] LocalStorage)
           [("7", JStr "overwritten")] [] "pdf_7" "kept" eq_refl eq_refl
           (fun _ => eq_refl) Hentries Hafter).
Defined.

(** ** Paging *)

Lemma press_in_range b v :
  (1 <= pageNum v <= pageCount v)%Z ->
  (1 <= pageNum (press b v) <= pageCount (press b v))%Z
  /\ pageCount (press b v) = pageCount v.
Proof.
  intros H. destruct b; unfold press, prevPage, nextPage.
  - destruct (Z.leb_spec (pageNum v) 1); cbn; lia.
  - destruct (Z.geb_spec (pageNum v) (pageCount v)); cbn; lia.
Qed.

(** X24: once a document with at least one page has loaded, no sequence
    of presses on the two page buttons takes the page number out of the
    document: it stays between 1 and the page count, which does not
    change. *)
Theorem pager_stays_in_document (numPages : Z) (presses : list PageButton) :
  (1 <= numPages)%Z ->
  let v := fold_left (fun v b => press b v) presses (document_loaded numPages) in
  (1 <= pageNum v <= numPages)%Z /\ pageCount v = numPages.
Proof.
  intros H. cbn zeta.
  assert (Hgen : forall v,
    (1 <= pageNum v <= pageCount v)%Z ->
    (1 <= pageNum (fold_left (fun v b => press b v) presses v)
       <= pageCount v)%Z
    /\ pageCount (fold_left (fun v b => press b v) presses v) = pageCount v).
  { induction presses as [|b rest IH]; intros v Hv; [done|].
    cbn [fold_left]. destruct (press_in_range b v Hv) as [Hr Hc].
    destruct (IH (press b v) Hr) as [Hr' Hc']. rewrite Hc in Hr', Hc'. done. }
  apply (Hgen (document_loaded numPages)). cbn. lia.
Qed.

Lemma pager_stays_in_document_witness :
  let v := fold_left (fun v b => press b v) [Next; Next; Next; Prev; Prev; Prev]
             (document_loaded 3) in
  (1 <= 3)%Z /\ (1 <= pageNum v <= 3)%Z /\ pageCount v = 3%Z.
Proof.
  split; [lia|].
  apply (pager_stays_in_document 3 [Next; Next; Next; Prev; Prev; Prev]). lia.
Defined.

(** ** Downloading what was stored *)

Lemma handlePDFUpload_selection S picked now be be' app :
  currentSubtopicId (handlePDFUpload S picked now be be' app)
  = currentSubtopicId app.
Proof.
  unfold handlePDFUpload. destruct picked as [| |m|b f]; [done|..];
    destruct (current_truthy _); try done.
  destruct (currentSubtopicId app) as [c|] eqn:E; [|done].
  by destruct (findTopicById c (topics app)).
Qed.

Lemma handlePDFUpload_stores S base64String fileSize now be' app c :
  currentSubtopicId app = Some c ->
  id_truthy c = true ->
  getFromStorage Succeeds (pdf_key c)
    (storage (handlePDFUpload S (ParsedPdf base64String fileSize) now Succeeds
                be' app))
  = Returned (JStr base64String).
Proof.
  intros Hc Ht. unfold handlePDFUpload. rewrite Hc, (current_truthy_Some c Ht).
  change ("pdf_" +:+ current_toString (Some c)) with (pdf_key c).
  destruct (findTopicById c (topics app)); cbn [storage alert set_storage].
  - rewrite storage_commit, getFromStorage_saveData by apply pdf_key_not_snapshot.
    apply getFromStorage_saveToStorage_string.
  - apply getFromStorage_saveToStorage_string.
Qed.

(** X25: after an upload to the selection and a conversion, no storage
    call failing and the stored texts decoding, [exportToPDF] hands the
    browser the very base64 text that was uploaded and [downloadAsExcel]
    the very workbook that the conversion produced; neither changes the
    state.  This holds on every tier and whether or not the selected id
    still resolves to a node. *)
Theorem downloads_give_what_was_stored (JSON_stringify : list Node -> string)
  (app : App) (c : JsId) (base64String fileSize excelBase64 now : string)
  (be' : Backend) :
  currentSubtopicId app = Some c ->
  id_truthy c = true ->
  str_truthy base64String = true ->
  str_truthy excelBase64 = true ->
  let uploaded := handlePDFUpload JSON_stringify (ParsedPdf base64String fileSize)
                    now Succeeds be' app in
  let converted := convertToExcel true (Returned excelBase64) now Succeeds
                     uploaded in
  exportToPDF Succeeds None converted
  = (Returned (Downloads (JStr base64String)), converted)
  /\ downloadAsExcel Succeeds None converted
     = (Returned (Downloads (JStr excelBase64)), converted).
Proof.
  intros Hc Ht Hb He uploaded converted.
  assert (Hsel : currentSubtopicId uploaded = Some c).
  { subst uploaded. by rewrite handlePDFUpload_selection. }
  assert (Hconv : converted
    = alert
        ("PDF converted to Excel successfully! Click " +:+ double_quote
         +:+ "Download Excel" +:+ double_quote +:+ " to save the file.")
        (set_storage
           (saveToStorage now Succeeds (excel_key c) (JStr excelBase64)
              (storage uploaded)) uploaded)).
  { subst converted. unfold convertToExcel.
    by rewrite Hsel, (current_truthy_Some c Ht). }
  assert (Hsel' : currentSubtopicId converted = Some c).
  { by rewrite Hconv. }
  assert (Hpdf : getFromStorage Succeeds (pdf_key c) (storage converted)
                 = Returned (JStr base64String)).
  { rewrite Hconv. cbn [storage alert set_storage].
    rewrite getFromStorage_saveToStorage_ne by apply pdf_key_not_excel_key.
    by apply handlePDFUpload_stores. }
  assert (Hexcel : getFromStorage Succeeds (excel_key c) (storage converted)
                   = Returned (JStr excelBase64)).
  { rewrite Hconv. cbn [storage alert set_storage].
    apply getFromStorage_saveToStorage_string. }
  unfold exportToPDF, downloadAsExcel.
  rewrite Hsel', (current_truthy_Some c Ht).
  change ("pdf_" +:+ current_toString (Some c)) with (pdf_key c).
  change ("excel_" +:+ current_toString (Some c)) with (excel_key c).
  rewrite Hpdf, Hexcel. cbn [js_truthy]. by rewrite Hb, He.
Qed.

Lemma downloads_give_what_was_stored_witness :
  let app := set_selection (IdNum 2) (IdNum 1)
               (sample_app sample_forest LocalStorage) in
  let uploaded := handlePDFUpload sample_stringify (ParsedPdf "JVBERi0=" "6 Bytes")
                    sample_now Succeeds Succeeds app in
  let converted := convertToExcel true (Returned "UEsDBA==") sample_now Succeeds
                     uploaded in
  currentSubtopicId app = Some (IdNum 2)
  /\ id_truthy (IdNum 2) = true
  /\ str_truthy "JVBERi0=" = true
  /\ str_truthy "UEsDBA==" = true
  /\ exportToPDF Succeeds None converted
     = (Returned (Downloads (JStr "JVBERi0=")), converted)
  /\ downloadAsExcel Succeeds None converted
     = (Returned (Downloads (JStr "UEsDBA==")), converted).
Proof.
  split; [reflexivity|]. split; [reflexivity|]. split; [reflexivity|].
  split; [reflexivity|].
  exact (downloads_give_what_was_stored sample_stringify
           (set_selection (IdNum 2) (IdNum 1)
              (sample_app sample_forest LocalStorage))
           (IdNum 2) "JVBERi0=" "6 Bytes" "UEsDBA==" sample_now Succeeds
           eq_refl eq_refl eq_refl eq_refl).
Defined.

(** ** The storage tier during a session *)

Lemma same_tier_refl st : same_tier st st.
Proof. by repeat split. Qed.

Lemma same_tier_uses st0 st :
  same_tier st0 st ->
  uses_IndexedDB st = uses_IndexedDB st0
  /\ uses_localStorage st = uses_localStorage st0.
Proof.
  intros (Hdb & Hty & _). unfold uses_IndexedDB, uses_localStorage.
  by rewrite Hdb, Hty.
Qed.

Lemma same_tier_saveToStorage st0 st now be key value :
  same_tier st0 st -> same_tier st0 (saveToStorage now be key value st).
Proof.
  intros H. destruct (same_tier_uses _ _ H) as [H1 H2].
  destruct H as (Hdb & Hty & Hidb & Hls). unfold saveToStorage.
  rewrite H1, H2.
  destruct (uses_IndexedDB st0) eqn:E1; [|destruct (uses_localStorage st0) eqn:E2];
    destruct be; repeat split; cbn; try done; intros; try congruence;
    try (by apply Hidb); try (by apply Hls).
Qed.

Lemma same_tier_saveData S st0 st now be l :
  same_tier st0 st -> same_tier st0 (saveData S now be l st).
Proof.
  intros H. destruct (same_tier_uses _ _ H) as [H1 H2].
  destruct H as (Hdb & Hty & Hidb & Hls). unfold saveData.
  rewrite H1, H2.
  destruct (uses_IndexedDB st0) eqn:E1; [|destruct (uses_localStorage st0) eqn:E2];
    destruct be; repeat split; cbn; try done; intros; try congruence;
    try (by apply Hidb); try (by apply Hls).
Qed.

Lemma same_tier_import_pdfs st0 now puts entries :
  forall n st, same_tier st0 st -> same_tier st0 (import_pdfs now puts n entries st).
Proof.
  induction entries as [|[k v] rest IH]; intros n st H; [done|].
  cbn [import_pdfs]. by apply IH, same_tier_saveToStorage.
Qed.

Ltac tier_step :=
  repeat first
    [ assumption
    | apply same_tier_saveData
    | apply same_tier_saveToStorage
    | apply same_tier_import_pdfs
    | progress cbn -[saveData saveToStorage import_pdfs same_tier]
    | progress simplify_eq
    | case_match ].

(** X26: a session never leaves the tier it started on.  Whatever the
    handlers run and whatever fails, [db] and [storageType] stay as they
    were at the start, and a durable store that the tier does not use is
    never written: on failures the handlers fall back to the in-memory map
    only, and nothing moves data from one tier to another. *)
Theorem session_stays_on_tier (toUpperCase : string -> string)
  (JSON_stringify : list Node -> string) (fresh : list Node -> JsId -> Prop)
  (allowed : list Node -> Prop) (st0 : Storage) (app : App) :
  session toUpperCase JSON_stringify fresh allowed st0 app ->
  same_tier st0 (storage app).
Proof.
  induction 1 as
    [ now be
    | title folderType newId now be app _ IH _
    | parentId title descr folderType newId now be app _ IH _
    | i targetType newName now be app _ IH
    | topicId now be app _ IH
    | topicId confirmed now be app _ IH
    | subtopicId parentId confirmed now be app _ IH
    | input now be puts app _ IH _
    | now gets app _ IH
    | subtopicId topicId be app _ IH
    | decoding now be app _ IH
    | picked now be be' app _ IH
    | pdfLoaded conversion now be app _ IH
    | be decodeError app _ IH
    | be decodeError app _ IH ].
  - unfold loadData_defaults. cbn [storage].
    apply same_tier_saveData, same_tier_refl.
  - unfold createTopic. tier_step.
  - unfold insertChild, addSubtopic, createSubtopic. tier_step.
  - unfold confirmRename. tier_step.
  - unfold toggleTopic. tier_step.
  - unfold deleteTopic. tier_step.
  - unfold deleteSubtopic. tier_step.
  - unfold performImport. tier_step.
  - unfold exportAllData. tier_step.
  - unfold selectSubtopic. tier_step.
  - unfold loadSavedPDF. tier_step.
  - unfold handlePDFUpload. tier_step.
  - unfold convertToExcel. tier_step.
  - unfold downloadAsExcel. tier_step.
  - unfold exportToPDF. tier_step.
Qed.

Lemma session_stays_on_tier_witness :
  let st0 := empty_storage LocalStorage in
  let app := createTopic (fun s => s) sample_stringify "BILLS" "folder" (IdNum 7)
               sample_now Succeeds
               (loadData_defaults sample_stringify sample_now Throws st0) in
  session (fun s => s) sample_stringify (fun _ _ => True) (fun _ => True) st0 app
  /\ same_tier st0 (storage app).
Proof.
  assert (H : session (fun s => s) sample_stringify (fun _ _ => True)
                (fun _ => True) (empty_storage LocalStorage)
                (createTopic (fun s => s) sample_stringify "BILLS" "folder"
                   (IdNum 7) sample_now Succeeds
                   (loadData_defaults sample_stringify sample_now Throws
                      (empty_storage LocalStorage)))).
  { apply session_createTopic; [apply session_start|exact I]. }
  split; [exact H|].
  exact (session_stays_on_tier (fun s => s) sample_stringify (fun _ _ => True)
           (fun _ => True) (empty_storage LocalStorage) _ H).
Defined.

(** ** Unique ids during a session *)

Lemma ids_flat_node n :
  map id (map attrs (flat_node n)) = node_id n :: ids (children n).
Proof.
  destruct n as [a subs]. rewrite flat_node_eq. unfold ids, children.
  cbn [map attrs subtopics]. rewrite map_map. by destruct subs.
Qed.

Lemma ids_app l1 l2 : ids (l1 ++ l2) = ids l1 ++ ids l2.
Proof. unfold ids. by rewrite getAllTopicsFlat_app, map_app. Qed.

Lemma ids_single n : ids [n] = node_id n :: ids (children n).
Proof.
  destruct n as [a subs]. rewrite ids_cons. unfold children.
  cbn [subtopics]. by rewrite app_nil_r.
Qed.

(** The ids around the node that [findTopicById] returns, before and
    after it has been changed by [f]. *)
Lemma update_found_ids i f l n :
  findTopicById i l = Some n ->
  exists pre post,
    ids l = pre ++ (node_id n :: ids (children n)) ++ post
    /\ ids (update_found i f l)
       = pre ++ (node_id (f n) :: ids (children (f n))) ++ post.
Proof.
  intros H.
  destruct (modifyById_flat i f l n H) as (l' & pre & post & Hm & H1 & H2 & _).
  exists (map id pre), (map id post).
  rewrite (update_found_Some _ _ _ _ Hm), !ids_attrs, H1, H2, !map_app.
  by rewrite !ids_flat_node, !ids_attrs.
Qed.

Lemma update_found_same_ids i f l :
  (forall m, node_id (f m) = node_id m) ->
  (forall m, subtopics (f m) = subtopics m) ->
  ids (update_found i f l) = ids l.
Proof.
  intros Hid Hsub. destruct (findTopicById i l) as [n|] eqn:E.
  - destruct (update_found_ids i f l n E) as (pre & post & H1 & H2).
    rewrite H2, H1, Hid. unfold children. by rewrite Hsub.
  - unfold update_found. by rewrite (modifyById_None _ _ _ E).
Qed.

Lemma removeFromArray_ids i l l' :
  removeFromArray i l = Some l' -> ids l' `sublist_of` ids l.
Proof.
  intros H. destruct (findTopicById i l) as [n|] eqn:E.
  - destruct (removeFromArray_spec i l n E)
      as (l'' & pre & post & Hr & H1 & H2 & _).
    rewrite Hr in H. injection H as <-.
    rewrite !ids_attrs, H1, H2, !map_app.
    apply sublist_app; [done|]. by apply sublist_inserts_l.
  - by rewrite (removeFromArray_None _ _ E) in H.
Qed.

Lemma remove_in_topics_ids i l :
  ids (remove_in_topics i l) `sublist_of` ids l.
Proof.
  induction l as [|[a subs] rest IH]; [done|].
  cbn [remove_in_topics]. rewrite remove_in_node_eq.
  destruct subs as [s|].
  - destruct (removeFromArray i s) as [s'|] eqn:E; cbn [option_map].
    + rewrite !ids_cons. apply sublist_skip, sublist_app; [|done].
      by apply (removeFromArray_ids i).
    + rewrite !ids_cons. apply sublist_skip, sublist_app; done.
  - cbn [option_map]. rewrite !ids_cons. apply sublist_skip, sublist_app; done.
Qed.

Lemma unique_ids_sublist l l' :
  ids l' `sublist_of` ids l -> unique_ids l -> unique_ids l'.
Proof. intros Hs H. exact (sublist_NoDup _ _ H Hs). Qed.

Lemma unique_ids_same l l' : ids l' = ids l -> unique_ids l -> unique_ids l'.
Proof. unfold unique_ids. fold (ids l) (ids l'). by intros ->. Qed.

Lemma createTopic_unique U S title folderType newId now be app :
  ~ In newId (ids (topics app)) ->
  unique_ids (topics app) ->
  unique_ids (topics (createTopic U S title folderType newId now be app)).
Proof.
  intros Hfresh H. unfold createTopic. destruct (str_truthy title); [|done].
  rewrite topics_commit. unfold unique_ids. fold (ids (topics app ++
    [mkNode
       (mkAttrs newId (U title)
          (Some (if String.eqb folderType "folder" then "fas fa-folder"
                 else "fas fa-file-pdf"))
          None (Some folderType) false (Some now) None None)
       (if String.eqb folderType "folder" then Some [] else None)])).
  rewrite ids_app, ids_single, children_new_node.
  apply NoDup_app. split; [done|]. split; [|apply NoDup_singleton].
  intros x Hx Hx'. apply list_elem_of_In in Hx.
  apply list_elem_of_singleton in Hx'. by subst x.
Qed.

Lemma insertChild_unique S parentId title descr folderType newId now be app :
  ~ In newId (ids (topics app)) ->
  unique_ids (topics app) ->
  unique_ids
    (topics (snd (insertChild S parentId title descr folderType newId now be
                    app))).
Proof.
  intros Hfresh H. unfold insertChild, addSubtopic.
  destruct (findTopicById parentId (topics app)) as [p|] eqn:Ep; [|done].
  destruct (is_pdf_folder p); [done|]. cbn [snd].
  unfold createSubtopic. cbn [currentTopicId set_currentTopicId topics].
  destruct (str_truthy title && id_truthy parentId); [|done].
  rewrite Ep, topics_commit.
  set (c := mkNode _ _).
  destruct (update_found_ids parentId (push_subtopic c) (topics app) p Ep)
    as (pre & post & H1 & H2).
  unfold unique_ids in H |- *. fold (ids (topics app)) in H.
  fold (ids (update_found parentId (push_subtopic c) (topics app))).
  rewrite H2. rewrite H1 in H, Hfresh.
  assert (Hc : ids (children (push_subtopic c p)) = ids (children p) ++ [newId]).
  { unfold push_subtopic, children at 1. cbn [subtopics].
    change (default [] (Some (default [] (subtopics p) ++ [c])))
      with (children p ++ [c]).
    rewrite ids_app, ids_single. subst c. by rewrite children_new_node. }
  rewrite Hc. change (node_id (push_subtopic c p)) with (node_id p).
  assert (Hperm : newId :: pre ++ (node_id p :: ids (children p)) ++ post
                  ≡ₚ pre ++ (node_id p :: ids (children p) ++ [newId]) ++ post).
  { rewrite (Permutation_middle pre). apply Permutation_app_head.
    cbn [List.app]. rewrite <- app_assoc. cbn [List.app].
    etransitivity; [apply perm_swap|]. apply perm_skip, Permutation_middle. }
  rewrite <- Hperm. apply NoDup_cons. split; [|done]. by rewrite list_elem_of_In.
Qed.

Lemma confirmRename_ids S newName now be app :
  ids (topics (confirmRename S newName now be app)) = ids (topics app).
Proof.
  unfold confirmRename, closeRenameModal. cbn [topics].
  destruct (renameTargetId app) as [t|]; [|done].
  destruct (renameTargetType app) as [ty|]; [|done].
  destruct (str_truthy newName && id_truthy t && str_truthy ty); [|done].
  destruct (findTopicById t (topics app)); [|done].
  rewrite topics_commit. by apply update_found_same_ids.
Qed.

Lemma toggleTopic_ids S topicId now be app :
  ids (topics (toggleTopic S topicId now be app)) = ids (topics app).
Proof.
  unfold toggleTopic. destruct (findTopicById topicId (topics app)); [|done].
  destruct (has_subtopics n); [|done].
  rewrite topics_commit. by apply update_found_same_ids.
Qed.

Lemma handlePDFUpload_ids S picked now be be' app :
  ids (topics (handlePDFUpload S picked now be be' app)) = ids (topics app).
Proof.
  unfold handlePDFUpload. destruct picked as [| |m|b f]; [done|..];
    destruct (current_truthy _); try done.
  destruct (currentSubtopicId app) as [c|]; [|done].
  destruct (findTopicById c (topics app)); [|done].
  cbn [topics alert]. rewrite topics_commit. by apply update_found_same_ids.
Qed.

Lemma deleteTopic_ids S topicId confirmed now be app :
  ids (topics (deleteTopic S topicId confirmed now be app))
  `sublist_of` ids (topics app).
Proof.
  unfold deleteTopic. destruct (findTopicById topicId (topics app)); [|done].
  destruct confirmed; [|done]. rewrite topics_commit.
  destruct (removeFromArray topicId (topics app)) as [l'|] eqn:E.
  - by apply (removeFromArray_ids topicId).
  - done.
Qed.

Lemma deleteSubtopic_ids S subtopicId parentId confirmed now be app :
  ids (topics (deleteSubtopic S subtopicId parentId confirmed now be app))
  `sublist_of` ids (topics app).
Proof.
  unfold deleteSubtopic.
  destruct (findTopicById subtopicId (topics app)); [|done].
  destruct confirmed; [|done]. rewrite topics_commit.
  destruct (findTopicById parentId (topics app)) as [[a [items|]]|] eqn:Ep;
    try apply remove_in_topics_ids.
  destruct (removeFromArray subtopicId items) as [items'|] eqn:E; [|done].
  destruct (update_found_ids parentId
              (fun parentTopic => mkNode (attrs parentTopic) (Some items'))
              (topics app) _ Ep) as (pre & post & H1 & H2).
  rewrite H2, H1. apply sublist_app; [done|]. apply sublist_app; [|done].
  apply sublist_skip. by apply (removeFromArray_ids subtopicId).
Qed.

Lemma loadDefaultData_unique now : unique_ids (loadDefaultData now).
Proof.
  unfold unique_ids. apply (bool_decide_unpack _). by vm_compute.
Qed.

(** X27: ids stay unique tree-wide throughout a session, provided
    [generateId] never returns an id that is in the tree and every
    imported archive has unique ids: the default data has unique ids and
    every handler keeps them so. *)
Theorem session_unique_ids (toUpperCase : string -> string)
  (JSON_stringify : list Node -> string) (st0 : Storage) (app : App) :
  session toUpperCase JSON_stringify (fun l j => ~ In j (ids l)) unique_ids st0
    app ->
  unique_ids (topics app).
Proof.
  induction 1 as
    [ now be
    | title folderType newId now be app _ IH Hfresh
    | parentId title descr folderType newId now be app _ IH Hfresh
    | i targetType newName now be app _ IH
    | topicId now be app _ IH
    | topicId confirmed now be app _ IH
    | subtopicId parentId confirmed now be app _ IH
    | input now be puts app _ IH Hallowed
    | now gets app _ IH
    | subtopicId topicId be app _ IH
    | decoding now be app _ IH
    | picked now be be' app _ IH
    | pdfLoaded conversion now be app _ IH
    | be decodeError app _ IH
    | be decodeError app _ IH ].
  - apply loadDefaultData_unique.
  - by apply createTopic_unique.
  - by apply insertChild_unique.
  - eapply unique_ids_same; [apply confirmRename_ids|done].
  - eapply unique_ids_same; [apply toggleTopic_ids|done].
  - eapply unique_ids_sublist; [apply deleteTopic_ids|done].
  - eapply unique_ids_sublist; [apply deleteSubtopic_ids|done].
  - unfold performImport. destruct input as [| |a]; [done..|].
    destruct (a_topics a) as [| |l] eqn:Ea; [done..|].
    cbn [topics alert resetMainContent set_storage set_topics].
    by apply (Hallowed a).
  - unfold exportAllData. by destruct (export_pdfs _ _ _ _ _).
  - unfold selectSubtopic. repeat case_match; done.
  - unfold loadSavedPDF. repeat case_match; done.
  - eapply unique_ids_same; [apply handlePDFUpload_ids|done].
  - unfold convertToExcel. repeat case_match; done.
  - unfold downloadAsExcel. repeat case_match; done.
  - unfold exportToPDF. repeat case_match; done.
Qed.

Lemma session_unique_ids_witness :
  let st0 := empty_storage IndexedDB in
  let app := createTopic (fun s => s) sample_stringify "BILLS" "folder"
               (IdNum 1704067200000) sample_now Succeeds
               (loadData_defaults sample_stringify sample_now Succeeds st0) in
  session (fun s => s) sample_stringify (fun l j => ~ In j (ids l)) unique_ids
    st0 app
  /\ unique_ids (topics app).
Proof.
  assert (H : session (fun s => s) sample_stringify (fun l j => ~ In j (ids l))
                unique_ids (empty_storage IndexedDB)
                (createTopic (fun s => s) sample_stringify "BILLS" "folder"
                   (IdNum 1704067200000) sample_now Succeeds
                   (loadData_defaults sample_stringify sample_now Succeeds
                      (empty_storage IndexedDB)))).
  { apply session_createTopic; [apply session_start|].
    cbn beta. rewrite <- list_elem_of_In.
    apply (bool_decide_unpack _). by vm_compute. }
  split; [exact H|].
  exact (session_unique_ids (fun s => s) sample_stringify
           (empty_storage IndexedDB) _ H).
Defined.

(** ** Storage statistics *)

Lemma entries_insert {A} (m : gmap string A) (key : string) (x : A)
  (size : string * A -> nat) :
  m !! key = None ->
  let entries m := filter (fun kv => is_pdf_key (fst kv)) (map_to_list m) in
  length (entries (<[key := x]> m))
  = length (entries m) + (if is_pdf_key key then 1 else 0)
  /\ sum_list_with size (entries (<[key := x]> m))
     = sum_list_with size (entries m)
       + (if is_pdf_key key then size (key, x) else 0).
Proof.
  intros Hm entries. subst entries. cbn beta.
  rewrite (map_to_list_insert m key x Hm).
  destruct (is_pdf_key key) eqn:E.
  - rewrite filter_cons_True
      by (change (Is_true (is_pdf_key key)); by rewrite E).
    cbn [length sum_list_with]. lia.
  - rewrite filter_cons_False
      by (change (~ Is_true (is_pdf_key key)); rewrite E; intros []).
    lia.
Qed.

(** X28: what a write of a string under a key that no store holds yet
    does to the statistics of [getStorageInfo], nothing failing.  On the
    IndexedDB tier every record counts, so [pdfCount] grows by one and
    [totalSize] by the size of the text for any key, also for the
    "excel_" keys of the conversions; on the localStorage and in-memory
    tiers only keys that start with "pdf_" are counted. *)
Theorem getStorageInfo_after_write (app : App) (now key s : string) :
  idb_pdfs (storage app) !! key = None ->
  localStorage (storage app) !! key = None ->
  inMemoryStorage (storage app) !! key = None ->
  let counted := uses_IndexedDB (storage app) || is_pdf_key key in
  let app' :=
    set_storage (saveToStorage now Succeeds key (JStr s) (storage app)) app in
  pdfCount (getStorageInfo Succeeds app')
  = pdfCount (getStorageInfo Succeeds app) + (if counted then 1 else 0)
  /\ totalSize (getStorageInfo Succeeds app')
     = totalSize (getStorageInfo Succeeds app)
       + (if counted then blob_size (JStr s) else 0).
Proof.
  intros Hidb Hls Hmem counted app'. subst counted app'.
  unfold getStorageInfo. cbn [storage set_storage].
  destruct (saveToStorage_tier now Succeeds key (JStr s) (storage app))
    as [-> ->].
  unfold saveToStorage.
  destruct (uses_IndexedDB (storage app)) eqn:E1;
    [|destruct (uses_localStorage (storage app)) eqn:E2].
  - cbn [pdfCount totalSize idb_pdfs set_idb_pdfs orb].
    rewrite (map_to_list_insert _ _ _ Hidb). cbn. lia.
  - cbn [pdfCount totalSize localStorage set_localStorage orb js_toString].
    destruct (entries_insert (localStorage (storage app)) key s
                (fun kv => text_size (snd kv)) Hls) as [-> ->].
    by destruct (is_pdf_key key).
  - unfold memory_set.
    cbn [pdfCount totalSize inMemoryStorage set_inMemoryStorage orb].
    destruct (entries_insert (inMemoryStorage (storage app)) key
                (MemBlob (mkBlob (JStr s) now (blob_size (JStr s))))
                (fun kv => item_size (snd kv)) Hmem) as [-> ->].
    by destruct (is_pdf_key key).
Qed.

Lemma getStorageInfo_after_write_witness :
  let app := sample_app sample_forest LocalStorage in
  let app' :=
    set_storage
      (saveToStorage sample_now Succeeds "excel_2" (JStr "UEsDBA==") (storage app))
      app in
  idb_pdfs (storage app) !! "excel_2" = None
  /\ localStorage (storage app) !! "excel_2" = None
  /\ inMemoryStorage (storage app) !! "excel_2" = None
  /\ pdfCount (getStorageInfo Succeeds app')
     = pdfCount (getStorageInfo Succeeds app)
       + (if uses_IndexedDB (storage app) || is_pdf_key "excel_2" then 1 else 0)
  /\ totalSize (getStorageInfo Succeeds app')
     = totalSize (getStorageInfo Succeeds app)
       + (if uses_IndexedDB (storage app) || is_pdf_key "excel_2"
          then blob_size (JStr "UEsDBA==") else 0).
Proof.
  split; [reflexivity|]. split; [reflexivity|]. split; [reflexivity|].
  exact (getStorageInfo_after_write (sample_app sample_forest LocalStorage)
           sample_now "excel_2" "UEsDBA==" eq_refl eq_refl eq_refl).
Defined.

(** ** Saving, then loading *)

(** X29: a load right after a save at which nothing failed finds the
    tree that was saved and changes nothing, on the IndexedDB tier and on
    the in-memory tier for any tree; on the localStorage tier provided
    the JSON text of the tree is not empty and parses back to the tree. *)
Theorem saveData_then_loadData (JSON_stringify : list Node -> string)
  (JSON_parse : string -> ParsedText) (app : App) (l : list Node)
  (now now' : string) (be' : Backend) :
  (uses_IndexedDB (storage app) = false ->
   uses_localStorage (storage app) = true ->
   str_truthy (JSON_stringify l) = true
   /\ JSON_parse (JSON_stringify l) = ParsedTopics l) ->
  let saved := commit JSON_stringify now Succeeds l app in
  loadData JSON_stringify JSON_parse now' Succeeds be' saved = Some saved.
Proof.
  intros Hjson saved. subst saved. unfold loadData. rewrite storage_commit.
  destruct (saveData_tier JSON_stringify now Succeeds l (storage app))
    as [-> ->].
  unfold saveData.
  destruct (uses_IndexedDB (storage app)) eqn:E1;
    [|destruct (uses_localStorage (storage app)) eqn:E2].
  - cbn [idb_topics set_idb_topics]. by rewrite lookup_insert_eq.
  - cbn [localStorage set_localStorage]. rewrite lookup_insert_eq.
    destruct (Hjson eq_refl eq_refl) as [-> ->]. done.
  - cbn [inMemoryStorage set_inMemoryStorage]. by rewrite lookup_insert_eq.
Qed.

Lemma saveData_then_loadData_witness :
  let parse := fun _ : string => ParsedTopics sample_forest in
  let app := sample_app [] LocalStorage in
  let saved := commit sample_stringify sample_now Succeeds sample_forest app in
  (uses_IndexedDB (storage app) = false ->
   uses_localStorage (storage app) = true ->
   str_truthy (sample_stringify sample_forest) = true
   /\ parse (sample_stringify sample_forest) = ParsedTopics sample_forest)
  /\ loadData sample_stringify parse sample_now Succeeds Succeeds saved
     = Some saved.
Proof.
  assert (H : uses_IndexedDB (storage (sample_app [] LocalStorage)) = false ->
              uses_localStorage (storage (sample_app [] LocalStorage)) = true ->
              str_truthy (sample_stringify sample_forest) = true
              /\ (fun _ : string => ParsedTopics sample_forest)
                   (sample_stringify sample_forest)
                 = ParsedTopics sample_forest).
  { intros _ _. split; reflexivity. }
  split; [exact H|].
  exact (saveData_then_loadData sample_stringify
           (fun _ => ParsedTopics sample_forest) (sample_app [] LocalStorage)
           sample_forest sample_now sample_now Succeeds H).
Defined.

(** X30: on a durable tier, a tree whose save failed because the backend
    threw is not what a later load finds.  The failed save goes to the
    in-memory map, which [loadData] does not read on the IndexedDB and
    localStorage tiers: the load gives the tree it would have given
    before that save (the last tree saved successfully, or the
    defaults). *)
Theorem failed_save_is_not_loaded (JSON_stringify : list Node -> string)
  (JSON_parse : string -> ParsedText) (app : App) (l : list Node)
  (now now' : string) (be be' : Backend) :
  uses_IndexedDB (storage app) || uses_localStorage (storage app) = true ->
  option_map topics
    (loadData JSON_stringify JSON_parse now' be be'
       (commit JSON_stringify now Throws l app))
  = option_map topics (loadData JSON_stringify JSON_parse now' be be' app).
Proof.
  intros Htier. unfold loadData. rewrite storage_commit.
  destruct (saveData_tier JSON_stringify now Throws l (storage app))
    as [-> ->].
  unfold saveData.
  destruct (uses_IndexedDB (storage app)) eqn:E1;
    [|destruct (uses_localStorage (storage app)) eqn:E2; [|done]].
  - cbn [idb_topics set_inMemoryStorage].
    destruct be; try done. by destruct (idb_topics (storage app) !! STORAGE_KEY).
  - cbn [localStorage set_inMemoryStorage].
    destruct be; try done;
      (destruct (localStorage (storage app) !! STORAGE_KEY) as [savedData|];
       [|done]; destruct (str_truthy savedData); [|done];
       by destruct (JSON_parse savedData)).
Qed.

Lemma failed_save_is_not_loaded_witness :
  let parse := fun _ : string => ParseThrows in
  let app := sample_app [] IndexedDB in
  uses_IndexedDB (storage app) || uses_localStorage (storage app) = true
  /\ option_map topics
       (loadData sample_stringify parse sample_now Succeeds Succeeds
          (commit sample_stringify sample_now Throws sample_forest app))
     = option_map topics
         (loadData sample_stringify parse sample_now Succeeds Succeeds app).
Proof.
  split; [reflexivity|].
  exact (failed_save_is_not_loaded sample_stringify (fun _ => ParseThrows)
           (sample_app [] IndexedDB) sample_forest sample_now sample_now
           Succeeds Succeeds eq_refl).
Defined.

(** ** The saved tree after an import *)

(** A blob write under any key but that of the tree leaves the slot of
    the tree as it is, on every tier and whatever the backend does. *)
Lemma saveToStorage_tree_slot now be key value st :
  key <> STORAGE_KEY ->
  idb_topics (saveToStorage now be key value st) = idb_topics st
  /\ localStorage (saveToStorage now be key value st) !! STORAGE_KEY
     = localStorage st !! STORAGE_KEY
  /\ inMemoryStorage (saveToStorage now be key value st) !! STORAGE_KEY
     = inMemoryStorage st !! STORAGE_KEY.
Proof.
  intros Hkey. unfold saveToStorage, memory_set.
  destruct (uses_IndexedDB st), (uses_localStorage st), be;
    cbn [idb_topics localStorage inMemoryStorage set_idb_pdfs
         set_localStorage set_inMemoryStorage];
    repeat split; try done; by rewrite lookup_insert_ne.
Qed.

Lemma import_pdfs_tree_slot now puts entries :
  forall n st,
    idb_topics (import_pdfs now puts n entries st) = idb_topics st
    /\ localStorage (import_pdfs now puts n entries st) !! STORAGE_KEY
       = localStorage st !! STORAGE_KEY
    /\ inMemoryStorage (import_pdfs now puts n entries st) !! STORAGE_KEY
       = inMemoryStorage st !! STORAGE_KEY.
Proof.
  induction entries as [|[k v] rest IH]; intros n st; [done|].
  cbn [import_pdfs].
  destruct (IH (S n) (saveToStorage now (puts n) (import_key k) v st))
    as (-> & -> & ->).
  apply saveToStorage_tree_slot, import_key_not_snapshot.
Qed.

Lemma import_pdfs_tier now puts entries n st :
  uses_IndexedDB (import_pdfs now puts n entries st) = uses_IndexedDB st
  /\ uses_localStorage (import_pdfs now puts n entries st) = uses_localStorage st.
Proof.
  apply same_tier_uses, same_tier_import_pdfs, same_tier_refl.
Qed.

(** X21: an import of an archive whose [topics] is an array replaces the
    forest by that array and clears the selection, whatever [pdfs] holds
    and whatever the backend does; and no entry of [pdfs], whatever its
    key, overwrites the saved tree.  The slot of the tree is as
    [saveData] left it on every tier (the 'topics' object store of
    IndexedDB, the tree's key in localStorage and in the in-memory map),
    so a later [loadData] finds the tree that it would have found had
    the archive carried no [pdfs] at all. *)
Theorem performImport_replaces_tree (JSON_stringify : list Node -> string)
  (a : Archive) (l : list Node) (now : string) (be : Backend)
  (puts : nat -> Backend) (app : App) :
  a_topics a = TopicsArray l ->
  let app' := performImport JSON_stringify (Parsed a) now be puts app in
  let saved := saveData JSON_stringify now be l (storage app) in
  topics app' = l
  /\ currentTopicId app' = None
  /\ currentSubtopicId app' = None
  /\ idb_topics (storage app') = idb_topics saved
  /\ localStorage (storage app') !! STORAGE_KEY = localStorage saved !! STORAGE_KEY
  /\ inMemoryStorage (storage app') !! STORAGE_KEY
     = inMemoryStorage saved !! STORAGE_KEY
  /\ (forall (JSON_parse : string -> ParsedText) now' be1 be2,
        option_map topics
          (loadData JSON_stringify JSON_parse now' be1 be2 app')
        = option_map topics
            (loadData JSON_stringify JSON_parse now' be1 be2
               (commit JSON_stringify now be l app))).
Proof.
  intros Ha app' saved.
  assert (Hst : storage app' = saved
                \/ exists pdfs,
                     storage app'
                     = import_pdfs now puts 0 (Object_entries pdfs) saved).
  { subst app' saved. unfold performImport. rewrite Ha.
    cbn [storage alert resetMainContent set_storage].
    destruct (a_pdfs a) as [pdfs|]; [right; by exists pdfs|by left]. }
  assert (Hslot : idb_topics (storage app') = idb_topics saved
                  /\ localStorage (storage app') !! STORAGE_KEY
                     = localStorage saved !! STORAGE_KEY
                  /\ inMemoryStorage (storage app') !! STORAGE_KEY
                     = inMemoryStorage saved !! STORAGE_KEY).
  { destruct Hst as [->|[pdfs ->]]; [done|apply import_pdfs_tree_slot]. }
  assert (Htier : uses_IndexedDB (storage app') = uses_IndexedDB saved
                  /\ uses_localStorage (storage app') = uses_localStorage saved).
  { destruct Hst as [->|[pdfs ->]]; [done|apply import_pdfs_tier]. }
  assert (Htopics : topics app' = l).
  { subst app'. unfold performImport. by rewrite Ha. }
  destruct Hslot as (H1 & H2 & H3). destruct Htier as [T1 T2].
  split; [done|]. split; [subst app'; unfold performImport; by rewrite Ha|].
  split; [subst app'; unfold performImport; by rewrite Ha|].
  split; [done|]. split; [done|]. split; [done|].
  intros JSON_parse now' be1 be2. unfold loadData.
  rewrite storage_commit. fold saved. rewrite T1, T2, H1, H2, H3.
  destruct (uses_IndexedDB saved); [|destruct (uses_localStorage saved)].
  - destruct be1; try done. by destruct (idb_topics saved !! STORAGE_KEY).
  - destruct be1; try done;
      (destruct (localStorage saved !! STORAGE_KEY) as [savedData|]; [|done];
       destruct (str_truthy savedData); [|done];
       by destruct (JSON_parse savedData)).
  - destruct (inMemoryStorage saved !! STORAGE_KEY) as [[item|item]|]; try done.
    destruct (b_data item) as [|data|l']; try done.
    by destruct (str_truthy data).
Qed.

Lemma performImport_replaces_tree_witness :
  let a := mkArchive "3.0" sample_now (TopicsArray sample_forest)
             (Some [("asturi_report_topics", JStr "JVBERi0=")]) in
  let app := sample_app [] IndexedDB in
  let app' := performImport sample_stringify (Parsed a) sample_now Succeeds
                (fun _ => Succeeds) app in
  let saved := saveData sample_stringify sample_now Succeeds sample_forest
                 (storage app) in
  a_topics a = TopicsArray sample_forest
  /\ topics app' = sample_forest
  /\ currentTopicId app' = None
  /\ currentSubtopicId app' = None
  /\ idb_topics (storage app') = idb_topics saved
  /\ localStorage (storage app') !! STORAGE_KEY = localStorage saved !! STORAGE_KEY
  /\ inMemoryStorage (storage app') !! STORAGE_KEY
     = inMemoryStorage saved !! STORAGE_KEY
  /\ (forall (JSON_parse : string -> ParsedText) now' be1 be2,
        option_map topics
          (loadData sample_stringify JSON_parse now' be1 be2 app')
        = option_map topics
            (loadData sample_stringify JSON_parse now' be1 be2
               (commit sample_stringify sample_now Succeeds sample_forest app))).
Proof.
  split; [reflexivity|].
  exact (performImport_replaces_tree sample_stringify
           (mkArchive "3.0" sample_now (TopicsArray sample_forest)
              (Some [("asturi_report_topics", JStr "JVBERi0=")]))
           sample_forest sample_now Succeeds (fun _ => Succeeds)
           (sample_app [] IndexedDB) eq_refl).
Defined.
